(** * Museum chatbot (app.py): the resolution pipeline, embedded and verified

    The development follows the layout of [app.py]:

    - [PyStr]    Python [str] values as sequences of code points, with the
                 [str] methods the application calls;
    - [Difflib]  [difflib.get_close_matches] and the [SequenceMatcher]
                 ratios it is built on;
    - [App]      the module globals, the external collaborators, and the
                 functions of [app.py] in source order;
    - [Startup]  what happens when the module is imported, and requests
                 served one after the other;
    - the properties of the pipeline, one theorem per documented claim;
    - further properties of the functions of [app.py] ([RequestFacts]),
                 on top of facts about [difflib] ([SelfMatch],
                 [BlockFacts]) and about strings and dictionaries
                 ([DataFacts]). *)

From Stdlib Require Import List NArith QArith Bool Ascii String Arith Lia
  Sorted.
Import ListNotations.

Close Scope Q_scope.
Open Scope nat_scope.

Set Implicit Arguments.

(* ===================================================================== *)
(** * Python strings *)
(* ===================================================================== *)

Module PyStr.

(** A Python [str] is a sequence of Unicode code points; [len] counts
    code points, not bytes. *)
Definition str : Type := list N.

Definition len (s : str) : nat := List.length s.

(** ** Literals

    The literals of [app.py] are written here as in the source file and
    decoded from UTF-8 (one to four bytes per code point). *)

Fixpoint bytes_of (s : string) : list N :=
  match s with
  | EmptyString => []
  | String c rest => N_of_ascii c :: bytes_of rest
  end.

Fixpoint utf8_decode (bs : list N) (pending : nat) (acc : N) : str :=
  match bs with
  | [] => []
  | byte :: rest =>
      match pending with
      | O =>
          if (byte <? 128)%N then byte :: utf8_decode rest 0 0%N
          else if (byte <? 224)%N then utf8_decode rest 1 (byte - 192)%N
          else if (byte <? 240)%N then utf8_decode rest 2 (byte - 224)%N
          else utf8_decode rest 3 (byte - 240)%N
      | S O => (acc * 64 + (byte - 128))%N :: utf8_decode rest 0 0%N
      | S more => utf8_decode rest more (acc * 64 + (byte - 128))%N
      end
  end.

Definition py (s : string) : str := utf8_decode (bytes_of s) 0 0%N.

(** ** Equality and ordering

    [==] on strings is equality of the code point sequences; [<] is the
    lexicographic order on code points. *)

Fixpoint eqb (s t : str) : bool :=
  match s, t with
  | [], [] => true
  | c :: s', d :: t' => (c =? d)%N && eqb s' t'
  | _, _ => false
  end.

Fixpoint compare (s t : str) : comparison :=
  match s, t with
  | [], [] => Eq
  | [], _ :: _ => Lt
  | _ :: _, [] => Gt
  | c :: s', d :: t' =>
      match (c ?= d)%N with
      | Eq => compare s' t'
      | o => o
      end
  end.

(** [x in xs] for a list of strings. *)
Definition mem (x : str) (xs : list str) : bool := existsb (eqb x) xs.

(** ** Substring test: [needle in hay] *)

Fixpoint startswith (hay prefix : str) : bool :=
  match prefix, hay with
  | [], _ => true
  | _ :: _, [] => false
  | c :: prefix', d :: hay' => (c =? d)%N && startswith hay' prefix'
  end.

Fixpoint contains (hay needle : str) : bool :=
  startswith hay needle ||
  match hay with
  | [] => false
  | _ :: hay' => contains hay' needle
  end.

(** ** [str.strip()]

    With no argument, [strip] removes leading and trailing whitespace:
    the code points for which [str.isspace] holds. *)

Definition isspace_cp (c : N) : bool :=
  ((9 <=? c) && (c <=? 13) || (28 <=? c) && (c <=? 32) ||
   (c =? 133) || (c =? 160) || (c =? 5760) ||
   (8192 <=? c) && (c <=? 8202) || (c =? 8232) || (c =? 8233) ||
   (c =? 8239) || (c =? 8287) || (c =? 12288))%N.

Fixpoint lstrip (s : str) : str :=
  match s with
  | c :: s' => if isspace_cp c then lstrip s' else s
  | [] => []
  end.

Definition rstrip (s : str) : str := rev (lstrip (rev s)).

Definition strip (s : str) : str := rstrip (lstrip s).

(** ** Truthiness

    A string is falsy exactly when it is empty; [None] is falsy. *)

Definition truthy (s : str) : bool :=
  match s with [] => false | _ :: _ => true end.

Definition truthy_opt (o : option str) : bool :=
  match o with Some s => truthy s | None => false end.

End PyStr.

Import PyStr.

(* ===================================================================== *)
(** * difflib *)
(* ===================================================================== *)

(** [app.py] matches questions with [difflib.get_close_matches].  The
    module follows the standard library's [SequenceMatcher] with its default
    arguments ([isjunk=None], [autojunk=True]): [a] is [seq1], [b] is
    [seq2], indices are positions in the two strings.

    The ratios are Python floats [2.0 * matches / length].  They are kept
    here as exact rationals: for two strings of fewer than [2^26] code
    points together, distinct quotients are further apart than the spacing
    of doubles, so comparing the rounded quotients (with each other and
    with the cutoff [0.6]) gives the same answers as comparing the exact
    ones. *)

Module Difflib.

(** A matching block [(i, j, size)]: [a[i:i+size] == b[j:j+size]]. *)
Definition Match : Type := (nat * nat * nat)%type.

Definition item (s : str) (i : nat) : N := nth i s 0%N.

Section SequenceMatcher.

Variables a b : str.

(** ** [__chain_b]: the index [b2j] of [b]

    [b2j[elt]] lists the positions of [elt] in [b], in increasing
    order.  With [autojunk] and [len(b) >= 200], the elements occurring
    more than [len(b) // 100 + 1] times are "popular" and removed from
    [b2j].  No element is junk, since [isjunk] is [None]. *)

Fixpoint indices_from (elt : N) (s : str) (i : nat) : list nat :=
  match s with
  | [] => []
  | c :: s' =>
      if (c =? elt)%N then i :: indices_from elt s' (S i)
      else indices_from elt s' (S i)
  end.

Definition bpopular (elt : N) : bool :=
  (200 <=? len b) &&
  (len b / 100 + 1 <? List.length (indices_from elt b 0)).

(** [b2j.get(elt, [])] *)
Definition b2j_get (elt : N) : list nat :=
  if bpopular elt then [] else indices_from elt b 0.

(** ** [find_longest_match(alo, ahi, blo, bhi)] *)

(** [j2len.get(j, 0)]; [j2len] maps a position [j] of [b] to the length
    of the longest match ending with [a[i-1]] and [b[j]]. *)
Definition j2len_get (j2len : list (nat * nat)) (j : nat) : nat :=
  match find (fun entry => fst entry =? j) j2len with
  | Some (_, k) => k
  | None => 0
  end.

(** The inner loop [for j in b2j.get(a[i], nothing)].  For [j = 0] the
    key [j-1] is [-1], which no row holds.  [k] never exceeds the number
    of rows scanned, so [i-k+1] and [j-k+1] are written [i+1-k] and
    [j+1-k] on naturals. *)
Fixpoint scan_row (i blo bhi : nat) (j2len : list (nat * nat))
    (js : list nat) (newj2len : list (nat * nat)) (best : Match)
  : list (nat * nat) * Match :=
  match js with
  | [] => (newj2len, best)
  | j :: js' =>
      if j <? blo then scan_row i blo bhi j2len js' newj2len best
      else if bhi <=? j then (newj2len, best)
      else
        let k := match j with
                 | O => 0
                 | S j1 => j2len_get j2len j1
                 end + 1 in
        let '(_, _, bestsize) := best in
        scan_row i blo bhi j2len js' ((j, k) :: newj2len)
          (if bestsize <? k then (i + 1 - k, j + 1 - k, k) else best)
  end.

(** The outer loop [for i in range(alo, ahi)]. *)
Fixpoint scan_rows (rows : list nat) (blo bhi : nat)
    (j2len : list (nat * nat)) (best : Match) : Match :=
  match rows with
  | [] => best
  | i :: rows' =>
      let '(newj2len, best') :=
        scan_row i blo bhi j2len (b2j_get (item a i)) [] best in
      scan_rows rows' blo bhi newj2len best'
  end.

(** [while besti > alo and bestj > blo and a[besti-1] == b[bestj-1]]:
    the match is extended to the left (over popular elements, which
    [b2j] no longer holds). *)
Fixpoint extend_left (alo blo besti bestj bestsize : nat) : Match :=
  match besti, bestj with
  | S i1, S j1 =>
      if (alo <? besti) && (blo <? bestj) && (item a i1 =? item b j1)%N
      then extend_left alo blo i1 j1 (S bestsize)
      else (besti, bestj, bestsize)
  | _, _ => (besti, bestj, bestsize)
  end.

(** [while besti+bestsize < ahi and bestj+bestsize < bhi and
    a[besti+bestsize] == b[bestj+bestsize]]: extension to the right.
    [steps] bounds the iterations; [ahi - (besti+bestsize)] is enough,
    since the loop stops when [besti+bestsize] reaches [ahi]. *)
Fixpoint extend_right (steps ahi bhi besti bestj bestsize : nat) : nat :=
  match steps with
  | O => bestsize
  | S steps' =>
      if (besti + bestsize <? ahi) && (bestj + bestsize <? bhi) &&
         (item a (besti + bestsize) =? item b (bestj + bestsize))%N
      then extend_right steps' ahi bhi besti bestj (S bestsize)
      else bestsize
  end.

(** The two further loops of the source extend over junk elements only
    ([isbjunk(...)]); [bjunk] is empty, so they never iterate. *)
Definition find_longest_match (alo ahi blo bhi : nat) : Match :=
  let '(besti, bestj, bestsize) :=
    scan_rows (seq alo (ahi - alo)) blo bhi [] (alo, blo, 0) in
  let '(besti, bestj, bestsize) :=
    extend_left alo blo besti bestj bestsize in
  (besti, bestj,
   extend_right (ahi - (besti + bestsize)) ahi bhi besti bestj bestsize).

(** ** [get_matching_blocks()] *)

(** The work list [queue] of [(alo, ahi, blo, bhi)]; the head of the
    list is the element [queue.pop()] takes.  [None] when the bound on
    the iterations is reached with work left (excluded below by
    [matching_blocks_loop_total]). *)
Fixpoint matching_blocks_loop (fuel : nat)
    (queue : list (nat * nat * nat * nat)) (matching_blocks : list Match)
  : option (list Match) :=
  match queue with
  | [] => Some matching_blocks
  | (alo, ahi, blo, bhi) :: queue' =>
      match fuel with
      | O => None
      | S fuel' =>
          let '(i, j, k) := find_longest_match alo ahi blo bhi in
          if k =? 0 then matching_blocks_loop fuel' queue' matching_blocks
          else
            let queue1 :=
              if (alo <? i) && (blo <? j)
              then (alo, i, blo, j) :: queue' else queue' in
            let queue2 :=
              if (i + k <? ahi) && (j + k <? bhi)
              then (i + k, ahi, j + k, bhi) :: queue1 else queue1 in
            matching_blocks_loop fuel' queue2
              (matching_blocks ++ [(i, j, k)])
      end
  end.

(** [matching_blocks.sort()]: triples in lexicographic order. *)
Definition match_ltb (x y : Match) : bool :=
  let '(i1, j1, k1) := x in
  let '(i2, j2, k2) := y in
  (i1 <? i2) || (i1 =? i2) && ((j1 <? j2) || (j1 =? j2) && (k1 <? k2)).

Fixpoint insert_match (x : Match) (sorted : list Match) : list Match :=
  match sorted with
  | [] => [x]
  | y :: rest =>
      if match_ltb x y then x :: sorted else y :: insert_match x rest
  end.

Definition sort_matches (l : list Match) : list Match :=
  fold_left (fun sorted x => insert_match x sorted) l [].

(** Adjacent blocks are merged: the loop over the sorted blocks keeps a
    pending block [(i1, j1, k1)]. *)
Fixpoint merge_adjacent (blocks : list Match) (i1 j1 k1 : nat)
    (non_adjacent : list Match) : list Match :=
  match blocks with
  | [] =>
      if k1 =? 0 then non_adjacent else non_adjacent ++ [(i1, j1, k1)]
  | (i2, j2, k2) :: rest =>
      if (i1 + k1 =? i2) && (j1 + k1 =? j2)
      then merge_adjacent rest i1 j1 (k1 + k2) non_adjacent
      else merge_adjacent rest i2 j2 k2
             (if k1 =? 0 then non_adjacent
              else non_adjacent ++ [(i1, j1, k1)])
  end.

Definition get_matching_blocks : list Match :=
  let la := len a in
  let lb := len b in
  match matching_blocks_loop (2 * la + 1) [(0, la, 0, lb)] [] with
  | Some matching_blocks =>
      merge_adjacent (sort_matches matching_blocks) 0 0 0 []
        ++ [(la, lb, 0)]
  | None => [(la, lb, 0)]
  end.

(** ** The three ratios *)

(** [_calculate_ratio(matches, length)] *)
Definition calculate_ratio (matches length : nat) : Q :=
  match length with
  | O => 1%Q
  | S _ => (Z.of_nat (2 * matches) # Pos.of_nat length)%Q
  end.

(** [ratio()]: [sum(triple[-1] for triple in get_matching_blocks())]. *)
Definition ratio : Q :=
  let matches :=
    fold_left (fun total triple => total + snd triple)
      get_matching_blocks 0 in
  calculate_ratio matches (len a + len b).

(** [quick_ratio()]: the size of the multiset intersection of [a] and
    [b].  [avail[elt]] is how many times [elt] is still available in
    [b]; it may go below zero, hence an integer. *)
Definition count_in (elt : N) (s : str) : nat :=
  List.length (filter (fun c => (c =? elt)%N) s).

Definition avail_get (avail : list (N * Z)) (elt : N) : option Z :=
  match find (fun entry => (fst entry =? elt)%N) avail with
  | Some (_, numb) => Some numb
  | None => None
  end.

Fixpoint quick_matches (elts : str) (avail : list (N * Z))
    (matches : nat) : nat :=
  match elts with
  | [] => matches
  | elt :: elts' =>
      let numb := match avail_get avail elt with
                  | Some numb => numb
                  | None => Z.of_nat (count_in elt b)
                  end in
      quick_matches elts' ((elt, (numb - 1)%Z) :: avail)
        (if (0 <? numb)%Z then matches + 1 else matches)
  end.

Definition quick_ratio : Q :=
  calculate_ratio (quick_matches a [] 0) (len a + len b).

(** [real_quick_ratio()] *)
Definition real_quick_ratio : Q :=
  calculate_ratio (Nat.min (len a) (len b)) (len a + len b).

End SequenceMatcher.

(** ** [get_close_matches(word, possibilities, n, cutoff)]

    [app.py] calls it with [n=1] and [cutoff=0.6] only, for which the two
    [ValueError] guards on the arguments pass.  [word] is [seq2] and each
    possibility [x] is [seq1]. *)

(** [(score, x)] tuples compare by score first, then by string. *)
Definition scored_ltb (p q : Q * str) : bool :=
  match (fst p ?= fst q)%Q with
  | Lt => true
  | Gt => false
  | Eq => match PyStr.compare (snd p) (snd q) with
          | Lt => true
          | _ => false
          end
  end.

(** [heapq.nlargest(n, result)]: the first [n] of the result sorted in
    decreasing order, equal tuples in their original order. *)
Fixpoint insert_scored (x : Q * str) (sorted : list (Q * str))
  : list (Q * str) :=
  match sorted with
  | [] => [x]
  | y :: rest =>
      if scored_ltb y x then x :: sorted else y :: insert_scored x rest
  end.

Definition nlargest (n : nat) (result : list (Q * str)) : list (Q * str) :=
  firstn n (fold_left (fun sorted x => insert_scored x sorted) result []).

Definition close_enough (cutoff : Q) (word x : str) : bool :=
  Qle_bool cutoff (real_quick_ratio x word) &&
  Qle_bool cutoff (quick_ratio x word) &&
  Qle_bool cutoff (ratio x word).

Definition get_close_matches (word : str) (possibilities : list str)
    (n : nat) (cutoff : Q) : list str :=
  let result :=
    flat_map (fun x => if close_enough cutoff word x
                       then [(ratio x word, x)] else [])
             possibilities in
  map snd (nlargest n result).

End Difflib.


(* ===================================================================== *)
(** * app.py *)
(* ===================================================================== *)

Module App.

Import Difflib.

(** ** Exceptions

    The handlers of [app.py] tell apart only the two [wikipedia] exceptions
    named by [search_wikipedia]; every other clause is [except Exception].
    [ServiceError] stands for any other exception raised by an external
    collaborator (network failure, quota, unsupported language, ...). *)
Inductive Exception : Type :=
| IndexError
| KeyError
| AttributeError
| BadRequest
| OSError
| PageError
| DisambiguationError
| ServiceError.

Inductive Outcome (A : Type) : Type :=
| Return (value : A)
| Raise (e : Exception).

Arguments Return {A} value.
Arguments Raise {A} e.

(** ** Data model *)

(** An entry of [intents.json]; every key is optional in the file, and the
    code reads them with [dict.get] and [in]. *)
Record Intent : Type := {
  tag : option str;
  patterns : option (list str);
  responses : option (list str);
  detailed_response : option str
}.

(** [questions.json]: a [dict] from question to answer, in insertion order. *)
Definition dict : Type := list (str * str).

Definition dict_keys (d : dict) : list str := map fst d.

Fixpoint dict_get (key : str) (d : dict) : option str :=
  match d with
  | [] => None
  | (k, v) :: rest => if PyStr.eqb k key then Some v else dict_get key rest
  end.

(** [d[key] = value]: an existing key keeps its position. *)
Fixpoint dict_set (key value : str) (d : dict) : dict :=
  match d with
  | [] => [(key, value)]
  | (k, v) :: rest =>
      if PyStr.eqb k key then (k, value) :: rest
      else (k, v) :: dict_set key value rest
  end.

(** [d.get(key, default)] on an optional list-valued key. *)
Definition get_list (field : option (list str)) : list str :=
  match field with
  | Some l => l
  | None => []
  end.

(** ** The outside world

    A call to an external collaborator is recorded in the order it is made;
    the record is what "the provider was (not) invoked" refers to. *)
Inductive Call : Type :=
| Detect (text : str)
| Translate (source target text : str)
| WikipediaSummary (query : str)
| GeminiGenerate (prompt : str)
| DuckDuckGoText (query : str)
| DumpQuestions (content : dict).

(** What the process runs on.  The two [str] methods that depend on the
    Unicode character database are part of it, so that every statement
    below holds whatever these tables are, as are the collaborators:
    [langdetect.detect], [GoogleTranslator(source, target).translate],
    [wikipedia.summary(query, sentences=2)], the [text] of
    [GenerativeModel("gemini-pro").generate_content(prompt)], the ["body"]
    fields (when present) of [DDGS().text(query, max_results=3)], and
    writing [questions.json].  A request calls each collaborator at most
    once with the same arguments, so a function of the arguments describes
    what it does during the request.  The [print] statements and
    [wikipedia.set_lang("ar")] have no effect on the globals or on the
    answer and are left out. *)
Record Runtime : Type := {
  str_lower : str -> str;
  str_isdigit : str -> bool;
  langdetect_detect : str -> Outcome str;
  translator_translate : str -> str -> str -> Outcome str;
  wikipedia_summary : str -> Outcome str;
  gemini_text : str -> Outcome str;
  ddgs_text : str -> Outcome (list (option str));
  json_dump : dict -> Outcome unit
}.

(** The module globals of [app.py], and the calls made so far. *)
Record Globals : Type := {
  questions_data : dict;
  intents_data : list Intent;
  last_user_tag : option str;
  calls : list Call
}.

(** ** Computations: state and exceptions *)

Definition M (A : Type) : Type := Globals -> Outcome A * Globals.

Definition ret {A : Type} (a : A) : M A := fun g => (Return a, g).

Definition raise {A : Type} (e : Exception) : M A := fun g => (Raise e, g).

Definition bind {A B : Type} (m : M A) (k : A -> M B) : M B :=
  fun g =>
    match m g with
    | (Return a, g') => k a g'
    | (Raise e, g') => (Raise e, g')
    end.

Notation "x <- m ;; k" := (bind m (fun x => k))
  (at level 61, m at next level, right associativity).
Notation "m ;;; k" := (bind m (fun _ => k))
  (at level 61, right associativity).

(** [try: body except <clause>: handler]; [catches e] tells whether the
    clause names [e]. *)
Definition try_except {A : Type} (body : M A) (catches : Exception -> bool)
    (handler : M A) : M A :=
  fun g =>
    match body g with
    | (Return a, g') => (Return a, g')
    | (Raise e, g') => if catches e then handler g' else (Raise e, g')
    end.

Definition except_Exception (e : Exception) : bool := true.

Definition except_wikipedia (e : Exception) : bool :=
  match e with
  | PageError | DisambiguationError => true
  | _ => false
  end.

(** An external call: recorded, then its outcome. *)
Definition external {A : Type} (c : Call) (outcome : Outcome A) : M A :=
  fun g =>
    (outcome,
     {| questions_data := questions_data g;
        intents_data := intents_data g;
        last_user_tag := last_user_tag g;
        calls := calls g ++ [c] |}).

Definition get_globals : M Globals := fun g => (Return g, g).

Definition set_questions_data (d : dict) : M unit :=
  fun g =>
    (Return tt,
     {| questions_data := d;
        intents_data := intents_data g;
        last_user_tag := last_user_tag g;
        calls := calls g |}).

(** [x or y] where [x] may be [None] or a string and [y] likewise. *)
Definition py_or (x y : M (option str)) : M (option str) :=
  v <- x ;; if truthy_opt v then ret v else y.

(** [x or y] where [y] is a string. *)
Definition py_or_str (x : M (option str)) (y : M str) : M str :=
  v <- x ;;
  match v with
  | Some s => if truthy s then ret s else y
  | None => y
  end.

(** ** Literals of [app.py] *)

Definition MSG_NOT_FOUND : str :=
  Eval vm_compute in py "❌ لم أتمكن من العثور على إجابة.".
Definition MSG_EMPTY : str :=
  Eval vm_compute in py "❌ لم يتم استقبال رسالة صالحة!".
Definition MSG_UNCLEAR : str :=
  Eval vm_compute in py "❌ السؤال غير واضح، حاول إعادة صياغته!".
Definition MSG_OUT_OF_SCOPE : str :=
  Eval vm_compute in
    py "❌ هذا السؤال خارج نطاق تخصصي، أنا هنا لمساعدتك فيما يخص المتحف المصري فقط.".
Definition MSG_SERVER_ERROR : str :=
  Eval vm_compute in py "❌ حدث خطأ في النظام، حاول لاحقًا.".

(** The answers [save_question] refuses to store. *)
Definition NON_ANSWERS : list str :=
  Eval vm_compute in
    [MSG_NOT_FOUND; py "مع السلامة"; py "إلى اللقاء"; py "سلام"].

Definition GEMINI_PROMPT : str := Eval vm_compute in py "أجب بإيجاز حول: ".

Definition keywords : list str :=
  Eval vm_compute in
    map py ["المتحف"; "الفرعونية"; "الآثار"; "توت عنخ آمون"; "رمسيس";
            "الجيزة"; "الأهرامات"; "الملكة حتشبسوت"; "التمثال"; "قاعة";
            "معرض"]%string.

Definition detail_keywords : list str :=
  Eval vm_compute in
    map py ["شرح"; "تفصيل"; "تفصيلي"; "معلومات أكتر"; "قل لي المزيد";
            "وضح أكتر"; "مزيد من التفاصيل"; "expand"; "tell me more";
            "عاوز أعرف أكتر"]%string.

Definition NO_ANSWER_SENTINELS : list str :=
  Eval vm_compute in [py "i do not understand..."; MSG_NOT_FOUND].

Definition AR : str := Eval vm_compute in py "ar".
Definition AUTO : str := Eval vm_compute in py "auto".

Definition cutoff : Q := (6 # 10)%Q.

(** ** The functions of [app.py] *)

Section Functions.

Variable rt : Runtime.

Definition lower : str -> str := str_lower rt.

(** [is_valid_question]: [len(question) > 2 and not question.isdigit()]. *)
Definition is_valid_question (question : str) : bool :=
  (2 <? len question) && negb (str_isdigit rt question).

(** [save_question]: the entry is set in [questions_data], then the whole
    dictionary is written to [questions.json]; the write may raise. *)
Definition save_question (question answer : str) : M unit :=
  if is_valid_question question && negb (mem answer NON_ANSWERS) then
    g <- get_globals ;;
    let data := dict_set question answer (questions_data g) in
    set_questions_data data ;;;
    external (DumpQuestions data) (json_dump rt data)
  else ret tt.

(** [fuzzy_match_question]: only [question] is lower-cased, the keys of
    [data] are compared as stored. *)
Definition fuzzy_match_question (question : str) (data : dict)
  : M (option str) :=
  let all_keys := dict_keys data in
  let matches := get_close_matches (lower question) all_keys 1 cutoff in
  match matches with
  | key :: _ =>
      match dict_get key data with
      | Some answer => ret (Some answer)
      | None => raise KeyError
      end
  | [] => ret None
  end.

Definition search_local_questions (query : str) : M (option str) :=
  g <- get_globals ;; fuzzy_match_question query (questions_data g).

(** [search_intents]: the loop over [intents_data.get("intents", [])];
    the first intent with a close pattern answers, and
    [intent.get("responses", [])[0]] raises [IndexError] on an empty or
    missing list. *)
Fixpoint search_intents_in (question : str) (intents : list Intent)
  : Outcome (option str * option str) :=
  match intents with
  | [] => Return (None, None)
  | intent :: rest =>
      match get_close_matches question (get_list (patterns intent)) 1 cutoff
      with
      | _ :: _ =>
          match get_list (responses intent) with
          | first :: _ => Return (Some first, tag intent)
          | [] => Raise IndexError
          end
      | [] => search_intents_in question rest
      end
  end.

Definition search_intents (question : str)
  : M (option str * option str) :=
  fun g => (search_intents_in question (intents_data g), g).

(** [search_wikipedia]: only [PageError] and [DisambiguationError] are
    caught. *)
Definition search_wikipedia (query : str) : M (option str) :=
  try_except
    (summary <- external (WikipediaSummary query) (wikipedia_summary rt query) ;;
     ret (if contains (lower summary) (lower query)
          then Some summary else None))
    except_wikipedia
    (ret None).

(** [search_gemini]: [response.text if response.text and query.lower() in
    response.text.lower() else None], any exception gives [None]. *)
Definition search_gemini (query : str) : M (option str) :=
  try_except
    (text <- external (GeminiGenerate (GEMINI_PROMPT ++ query))
               (gemini_text rt (GEMINI_PROMPT ++ query)) ;;
     ret (if truthy text && contains (lower text) (lower query)
          then Some text else None))
    except_Exception
    (ret None).

(** [search_duckduckgo]: [results[0]['body'] if results else None], any
    exception (a missing ['body'] included) gives [None]. *)
Definition search_duckduckgo (query : str) : M (option str) :=
  try_except
    (results <- external (DuckDuckGoText query) (ddgs_text rt query) ;;
     match results with
     | Some body :: _ => ret (Some body)
     | None :: _ => raise KeyError
     | [] => ret None
     end)
    except_Exception
    (ret None).

(** [is_question_about_museum] *)
Definition is_question_about_museum (question : str) : bool :=
  existsb (fun word => contains (lower question) word) keywords.

(** ** [get_bot_response], block by block *)

(** The JSON body of the request, as far as the handler looks at it:
    [get_json(force=True)] fails on [NotJson]; [data.get] fails on a JSON
    value that is not an object; [.strip()] fails on a ["message"] that is
    not a string. *)
Inductive JsonValue : Type :=
| JString (s : str)
| JOther.

Inductive Body : Type :=
| NotJson
| NotObject
| Object (message : option JsonValue).

(** [jsonify({"response": ...}), status] *)
Record Response : Type := {
  response : str;
  status : nat
}.

(** Lines 117-118: [data.get("message", "").strip()]. *)
Definition read_message (body : Body) : M str :=
  match body with
  | NotJson => raise BadRequest
  | NotObject => raise AttributeError
  | Object None => ret (strip [])
  | Object (Some (JString s)) => ret (strip s)
  | Object (Some JOther) => raise AttributeError
  end.

(** Lines 123-124: the detected language and the message in Arabic. *)
Definition normalize (user_message : str) : M (str * str) :=
  detected_lang <- external (Detect user_message)
                     (langdetect_detect rt user_message) ;;
  translated_message <-
    (if negb (PyStr.eqb detected_lang AR)
     then external (Translate AUTO AR user_message)
            (translator_translate rt AUTO AR user_message)
     else ret user_message) ;;
  ret (detected_lang, translated_message).

(** Lines 130-131: [response or search_local_questions(...)]. *)
Definition local_answer (translated_message : str) : M (option str) :=
  found <- search_intents translated_message ;;
  py_or (ret (fst found)) (search_local_questions translated_message).

(** Lines 136-138: the loop assigns at every intent with the tag, so the
    last one stands. *)
Definition detailed_for (last_tag : str) (intents : list Intent)
    (bot_response : option str) : option str :=
  fold_left
    (fun answer intent =>
       match tag intent, detailed_response intent with
       | Some t, Some detail =>
           if PyStr.eqb t last_tag then Some detail else answer
       | _, _ => answer
       end)
    intents bot_response.

(** Lines 134-138. *)
Definition elaborate (translated_message : str) (bot_response : option str)
  : M (option str) :=
  g <- get_globals ;;
  if existsb (fun word => contains (lower translated_message) word)
       detail_keywords
     && truthy_opt (last_user_tag g)
  then
    match last_user_tag g with
    | Some last_tag =>
        ret (detailed_for last_tag (intents_data g) bot_response)
    | None => ret bot_response
    end
  else ret bot_response.

(** Line 140: [not bot_response or bot_response.lower() in [...]]. *)
Definition no_answer (bot_response : option str) : bool :=
  match bot_response with
  | Some answer =>
      negb (truthy answer) || mem (lower answer) NO_ANSWER_SENTINELS
  | None => true
  end.

(** Line 142: the chain of [or]. *)
Definition fallback_cascade (translated_message : str) : M str :=
  py_or_str (search_wikipedia translated_message)
    (py_or_str (search_gemini translated_message)
       (py_or_str (search_duckduckgo translated_message)
          (ret MSG_NOT_FOUND))).

(** Lines 141-144: the domain gate, then the cascade or the refusal. *)
Definition outside_answer (translated_message : str) : M str :=
  if is_question_about_museum translated_message
  then fallback_cascade translated_message
  else ret MSG_OUT_OF_SCOPE.

(** Lines 141-146: whatever came out is handed to [save_question]. *)
Definition look_outside (translated_message : str) : M str :=
  found <- outside_answer translated_message ;;
  save_question translated_message found ;;;
  ret found.

(** Lines 140-146. *)
Definition resolve (translated_message : str) (bot_response : option str)
  : M str :=
  match bot_response with
  | Some answer =>
      if no_answer bot_response then look_outside translated_message
      else ret answer
  | None => look_outside translated_message
  end.

(** Line 148. *)
Definition denormalize (detected_lang bot_response : str) : M str :=
  if PyStr.eqb detected_lang AR then ret bot_response
  else external (Translate AR detected_lang bot_response)
         (translator_translate rt AR detected_lang bot_response).

(** Lines 130-138: the answer found locally, after the elaboration
    override. *)
Definition working_answer (translated_message : str) : M (option str) :=
  bot_response <- local_answer translated_message ;;
  elaborate translated_message bot_response.

(** Lines 130-149. *)
Definition answer (detected_lang translated_message : str) : M Response :=
  bot_response <- working_answer translated_message ;;
  bot_response <- resolve translated_message bot_response ;;
  final_response <- denormalize detected_lang bot_response ;;
  ret {| response := final_response; status := 200 |}.

(** The body of the [try] (lines 117-149). *)
Definition handle (body : Body) : M Response :=
  user_message <- read_message body ;;
  if negb (truthy user_message)
  then ret {| response := MSG_EMPTY; status := 400 |}
  else
    langs <- normalize user_message ;;
    if negb (is_valid_question (snd langs))
    then ret {| response := MSG_UNCLEAR; status := 200 |}
    else answer (fst langs) (snd langs).

(** [get_bot_response]: any exception becomes the generic 500 answer. *)
Definition get_bot_response (body : Body) : M Response :=
  try_except (handle body) except_Exception
    (ret {| response := MSG_SERVER_ERROR; status := 500 |}).

End Functions.

End App.

(* ===================================================================== *)
(** * A runtime to run the pipeline on *)
(* ===================================================================== *)

(** Concrete runs need concrete collaborators.  [Sample.runtime] lower-cases
    Basic Latin letters (Arabic script has no case), takes ASCII and
    Arabic-Indic digits for digits, detects ["en"] for pure ASCII text and
    ["ar"] otherwise, translates one phrase and leaves any other text as
    it is, and has no provider that answers; the variants below switch single collaborators. *)
Module Sample.

Import App.

Definition lower_cp (c : N) : N :=
  if ((65 <=? c) && (c <=? 90))%N then (c + 32)%N else c.

Definition basic_lower (s : str) : str := map lower_cp s.

Definition basic_isdigit (s : str) : bool :=
  truthy s &&
  forallb (fun c => ((48 <=? c) && (c <=? 57) ||
                     (1632 <=? c) && (c <=? 1641))%N) s.

Definition EN : str := Eval vm_compute in py "en".

Definition guess_language (text : str) : Outcome str :=
  Return (if forallb (fun c => (c <? 128)%N) text then EN else AR).

Definition Q_WEATHER_EN : str := Eval vm_compute in py "what is the weather".
Definition Q_WEATHER : str := Eval vm_compute in py "ما هو الطقس اليوم".
Definition Q_HALL : str := Eval vm_compute in py "قاعة".
Definition Q_MUSEUM : str := Eval vm_compute in py "المتحف".
Definition A_MUSEUM : str :=
  Eval vm_compute in py "المتحف المصري يقع في ميدان التحرير".
Definition A_SNIPPET : str := Eval vm_compute in py "Egyptian Museum - Cairo".
Definition HELLO : str := Eval vm_compute in py "hello".
Definition HELLO_UPPER : str := Eval vm_compute in py "HELLO".
Definition HELLO_WORLD : str := Eval vm_compute in py "hello world".
Definition HELLO_WORLD_UPPER : str := Eval vm_compute in py "HELLO WORLD".
Definition FORTY_TWO : str := Eval vm_compute in py "42".
Definition HI : str := Eval vm_compute in py "hi there".
Definition GREETING : str := Eval vm_compute in py "greeting".
Definition TUT : str := Eval vm_compute in py "tut".
Definition TELL_ME_MORE : str := Eval vm_compute in py "tell me more".
Definition DETAIL_A : str := Eval vm_compute in py "details, first entry".

Definition phrase_book (source target text : str) : Outcome str :=
  if PyStr.eqb target AR && PyStr.eqb text Q_WEATHER_EN then Return Q_WEATHER
  else Return text.

Definition runtime : Runtime :=
  {| str_lower := basic_lower;
     str_isdigit := basic_isdigit;
     langdetect_detect := guess_language;
     translator_translate := phrase_book;
     wikipedia_summary := fun _ => Raise PageError;
     gemini_text := fun _ => Raise ServiceError;
     ddgs_text := fun _ => Return [];
     json_dump := fun _ => Return tt |}.

(** The generative model answers every prompt with [text]. *)
Definition with_gemini (text : str) (rt : Runtime) : Runtime :=
  {| str_lower := str_lower rt;
     str_isdigit := str_isdigit rt;
     langdetect_detect := langdetect_detect rt;
     translator_translate := translator_translate rt;
     wikipedia_summary := wikipedia_summary rt;
     gemini_text := fun _ => Return text;
     ddgs_text := ddgs_text rt;
     json_dump := json_dump rt |}.

(** The web search returns one result with the given body. *)
Definition with_duckduckgo (body : str) (rt : Runtime) : Runtime :=
  {| str_lower := str_lower rt;
     str_isdigit := str_isdigit rt;
     langdetect_detect := langdetect_detect rt;
     translator_translate := translator_translate rt;
     wikipedia_summary := wikipedia_summary rt;
     gemini_text := gemini_text rt;
     ddgs_text := fun _ => Return [Some body];
     json_dump := json_dump rt |}.

(** [questions.json] cannot be written. *)
Definition read_only (rt : Runtime) : Runtime :=
  {| str_lower := str_lower rt;
     str_isdigit := str_isdigit rt;
     langdetect_detect := langdetect_detect rt;
     translator_translate := translator_translate rt;
     wikipedia_summary := wikipedia_summary rt;
     gemini_text := gemini_text rt;
     ddgs_text := ddgs_text rt;
     json_dump := fun _ => Raise OSError |}.

(** The globals after start-up with the given files. *)
Definition started (questions : dict) (intents : list Intent) : Globals :=
  {| questions_data := questions;
     intents_data := intents;
     last_user_tag := None;
     calls := [] |}.

Definition ask (message : str) : Body := Object (Some (JString message)).

Definition greeting_intent : Intent :=
  {| tag := Some GREETING;
     patterns := Some [HELLO];
     responses := Some [HI];
     detailed_response := None |}.

(** An intent whose pattern is [HELLO] and whose ["responses"] is empty. *)
Definition silent_intent : Intent :=
  {| tag := Some (py "silent");
     patterns := Some [HELLO];
     responses := Some [];
     detailed_response := None |}.

(** An intent with the tag [TUT] and a detailed response. *)
Definition tut_intent (detail : str) : Intent :=
  {| tag := Some TUT;
     patterns := Some [py "tutankhamun"];
     responses := Some [py "the boy king"];
     detailed_response := Some detail |}.

End Sample.

(* ===================================================================== *)
(** * Vocabulary of the statements *)
(* ===================================================================== *)

Module Spec.

Import Difflib App.

(** A block that lies in the window [alo..ahi] of [a]. *)
Definition inside (alo ahi : nat) (m : Match) : Prop :=
  let '(i, _, k) := m in alo <= i /\ i + k <= ahi.

(** The work left in the queue of [get_matching_blocks]. *)
Fixpoint work (queue : list (nat * nat * nat * nat)) : nat :=
  match queue with
  | [] => 0
  | (alo, ahi, _, _) :: queue' => 2 * (ahi - alo) + 1 + work queue'
  end.

(** Some pattern of [intent] is close to [question]: what [search_intents]
    tests with [if match:]. *)
Definition matches (question : str) (intent : Intent) : bool :=
  match get_close_matches question (get_list (patterns intent)) 1 cutoff with
  | [] => false
  | _ :: _ => true
  end.

(** [intent] carries [last_tag] and a ["detailed_response"]: the test of
    line 137. *)
Definition overrides (last_tag : str) (intent : Intent) : bool :=
  match tag intent, detailed_response intent with
  | Some t, Some _ => PyStr.eqb t last_tag
  | _, _ => false
  end.

(** The globals after one more recorded call. *)
Definition logged (c : Call) (g : Globals) : Globals :=
  {| questions_data := questions_data g;
     intents_data := intents_data g;
     last_user_tag := last_user_tag g;
     calls := calls g ++ [c] |}.

(** The globals after [questions_data[question] = answer]. *)
Definition learned (question answer : str) (g : Globals) : Globals :=
  {| questions_data := dict_set question answer (questions_data g);
     intents_data := intents_data g;
     last_user_tag := last_user_tag g;
     calls := calls g |}.

(** The encyclopedia gives nothing that is accepted: an irrelevant summary,
    or one of the two exceptions [search_wikipedia] catches. *)
Definition wikipedia_declines (rt : Runtime) (query : str) : bool :=
  match wikipedia_summary rt query with
  | Return summary =>
      negb (contains (str_lower rt summary) (str_lower rt query))
  | Raise e => except_wikipedia e
  end.

(** A computation that leaves the intents and the last tag as they are. *)
Definition keeps (A : Type) (m : M A) : Prop :=
  forall g,
    intents_data (snd (m g)) = intents_data g /\
    last_user_tag (snd (m g)) = last_user_tag g.

(** A computation that leaves all the globals as they are and returns. *)
Definition pure (A : Type) (m : M A) : Prop :=
  forall g, exists a, m g = (Return a, g).

End Spec.

(* ===================================================================== *)
(** * Start-up and the sequence of requests *)
(* ===================================================================== *)

(** Lines 14-38 and 55-56 of [app.py] run once, when the module is
    imported: the API key is read from the environment, the two JSON files
    are loaded, and [last_user_tag] is set to [None]. *)
Module Startup.

Import App.

(** What [open] followed by [json.load] gives for a file: the two
    exceptions the [try] blocks catch, any other exception, or the
    content. *)
Inductive FileRead (A : Type) : Type :=
| FileNotFoundError
| JSONDecodeError
| OtherError
| Loaded (content : A).

Arguments FileNotFoundError {A}.
Arguments JSONDecodeError {A}.
Arguments OtherError {A}.
Arguments Loaded {A} content.

(** The environment variable and the two files.  A file that is read is
    taken to hold what the handler expects: for [questions.json] an object
    from strings to strings; for [intents.json] an object, of which the
    handler only ever reads the ["intents"] entry, which may be absent.
    [OtherError] stands for what the two [except] clauses do not name
    ([PermissionError], [UnicodeDecodeError], ...). *)
Record Environment : Type := {
  GEMINI_API_KEY : option str;
  QUESTIONS_FILE : FileRead dict;
  INTENTS_FILE : FileRead (option (list Intent))
}.

(** [try: ... json.load(f) except (FileNotFoundError, json.JSONDecodeError):
    default]; [None] when another exception ends the import. *)
Definition load_or (A : Type) (file : FileRead A) (default : A) : option A :=
  match file with
  | Loaded content => Some content
  | FileNotFoundError | JSONDecodeError => Some default
  | OtherError => None
  end.

(** [intents_data.get("intents", [])] *)
Definition intents_of (intents_data : option (list Intent)) : list Intent :=
  match intents_data with
  | Some intents => intents
  | None => []
  end.

(** The globals once lines 16-38 and 56 have run; [None] when one of them
    raises ([ValueError] for a missing or empty key, or an uncaught
    exception of a file read).  The other statements of the import (the
    imports of lines 1-12, [load_dotenv], [genai.configure], [Flask]) are
    outside this model: they assign none of the globals, and a start-up
    they end serves no request. *)
Definition import_app (env : Environment) : option Globals :=
  if truthy_opt (GEMINI_API_KEY env) then
    match load_or (QUESTIONS_FILE env) [] with
    | Some questions =>
        match load_or (INTENTS_FILE env) (Some []) with
        | Some intents =>
            Some {| questions_data := questions;
                    intents_data := intents_of intents;
                    last_user_tag := None;
                    calls := [] |}
        | None => None
        end
    | None => None
    end
  else None.

(** Requests handled one after the other, each with what the collaborators
    do while it is handled; the globals are handed from one request to the
    next. *)
Fixpoint serve (requests : list (Runtime * Body)) (g : Globals)
  : list (Outcome Response) * Globals :=
  match requests with
  | [] => ([], g)
  | (rt, body) :: rest =>
      let '(answer, g1) := get_bot_response rt body g in
      let '(answers, g2) := serve rest g1 in
      (answer :: answers, g2)
  end.

End Startup.

(* ===================================================================== *)
(** * More vocabulary *)
(* ===================================================================== *)

Module Terms.

Import Difflib App.

(** ** The scan of a string against itself *)

(** The length written at position [j] of a row, from the row before. *)
Definition cell (j2len : list (nat * nat)) (j : nat) : nat :=
  match j with
  | O => 0
  | S j1 => j2len_get j2len j1
  end + 1.

(** After [rows] rows of the scan of a string against itself, every length
    is at most [rows] and at most the position plus one, and the diagonal
    holds [rows]. *)
Definition diagonal (rows : nat) (j2len : list (nat * nat)) : Prop :=
  (forall j, j2len_get j2len j <= rows /\ j2len_get j2len j <= j + 1) /\
  (1 <= rows -> j2len_get j2len (rows - 1) = rows).

(** [avail] holds, for every element met so far, what is left of it. *)
Definition tracks (b pre : str) (avail : list (N * Z)) : Prop :=
  forall elt,
    match avail_get avail elt with
    | Some numb =>
        numb = (Z.of_nat (count_in elt b) - Z.of_nat (count_in elt pre))%Z
    | None => count_in elt pre = 0
    end.

(** ** Matching blocks *)

Section Blocks.

Variables a b : str.

(** [a[i:i+k] == b[j:j+k]] *)
Definition agree (i j k : nat) : Prop :=
  forall t, t < k -> item a (i + t) = item b (j + t).

(** A block that lies in the window and is a match. *)
Definition good (alo ahi blo bhi : nat) (m : Match) : Prop :=
  let '(i, j, k) := m in
  alo <= i /\ i + k <= ahi /\ blo <= j /\ j + k <= bhi /\ agree i j k.

(** An entry [(j, k)] of [j2len] when row [i] is about to be scanned: a
    match of length [k] in the window that ends with [a[i-1]] and
    [b[j]]. *)
Definition ended (alo blo bhi i : nat) (entry : nat * nat) : Prop :=
  let '(j, k) := entry in
  1 <= k /\ k <= i - alo /\ k <= j + 1 - blo /\ j < bhi /\
  agree (i - k) (j + 1 - k) k.

Definition window_ok (w : nat * nat * nat * nat) : Prop :=
  let '(alo, ahi, blo, bhi) := w in alo <= ahi /\ blo <= bhi.

(** The two sides of the window have the same length and are equal. *)
Definition full (w : nat * nat * nat * nat) : Prop :=
  let '(alo, ahi, blo, bhi) := w in
  ahi - alo = bhi - blo /\ agree alo blo (ahi - alo).

End Blocks.

(** What is left of [a], of [b], and the most that can still match, in
    the windows of a queue. *)
Fixpoint width_a (queue : list (nat * nat * nat * nat)) : nat :=
  match queue with
  | [] => 0
  | (alo, ahi, _, _) :: queue' => (ahi - alo) + width_a queue'
  end.

Fixpoint width_b (queue : list (nat * nat * nat * nat)) : nat :=
  match queue with
  | [] => 0
  | (_, _, blo, bhi) :: queue' => (bhi - blo) + width_b queue'
  end.

Fixpoint capacity (queue : list (nat * nat * nat * nat)) : nat :=
  match queue with
  | [] => 0
  | (alo, ahi, blo, bhi) :: queue' =>
      Nat.min (ahi - alo) (bhi - blo) + capacity queue'
  end.

(** The sum of the sizes of a list of blocks. *)
Definition size (blocks : list Match) : nat := list_sum (map snd blocks).

(** A list of scored strings in decreasing order of score. *)
Definition by_score (l : list (Q * str)) : Prop :=
  StronglySorted (fun p q => (fst q <= fst p)%Q) l.

(** ** Kinds of calls *)

Definition is_provider (c : Call) : bool :=
  match c with
  | WikipediaSummary _ | GeminiGenerate _ | DuckDuckGoText _ => true
  | _ => false
  end.

Definition is_translation (c : Call) : bool :=
  match c with
  | Translate _ _ _ => true
  | _ => false
  end.

Definition is_write (c : Call) : bool :=
  match c with
  | DumpQuestions _ => true
  | _ => false
  end.

(** No call of kind [kind] was made between [g] and [g']. *)
Definition no_new (kind : Call -> bool) (g g' : Globals) : Prop :=
  forall c, kind c = true -> In c (calls g') -> In c (calls g).

(** Between [g] and [g'] the store is the same, and the calls made are
    not writes of [questions.json]. *)
Definition untouched (g g' : Globals) : Prop :=
  questions_data g' = questions_data g /\
  exists cs,
    calls g' = calls g ++ cs /\
    forallb (fun c => negb (is_write c)) cs = true.

(** Between [g] and [g'] the entry [question] is set to [answer], and
    there is one write of [questions.json], with the store as it is in
    [g']. *)
Definition stored_one (question answer : str) (g g' : Globals) : Prop :=
  questions_data g' = dict_set question answer (questions_data g) /\
  exists before after,
    calls g' = calls g ++ before ++ DumpQuestions (questions_data g') :: after /\
    forallb (fun c => negb (is_write c)) before = true /\
    forallb (fun c => negb (is_write c)) after = true.

(** What one request does to the store. *)
Definition store_step (rt : Runtime) (g g' : Globals) : Prop :=
  untouched g g' \/
  exists question answer,
    is_valid_question rt question = true /\
    mem answer NON_ANSWERS = false /\
    stored_one question answer g g'.

(** ** Request bodies *)

(** The message is missing, empty or blank. *)
Definition blank (body : Body) : bool :=
  match body with
  | Object None => true
  | Object (Some (JString s)) => negb (truthy (strip s))
  | _ => false
  end.

(** The body is not a JSON object, or its message is not a string. *)
Definition malformed (body : Body) : bool :=
  match body with
  | NotJson | NotObject | Object (Some JOther) => true
  | _ => false
  end.

(** A computation whose final globals are always related to the initial
    ones by [R]. *)
Definition respects (R : Globals -> Globals -> Prop) (A : Type) (m : M A)
  : Prop :=
  forall g, R g (snd (m g)).

(** The step [R] allows for the call [c]. *)
Definition allows (R : Globals -> Globals -> Prop) (c : Call) : Prop :=
  forall g, R g (Spec.logged c g).

(** ** Providers that give nothing *)

(** The generative model gives nothing that is accepted: an exception, an
    empty text, or a text without the query. *)
Definition gemini_declines (rt : Runtime) (query : str) : bool :=
  match gemini_text rt (GEMINI_PROMPT ++ query) with
  | Return text =>
      negb (truthy text &&
            contains (str_lower rt text) (str_lower rt query))
  | Raise _ => true
  end.

(** The web search gives nothing: an exception, no result, a first result
    without ["body"], or an empty body. *)
Definition duckduckgo_declines (rt : Runtime) (query : str) : bool :=
  match ddgs_text rt query with
  | Return (Some body :: _) => negb (truthy body)
  | Return (None :: _) => true
  | Return [] => true
  | Raise _ => true
  end.

(** The three calls of a cascade that runs to its end. *)
Definition cascade_calls (query : str) : list Call :=
  [WikipediaSummary query; GeminiGenerate (GEMINI_PROMPT ++ query);
   DuckDuckGoText query].

(** The globals after the calls [cs], in this order. *)
Definition logged_all (cs : list Call) (g : Globals) : Globals :=
  fold_left (fun g c => Spec.logged c g) cs g.

End Terms.

(* ===================================================================== *)
(** * More cases *)
(* ===================================================================== *)

Module Cases.

Import App Startup Sample.

(** The encyclopedia gives [outcome] for every query. *)
Definition with_wikipedia (outcome : Outcome str) (rt : Runtime) : Runtime :=
  {| str_lower := str_lower rt;
     str_isdigit := str_isdigit rt;
     langdetect_detect := langdetect_detect rt;
     translator_translate := translator_translate rt;
     wikipedia_summary := fun _ => outcome;
     gemini_text := gemini_text rt;
     ddgs_text := ddgs_text rt;
     json_dump := json_dump rt |}.

(** The key is set, [questions.json] is missing and [intents.json] is not
    valid JSON. *)
Definition fresh : Environment :=
  {| GEMINI_API_KEY := Some (py "key");
     QUESTIONS_FILE := FileNotFoundError;
     INTENTS_FILE := JSONDecodeError |}.

(** The key is set and both files are read. *)
Definition configured (questions : dict) (intents : list Intent)
  : Environment :=
  {| GEMINI_API_KEY := Some (py "key");
     QUESTIONS_FILE := Loaded questions;
     INTENTS_FILE := Loaded (Some intents) |}.

Definition TUTANKHAMUN : str := Eval vm_compute in py "tutankhamun".
Definition BOY_KING : str := Eval vm_compute in py "the boy king".

End Cases.

(* ===================================================================== *)
(** * Facts about strings *)
(* ===================================================================== *)

Module PyStrFacts.

Lemma eqb_refl (s : str) : eqb s s = true.
Proof.
  induction s as [|c s IH]; simpl; [reflexivity|].
  now rewrite N.eqb_refl, IH.
Qed.

Lemma eqb_eq (s t : str) : eqb s t = true <-> s = t.
Proof.
  split.
  - revert t; induction s as [|c s IH]; intros [|d t]; simpl;
      try discriminate; [reflexivity|].
    intros H; apply andb_true_iff in H as [Hc Hs].
    apply N.eqb_eq in Hc; apply IH in Hs; now subst.
  - intros ->; apply eqb_refl.
Qed.

Lemma eqb_neq (s t : str) : eqb s t = false <-> s <> t.
Proof.
  rewrite <- eqb_eq; destruct (eqb s t); split; congruence.
Qed.

Lemma mem_In (x : str) (xs : list str) : mem x xs = true <-> In x xs.
Proof.
  unfold mem; rewrite existsb_exists; split.
  - intros [y [Hy E]]; apply eqb_eq in E; now subst.
  - intros H; exists x; split; [assumption | apply eqb_refl].
Qed.

Lemma truthy_len (s : str) : truthy s = true <-> 0 < len s.
Proof.
  destruct s; simpl; split; intros; try discriminate; try lia; reflexivity.
Qed.

Lemma contains_nil (hay : str) : contains hay [] = true.
Proof. destruct hay; reflexivity. Qed.

End PyStrFacts.

(* ===================================================================== *)
(** * Facts about difflib *)
(* ===================================================================== *)

Module DifflibFacts.

Import Difflib Spec.

Section Blocks.

Variables a b : str.

Lemma j2len_get_bound (j2len : list (nat * nat)) (bound j : nat) :
  Forall (fun entry => snd entry <= bound) j2len ->
  j2len_get j2len j <= bound.
Proof.
  intros H; unfold j2len_get.
  destruct (find (fun entry => fst entry =? j) j2len) as [[j' k]|] eqn:E;
    [|lia].
  apply find_some in E as [Hin _].
  rewrite Forall_forall in H; exact (H _ Hin).
Qed.

Lemma scan_row_inside (alo ahi i blo bhi : nat) (j2len : list (nat * nat))
    (js : list nat) :
  alo <= i -> i < ahi ->
  Forall (fun entry => snd entry <= i - alo) j2len ->
  forall newj2len best,
    Forall (fun entry => snd entry <= i - alo + 1) newj2len ->
    inside alo ahi best ->
    Forall (fun entry => snd entry <= i - alo + 1)
      (fst (scan_row i blo bhi j2len js newj2len best)) /\
    inside alo ahi (snd (scan_row i blo bhi j2len js newj2len best)).
Proof.
  intros Hlo Hhi Hold.
  induction js as [|j js IH]; intros newj2len best Hnew Hbest; simpl.
  - split; assumption.
  - destruct (j <? blo); [apply IH; assumption|].
    destruct (bhi <=? j); [split; assumption|].
    destruct best as [[bi bj] bs].
    set (k := match j with O => 0 | S j1 => j2len_get j2len j1 end + 1).
    assert (Hk : k <= i - alo + 1).
    { subst k; destruct j as [|j1]; [lia|].
      pose proof (j2len_get_bound j1 Hold); lia. }
    apply IH.
    + constructor; [exact Hk | exact Hnew].
    + destruct (bs <? k); [simpl; lia | exact Hbest].
Qed.

Lemma scan_rows_inside (alo ahi blo bhi : nat) (n : nat) :
  forall (r : nat) (j2len : list (nat * nat)) (best : Match),
    alo <= r -> r + n <= ahi ->
    Forall (fun entry => snd entry <= r - alo) j2len ->
    inside alo ahi best ->
    inside alo ahi (scan_rows a b (seq r n) blo bhi j2len best).
Proof.
  induction n as [|n IH]; intros r j2len best Hr Hn Hold Hbest; simpl.
  - exact Hbest.
  - destruct (scan_row r blo bhi j2len (b2j_get b (item a r)) [] best)
      as [newj2len best'] eqn:E.
    destruct (@scan_row_inside alo ahi r blo bhi j2len
                (b2j_get b (item a r)) Hr ltac:(lia) Hold [] best
                (Forall_nil _) Hbest) as [Hnew Hbest'].
    rewrite E in Hnew, Hbest'; simpl in Hnew, Hbest'.
    apply IH; try lia; [|exact Hbest'].
    replace (S r - alo) with (r - alo + 1) by lia; exact Hnew.
Qed.

Lemma extend_left_inside (alo ahi blo : nat) :
  forall besti bestj bestsize,
    inside alo ahi (besti, bestj, bestsize) ->
    inside alo ahi (extend_left a b alo blo besti bestj bestsize).
Proof.
  induction besti as [|i1 IH]; intros bestj bestsize H; simpl; [exact H|].
  destruct bestj as [|j1]; [exact H|].
  destruct ((alo <? S i1) && (blo <? S j1) && (item a i1 =? item b j1)%N)
    eqn:E; [|exact H].
  apply IH.
  apply andb_true_iff in E as [E _]; apply andb_true_iff in E as [E _].
  apply Nat.ltb_lt in E; simpl in *; lia.
Qed.

Lemma extend_right_bound (ahi bhi besti bestj : nat) :
  forall steps bestsize,
    besti + bestsize <= ahi ->
    besti + extend_right a b steps ahi bhi besti bestj bestsize <= ahi.
Proof.
  induction steps as [|steps IH]; intros bestsize H; simpl; [exact H|].
  destruct ((besti + bestsize <? ahi) && (bestj + bestsize <? bhi) &&
            (item a (besti + bestsize) =? item b (bestj + bestsize))%N)
    eqn:E; [|exact H].
  apply IH.
  apply andb_true_iff in E as [E _]; apply andb_true_iff in E as [E _].
  apply Nat.ltb_lt in E; lia.
Qed.

(** A block found by [find_longest_match] lies in the window it was asked
    for. *)
Lemma find_longest_match_inside (alo ahi blo bhi i j k : nat) :
  find_longest_match a b alo ahi blo bhi = (i, j, k) ->
  k <> 0 -> alo <= i /\ i + k <= ahi.
Proof.
  unfold find_longest_match; intros E Hk.
  destruct (Nat.le_gt_cases alo ahi) as [Hle|Hgt].
  - pose proof (@scan_rows_inside alo ahi blo bhi (ahi - alo) alo []
                  (alo, blo, 0) (le_n _) ltac:(lia) (Forall_nil _)
                  ltac:(simpl; lia)) as H1.
    destruct (scan_rows a b (seq alo (ahi - alo)) blo bhi [] (alo, blo, 0))
      as [[bi bj] bs].
    pose proof (@extend_left_inside alo ahi blo bi bj bs H1) as H2.
    destruct (extend_left a b alo blo bi bj bs) as [[bi' bj'] bs'].
    injection E as <- <- <-.
    simpl in H2; destruct H2 as [H2 H3].
    split; [exact H2|].
    apply extend_right_bound; exact H3.
  - exfalso; apply Hk.
    replace (ahi - alo) with 0 in E by lia; simpl in E.
    assert (El : extend_left a b alo blo alo blo 0 = (alo, blo, 0)).
    { destruct alo as [|a1]; [reflexivity|]; simpl.
      destruct blo as [|b1]; [reflexivity|].
      rewrite Nat.ltb_irrefl; reflexivity. }
    rewrite El in E.
    replace (ahi - (alo + 0)) with 0 in E by lia; simpl in E.
    injection E as _ _ <-; reflexivity.
Qed.

Lemma matching_blocks_loop_total (fuel : nat) :
  forall queue matching_blocks,
    work queue <= fuel ->
    exists blocks,
      matching_blocks_loop a b fuel queue matching_blocks = Some blocks.
Proof.
  induction fuel as [|fuel IH]; intros queue acc Hw.
  - destruct queue as [|[[[alo ahi] blo] bhi] queue']; simpl in *;
      [eexists; reflexivity | lia].
  - destruct queue as [|[[[alo ahi] blo] bhi] queue']; simpl in *;
      [eexists; reflexivity|].
    destruct (find_longest_match a b alo ahi blo bhi) as [[i j] k] eqn:E.
    destruct (k =? 0) eqn:Ek.
    + apply IH; lia.
    + apply Nat.eqb_neq in Ek.
      destruct (find_longest_match_inside _ _ _ _ E Ek) as [Hi Hk].
      apply IH.
      destruct ((alo <? i) && (blo <? j));
        destruct ((i + k <? ahi) && (j + k <? bhi)); simpl; lia.
Qed.

(** [get_matching_blocks] never runs out of iterations. *)
Lemma get_matching_blocks_total :
  exists blocks,
    matching_blocks_loop a b (2 * len a + 1) [(0, len a, 0, len b)] []
      = Some blocks.
Proof.
  apply matching_blocks_loop_total; simpl; lia.
Qed.

End Blocks.

(** ** [get_close_matches] returns close possibilities, and some when
    there are any *)

Lemma insert_scored_In (x y : Q * str) (sorted : list (Q * str)) :
  In y (insert_scored x sorted) <-> y = x \/ In y sorted.
Proof.
  induction sorted as [|z rest IH]; simpl.
  - intuition.
  - destruct (scored_ltb z x); simpl; [intuition|].
    rewrite IH; intuition.
Qed.

Lemma sorted_In (y : Q * str) (result : list (Q * str)) :
  forall acc,
    In y (fold_left (fun sorted x => insert_scored x sorted) result acc)
    <-> In y result \/ In y acc.
Proof.
  induction result as [|x rest IH]; intros acc; simpl.
  - intuition.
  - rewrite IH, insert_scored_In; intuition.
Qed.

Lemma In_firstn (A : Type) (x : A) (n : nat) :
  forall l, In x (firstn n l) -> In x l.
Proof.
  induction n as [|n IH]; intros [|y l] H; simpl in *; try contradiction.
  destruct H as [H|H]; [left; exact H | right; apply IH; exact H].
Qed.

Lemma get_close_matches_In (word x : str) (possibilities : list str)
    (n : nat) (c : Q) :
  In x (get_close_matches word possibilities n c) ->
  In x possibilities /\ close_enough c word x = true.
Proof.
  unfold get_close_matches, nlargest; intros H.
  apply in_map_iff in H as [[score y] [E H]]; simpl in E; subst y.
  apply In_firstn in H.
  apply sorted_In in H as [H|[]].
  apply in_flat_map in H as [y [Hy H]].
  destruct (close_enough c word y) eqn:Ec; [|destruct H].
  destruct H as [H|[]]; injection H as _ <-; split; assumption.
Qed.

Lemma get_close_matches_some (word x : str) (possibilities : list str)
    (n : nat) (c : Q) :
  In x possibilities -> close_enough c word x = true ->
  get_close_matches word possibilities (S n) c <> [].
Proof.
  unfold get_close_matches, nlargest; intros Hin Hc.
  set (result := flat_map _ possibilities).
  assert (Hr : In (ratio x word, x) result).
  { apply in_flat_map; exists x; split; [exact Hin|].
    rewrite Hc; left; reflexivity. }
  assert (Hs : In (ratio x word, x)
                 (fold_left (fun sorted y => insert_scored y sorted)
                    result [])).
  { apply sorted_In; left; exact Hr. }
  destruct (fold_left _ result []) as [|top rest]; [destruct Hs|].
  simpl; discriminate.
Qed.

Lemma get_close_matches_nil (word : str) (n : nat) (c : Q) :
  get_close_matches word [] n c = [].
Proof.
  unfold get_close_matches, nlargest; simpl.
  destruct n; reflexivity.
Qed.

End DifflibFacts.

(* ===================================================================== *)
(** * Facts about app.py *)
(* ===================================================================== *)

Module AppFacts.

Import Difflib App Spec PyStrFacts DifflibFacts.

(** ** The monad *)

Lemma bind_Return (A B : Type) (m : M A) (k : A -> M B) (g g' : Globals)
    (a : A) :
  m g = (Return a, g') -> bind m k g = k a g'.
Proof. unfold bind; intros ->; reflexivity. Qed.

Lemma bind_Raise (A B : Type) (m : M A) (k : A -> M B) (g g' : Globals)
    (e : Exception) :
  m g = (Raise e, g') -> bind m k g = (Raise e, g').
Proof. unfold bind; intros ->; reflexivity. Qed.

Lemma try_except_Return (A : Type) (body handler : M A)
    (catches : Exception -> bool) (g g' : Globals) (a : A) :
  body g = (Return a, g') ->
  try_except body catches handler g = (Return a, g').
Proof. unfold try_except; intros ->; reflexivity. Qed.

Lemma try_except_Raise (A : Type) (body handler : M A)
    (catches : Exception -> bool) (g g' : Globals) (e : Exception) :
  body g = (Raise e, g') -> catches e = true ->
  try_except body catches handler g = handler g'.
Proof. unfold try_except; intros -> ->; reflexivity. Qed.

(** ** What a request can change *)

Lemma keeps_ret (A : Type) (a : A) : keeps (ret a).
Proof. intros g; split; reflexivity. Qed.

Lemma keeps_raise (A : Type) (e : Exception) : keeps (@raise A e).
Proof. intros g; split; reflexivity. Qed.

Lemma keeps_bind (A B : Type) (m : M A) (k : A -> M B) :
  keeps m -> (forall a, keeps (k a)) -> keeps (bind m k).
Proof.
  intros Hm Hk g; unfold bind.
  destruct (Hm g) as [H1 H2].
  destruct (m g) as [[a|e] g']; simpl in *.
  - destruct (Hk a g') as [H3 H4]; split; congruence.
  - split; assumption.
Qed.

Lemma keeps_try_except (A : Type) (body handler : M A)
    (catches : Exception -> bool) :
  keeps body -> keeps handler -> keeps (try_except body catches handler).
Proof.
  intros Hb Hh g; unfold try_except.
  destruct (Hb g) as [H1 H2].
  destruct (body g) as [[a|e] g']; simpl in *; [split; assumption|].
  destruct (catches e); [|split; assumption].
  destruct (Hh g') as [H3 H4]; split; congruence.
Qed.

Lemma keeps_external (A : Type) (c : Call) (o : Outcome A) :
  keeps (external c o).
Proof. intros g; split; reflexivity. Qed.

Lemma keeps_get_globals : keeps get_globals.
Proof. intros g; split; reflexivity. Qed.

Lemma keeps_set_questions_data (d : dict) : keeps (set_questions_data d).
Proof. intros g; split; reflexivity. Qed.

Lemma keeps_if (A : Type) (c : bool) (m1 m2 : M A) :
  keeps m1 -> keeps m2 -> keeps (if c then m1 else m2).
Proof. destruct c; auto. Qed.

Create HintDb keeps.

#[local] Hint Resolve keeps_ret keeps_raise keeps_bind keeps_try_except
  keeps_external keeps_get_globals keeps_set_questions_data keeps_if : keeps.

Lemma keeps_py_or (x y : M (option str)) :
  keeps x -> keeps y -> keeps (py_or x y).
Proof.
  intros Hx Hy; unfold py_or; apply keeps_bind; [exact Hx|].
  intros v; destruct (truthy_opt v); auto with keeps.
Qed.

Lemma keeps_py_or_str (x : M (option str)) (y : M str) :
  keeps x -> keeps y -> keeps (py_or_str x y).
Proof.
  intros Hx Hy; unfold py_or_str; apply keeps_bind; [exact Hx|].
  intros [s|]; [destruct (truthy s)|]; auto with keeps.
Qed.

(** The frame property follows the shape of the computation. *)
Ltac keeps_step :=
  match goal with
  | |- forall _, _ => intro
  | |- keeps (bind _ _) => apply keeps_bind
  | |- keeps (try_except _ _ _) => apply keeps_try_except
  | |- keeps (py_or _ _) => apply keeps_py_or
  | |- keeps (py_or_str _ _) => apply keeps_py_or_str
  | |- keeps (match ?x with _ => _ end) => destruct x
  | |- keeps _ => solve [auto with keeps]
  end.

Ltac keeps_tac := repeat keeps_step.

Section Requests.

Variable rt : Runtime.

Lemma keeps_save_question (question answer : str) :
  keeps (save_question rt question answer).
Proof. unfold save_question; keeps_tac. Qed.

Lemma keeps_search_intents (question : str) :
  keeps (search_intents question).
Proof. intros g; split; reflexivity. Qed.

Lemma keeps_fuzzy_match_question (question : str) (data : dict) :
  keeps (fuzzy_match_question rt question data).
Proof. unfold fuzzy_match_question; keeps_tac. Qed.

#[local] Hint Resolve keeps_save_question keeps_search_intents
  keeps_fuzzy_match_question : keeps.

Lemma keeps_fallback_cascade (q : str) : keeps (fallback_cascade rt q).
Proof.
  unfold fallback_cascade, search_wikipedia, search_gemini,
    search_duckduckgo; keeps_tac.
Qed.

#[local] Hint Resolve keeps_fallback_cascade : keeps.

Lemma keeps_answer (lang q : str) : keeps (answer rt lang q).
Proof.
  unfold answer, working_answer, local_answer, search_local_questions,
    elaborate, resolve, look_outside, outside_answer, denormalize;
    keeps_tac.
Qed.

#[local] Hint Resolve keeps_answer : keeps.

Lemma keeps_get_bot_response (body : Body) :
  keeps (get_bot_response rt body).
Proof.
  unfold get_bot_response, handle, read_message, normalize; keeps_tac.
Qed.

(** ** The intent resolver *)

Lemma search_intents_in_first (question : str) (intents : list Intent) :
  search_intents_in question intents =
  match find (matches question) intents with
  | Some intent =>
      match get_list (responses intent) with
      | first :: _ => Return (Some first, tag intent)
      | [] => Raise IndexError
      end
  | None => Return (None, None)
  end.
Proof.
  induction intents as [|intent rest IH]; simpl; [reflexivity|].
  unfold matches at 1.
  destruct (get_close_matches question (get_list (patterns intent)) 1 cutoff);
    [exact IH | reflexivity].
Qed.

(** The resolver matches an intent exactly when one of its patterns passes
    the three ratio tests against the cutoff. *)
Lemma matches_iff (question : str) (intent : Intent) :
  matches question intent = true <->
  exists pattern,
    In pattern (get_list (patterns intent)) /\
    close_enough cutoff question pattern = true.
Proof.
  unfold matches; split.
  - destruct (get_close_matches question (get_list (patterns intent)) 1
                cutoff) as [|pattern rest] eqn:E; [discriminate|].
    intros _; exists pattern.
    apply (@get_close_matches_In question pattern
             (get_list (patterns intent)) 1 cutoff).
    rewrite E; left; reflexivity.
  - intros [pattern [Hin Hclose]].
    pose proof (@get_close_matches_some question pattern
                  (get_list (patterns intent)) 0 cutoff Hin Hclose) as H.
    destruct (get_close_matches question (get_list (patterns intent)) 1
                cutoff); [contradiction H|]; reflexivity.
Qed.

(** On a match the resolver returns the first response and the tag of the
    first intent that matches, and changes nothing. *)
Lemma search_intents_first_match (question first : str) (rest : list str)
    (intent : Intent) (g : Globals) :
  find (matches question) (intents_data g) = Some intent ->
  responses intent = Some (first :: rest) ->
  search_intents question g = (Return (Some first, tag intent), g).
Proof.
  intros Hfind Hresponses; unfold search_intents.
  rewrite search_intents_in_first, Hfind, Hresponses; reflexivity.
Qed.

(** ** The learned questions *)

Lemma dict_get_keys (key : str) (d : dict) :
  In key (dict_keys d) -> exists v, dict_get key d = Some v.
Proof.
  induction d as [|[k v] rest IH]; simpl; [intros []|].
  intros [H|H].
  - subst k; rewrite eqb_refl; eexists; reflexivity.
  - destruct (PyStr.eqb k key); [eexists; reflexivity | exact (IH H)].
Qed.

(** [data[matches[0]]] never raises [KeyError]. *)
Lemma pure_fuzzy_match_question (question : str) (data : dict) :
  pure (fuzzy_match_question rt question data).
Proof.
  intros g; unfold fuzzy_match_question.
  destruct (get_close_matches (lower rt question) (dict_keys data) 1 cutoff)
    as [|key rest] eqn:E; [eexists; reflexivity|].
  assert (Hin : In key (dict_keys data)).
  { apply (@get_close_matches_In (lower rt question) key (dict_keys data)
             1 cutoff); rewrite E; left; reflexivity. }
  destruct (dict_get_keys _ _ Hin) as [v ->]; eexists; reflexivity.
Qed.

Lemma pure_search_local_questions (query : str) :
  pure (search_local_questions rt query).
Proof.
  intros g; unfold search_local_questions, bind, get_globals.
  apply pure_fuzzy_match_question.
Qed.

(** The local answer, once the resolver has returned. *)
Lemma local_answer_returns (q : str) (g : Globals)
    (found : option str * option str) :
  search_intents q g = (Return found, g) ->
  exists bot, local_answer rt q g = (Return bot, g).
Proof.
  intros H; unfold local_answer.
  rewrite (@bind_Return _ _ _ _ _ _ _ H); unfold py_or, bind, ret.
  destruct (truthy_opt (fst found)); [eexists; reflexivity|].
  apply pure_search_local_questions.
Qed.

(** ** Validity of a question *)

Lemma is_valid_question_false (question : str) :
  is_valid_question rt question = false <->
  len question <= 2 \/ str_isdigit rt question = true.
Proof.
  unfold is_valid_question.
  rewrite andb_false_iff, Nat.ltb_ge, negb_false_iff; reflexivity.
Qed.

Lemma save_question_invalid (question answer : str) (g : Globals) :
  is_valid_question rt question = false ->
  save_question rt question answer g = (Return tt, g).
Proof. unfold save_question; intros ->; reflexivity. Qed.

Lemma save_question_stores (question answer : str) (g : Globals) :
  is_valid_question rt question = true ->
  mem answer NON_ANSWERS = false ->
  save_question rt question answer g =
  (json_dump rt (dict_set question answer (questions_data g)),
   logged (DumpQuestions (dict_set question answer (questions_data g)))
     (learned question answer g)).
Proof.
  unfold save_question; intros -> ->; reflexivity.
Qed.

(** [save_question] calls nothing but the writer of [questions.json]. *)
Lemma save_question_calls (question answer : str) (g : Globals) :
  calls (snd (save_question rt question answer g)) = calls g \/
  exists d,
    calls (snd (save_question rt question answer g))
    = calls g ++ [DumpQuestions d].
Proof.
  unfold save_question.
  destruct (is_valid_question rt question && negb (mem answer NON_ANSWERS));
    [right; eexists; reflexivity | left; reflexivity].
Qed.

(** ** Normalisation *)

(** Normalising touches no global but the record of calls, and writes
    nothing. *)
Lemma normalize_frame (user_message : str) (g : Globals) :
  questions_data (snd (normalize rt user_message g)) = questions_data g /\
  forall d,
    In (DumpQuestions d) (calls (snd (normalize rt user_message g))) ->
    In (DumpQuestions d) (calls g).
Proof.
  unfold normalize, bind, external, ret.
  destruct (langdetect_detect rt user_message) as [lang|e]; simpl.
  - destruct (negb (PyStr.eqb lang AR)); simpl.
    + destruct (translator_translate rt AUTO AR user_message); simpl;
        (split; [reflexivity|]); intros d H;
        repeat (apply in_app_or in H as [H|[H|[]]]; try discriminate H);
        exact H.
    + split; [reflexivity|]; intros d H.
      apply in_app_or in H as [H|[H|[]]]; [exact H | discriminate H].
  - split; [reflexivity|]; intros d H.
    apply in_app_or in H as [H|[H|[]]]; [exact H | discriminate H].
Qed.

Lemma normalize_translated (user_message lang q : str) (g : Globals) :
  langdetect_detect rt user_message = Return lang ->
  PyStr.eqb lang AR = false ->
  translator_translate rt AUTO AR user_message = Return q ->
  normalize rt user_message g =
  (Return (lang, q),
   logged (Translate AUTO AR user_message) (logged (Detect user_message) g)).
Proof.
  intros Hd Hl Ht; unfold normalize, bind, external, ret.
  rewrite Hd; simpl; rewrite Hl; simpl; rewrite Ht; reflexivity.
Qed.

(** ** The handler, once the message is normalised *)

Lemma get_bot_response_arrived (s lang q : str) (g g1 : Globals) :
  truthy (strip s) = true ->
  normalize rt (strip s) g = (Return (lang, q), g1) ->
  get_bot_response rt (Object (Some (JString s))) g =
  try_except
    (if negb (is_valid_question rt q)
     then ret {| response := MSG_UNCLEAR; status := 200 |}
     else answer rt lang q)
    except_Exception
    (ret {| response := MSG_SERVER_ERROR; status := 500 |}) g1.
Proof.
  intros Ht Hn; unfold get_bot_response, handle, try_except, read_message.
  unfold bind at 1; unfold ret at 1; rewrite Ht; simpl.
  unfold bind at 1; rewrite Hn; reflexivity.
Qed.

Lemma get_bot_response_empty (s : str) (g : Globals) :
  truthy (strip s) = false ->
  get_bot_response rt (Object (Some (JString s))) g =
  (Return {| response := MSG_EMPTY; status := 400 |}, g).
Proof.
  intros Ht; unfold get_bot_response, handle, try_except, read_message.
  unfold bind, ret; rewrite Ht; reflexivity.
Qed.

(** The handler always answers: no exception leaves [get_bot_response]. *)
Lemma get_bot_response_returns (body : Body) (g : Globals) :
  exists r, fst (get_bot_response rt body g) = Return r.
Proof.
  unfold get_bot_response, try_except.
  destruct (handle rt body g) as [[r|e] g']; simpl; eexists; reflexivity.
Qed.

(** ** The providers *)

Lemma search_wikipedia_declined (q : str) (g : Globals) :
  wikipedia_declines rt q = true ->
  search_wikipedia rt q g = (Return None, logged (WikipediaSummary q) g).
Proof.
  unfold wikipedia_declines, search_wikipedia, try_except, bind, external,
    ret, lower.
  destruct (wikipedia_summary rt q) as [summary|e]; simpl.
  - intros H; apply negb_true_iff in H; rewrite H; reflexivity.
  - intros ->; reflexivity.
Qed.

Lemma search_wikipedia_relevant (q s : str) (g g' : Globals) :
  search_wikipedia rt q g = (Return (Some s), g') ->
  contains (lower rt s) (lower rt q) = true.
Proof.
  unfold search_wikipedia, try_except, bind, external, ret.
  destruct (wikipedia_summary rt q) as [summary|e]; simpl.
  - destruct (contains (lower rt summary) (lower rt q)) eqn:E;
      intros H; [|discriminate H].
    injection H as <- _; exact E.
  - destruct (except_wikipedia e); discriminate.
Qed.

Lemma search_gemini_accepted (q text : str) (g : Globals) :
  gemini_text rt (GEMINI_PROMPT ++ q) = Return text ->
  truthy text = true ->
  contains (lower rt text) (lower rt q) = true ->
  search_gemini rt q g =
  (Return (Some text), logged (GeminiGenerate (GEMINI_PROMPT ++ q)) g).
Proof.
  intros Hg Ht Hc; unfold search_gemini, try_except, bind, external, ret.
  rewrite Hg; simpl; rewrite Ht, Hc; reflexivity.
Qed.

Lemma search_gemini_relevant (q s : str) (g g' : Globals) :
  search_gemini rt q g = (Return (Some s), g') ->
  contains (lower rt s) (lower rt q) = true.
Proof.
  unfold search_gemini, try_except, bind, external, ret.
  destruct (gemini_text rt (GEMINI_PROMPT ++ q)) as [text|e]; simpl;
    [|discriminate].
  destruct (truthy text); simpl; [|discriminate].
  destruct (contains (lower rt text) (lower rt q)) eqn:E;
    intros H; [|discriminate H].
  injection H as <- _; exact E.
Qed.

Lemma search_duckduckgo_first (q body : str) (rest : list (option str))
    (g : Globals) :
  ddgs_text rt q = Return (Some body :: rest) ->
  search_duckduckgo rt q g =
  (Return (Some body), logged (DuckDuckGoText q) g).
Proof.
  intros H; unfold search_duckduckgo, try_except, bind, external, ret.
  rewrite H; reflexivity.
Qed.

(** ** The elaboration override *)

Lemma detailed_for_none (last_tag : str) (intents : list Intent) :
  forall answer,
    forallb (fun i => negb (overrides last_tag i)) intents = true ->
    detailed_for last_tag intents answer = answer.
Proof.
  unfold detailed_for.
  induction intents as [|i rest IH]; intros answer H; simpl;
    [reflexivity|].
  simpl in H; apply andb_true_iff in H as [Hi Hrest].
  unfold overrides in Hi.
  destruct (tag i) as [t|]; [|exact (IH answer Hrest)].
  destruct (detailed_response i); [|exact (IH answer Hrest)].
  apply negb_true_iff in Hi; rewrite Hi; exact (IH answer Hrest).
Qed.

Lemma detailed_for_last (last_tag detail : str) (intent : Intent)
    (before after : list Intent) (answer : option str) :
  tag intent = Some last_tag ->
  detailed_response intent = Some detail ->
  forallb (fun i => negb (overrides last_tag i)) after = true ->
  detailed_for last_tag (before ++ intent :: after) answer = Some detail.
Proof.
  intros Ht Hd Hafter.
  unfold detailed_for; rewrite fold_left_app; simpl.
  rewrite Ht, Hd, eqb_refl.
  exact (detailed_for_none last_tag after (Some detail) Hafter).
Qed.

Lemma keeps_normalize (user_message : str) :
  keeps (normalize rt user_message).
Proof. unfold normalize; keeps_tac. Qed.

End Requests.


Import Startup Sample Cases.

(** ** C1 *)

(** C1 (defect of the code).  The resolver returns the first response and
    the tag of the intent it matched, but nothing assigns [last_user_tag]:
    [search_intents] changes no global, and after any request the last tag
    is what it was before.  With the intent [greeting] matched by "hello",
    the request is answered from the intent and [last_user_tag] is still
    [None], not the tag [greeting]. *)
Theorem C1_last_tag_is_never_updated :
  (forall q g, snd (search_intents q g) = g) /\
  (forall rt body g,
      last_user_tag (snd (get_bot_response rt body g)) = last_user_tag g) /\
  search_intents HELLO (started [] [greeting_intent])
    = (Return (Some HI, Some GREETING), started [] [greeting_intent]) /\
  fst (get_bot_response runtime (ask HELLO) (started [] [greeting_intent]))
    = Return {| response := HI; status := 200 |} /\
  last_user_tag
    (snd (get_bot_response runtime (ask HELLO)
            (started [] [greeting_intent])))
    = None.
Proof.
  split; [reflexivity|].
  split; [intros rt body g; apply keeps_get_bot_response|].
  repeat split; vm_compute; reflexivity.
Qed.

(** ** C2 *)

(** C2 (defect of the code).  For a well-formed question with no working
    answer that fails the keyword gate, lines 140-146 produce the
    out-of-scope message and call no provider, but they do hand the message
    to [save_question], which stores it: the refusal is entered in
    [questions_data] under the question and [questions.json] is written. *)
Theorem C2_refusal_is_stored (rt : Runtime) (q : str) (bot : option str)
    (g : Globals) :
  is_valid_question rt q = true ->
  no_answer rt bot = true ->
  is_question_about_museum rt q = false ->
  resolve rt q bot g =
  (match json_dump rt (dict_set q MSG_OUT_OF_SCOPE (questions_data g)) with
   | Return _ => Return MSG_OUT_OF_SCOPE
   | Raise e => Raise e
   end,
   logged (DumpQuestions (dict_set q MSG_OUT_OF_SCOPE (questions_data g)))
     (learned q MSG_OUT_OF_SCOPE g)).
Proof.
  intros Hvalid Hno Hgate.
  assert (E : resolve rt q bot g = look_outside rt q g).
  { unfold resolve; destruct bot; [rewrite Hno|]; reflexivity. }
  rewrite E; unfold look_outside, outside_answer; rewrite Hgate.
  unfold bind at 1; unfold ret at 1.
  unfold bind; rewrite (@save_question_stores rt q MSG_OUT_OF_SCOPE g Hvalid eq_refl).
  destruct (json_dump rt _); reflexivity.
Qed.

Lemma C2_refusal_is_stored_witness :
  resolve runtime Q_WEATHER None (started [] []) =
  (Return MSG_OUT_OF_SCOPE,
   {| questions_data := [(Q_WEATHER, MSG_OUT_OF_SCOPE)];
      intents_data := [];
      last_user_tag := None;
      calls := [DumpQuestions [(Q_WEATHER, MSG_OUT_OF_SCOPE)]] |}).
Proof.
  exact (C2_refusal_is_stored runtime Q_WEATHER None (started [] [])
           eq_refl eq_refl eq_refl).
Defined.

(** The same on a whole request: the refusal is the answer, and the store
    and the file have the entry. *)
Example refusal_request :
  get_bot_response runtime (ask Q_WEATHER) (started [] []) =
  (Return {| response := MSG_OUT_OF_SCOPE; status := 200 |},
   {| questions_data := [(Q_WEATHER, MSG_OUT_OF_SCOPE)];
      intents_data := [];
      last_user_tag := None;
      calls := [Detect Q_WEATHER;
                DumpQuestions [(Q_WEATHER, MSG_OUT_OF_SCOPE)]] |}).
Proof. vm_compute; reflexivity. Qed.

(** ** C3 *)

(** C3 (defect of the code).  The encyclopedia and the generative model are
    accepted only when the lower-cased query is a substring of the
    lower-cased answer; the web search is not checked: the body of its first
    result is accepted whatever it says. *)
Theorem C3_only_two_providers_check_relevance (rt : Runtime) (q : str)
    (g : Globals) :
  (forall s g',
      search_wikipedia rt q g = (Return (Some s), g') ->
      contains (lower rt s) (lower rt q) = true) /\
  (forall s g',
      search_gemini rt q g = (Return (Some s), g') ->
      contains (lower rt s) (lower rt q) = true) /\
  (forall body rest,
      ddgs_text rt q = Return (Some body :: rest) ->
      search_duckduckgo rt q g
      = (Return (Some body), logged (DuckDuckGoText q) g)).
Proof.
  split; [|split].
  - intros s g'; apply search_wikipedia_relevant.
  - intros s g'; apply search_gemini_relevant.
  - intros body rest; apply search_duckduckgo_first.
Qed.

(** The snippet "Egyptian Museum - Cairo" does not contain the query
    "المتحف", and is the answer of the cascade all the same. *)
Lemma C3_only_two_providers_check_relevance_witness :
  contains (lower (with_duckduckgo A_SNIPPET runtime) A_SNIPPET)
    (lower (with_duckduckgo A_SNIPPET runtime) Q_MUSEUM) = false /\
  search_duckduckgo (with_duckduckgo A_SNIPPET runtime) Q_MUSEUM
    (started [] [])
  = (Return (Some A_SNIPPET),
     logged (DuckDuckGoText Q_MUSEUM) (started [] [])) /\
  fst (fallback_cascade (with_duckduckgo A_SNIPPET runtime) Q_MUSEUM
         (started [] []))
  = Return A_SNIPPET.
Proof.
  split; [reflexivity|].
  split; [|reflexivity].
  exact (proj2 (proj2 (C3_only_two_providers_check_relevance
                         (with_duckduckgo A_SNIPPET runtime) Q_MUSEUM
                         (started [] [])))
           A_SNIPPET [] eq_refl).
Defined.

(** ** C4 *)

(** C4, refuted as stated: the generative model answers the question, the
    write of [questions.json] raises, and the caller gets the generic 500
    response, not the computed answer. *)
Lemma C4_counterexample :
  fst (outside_answer (read_only (with_gemini A_MUSEUM runtime)) Q_MUSEUM
         (started [] []))
  = Return A_MUSEUM /\
  json_dump (read_only (with_gemini A_MUSEUM runtime))
    [(Q_MUSEUM, A_MUSEUM)]
  = Raise OSError /\
  fst (get_bot_response (read_only (with_gemini A_MUSEUM runtime))
         (ask Q_MUSEUM) (started [] []))
  = Return {| response := MSG_SERVER_ERROR; status := 500 |}.
Proof. repeat split; vm_compute; reflexivity. Qed.

(** C4 (as amended).  When a request has computed an answer outside
    (lines 141-144) and the write of [questions.json] raises in
    [save_question], the exception reaches the handler of
    [get_bot_response]: the request returns the generic server-error
    message with status 500, and the entry stays in [questions_data]. *)
Theorem C4_write_failure_gives_server_error (rt : Runtime) (s lang q : str)
    (g g1 g2 g3 : Globals) (bot : option str) (found : str)
    (e : Exception) :
  truthy (strip s) = true ->
  normalize rt (strip s) g = (Return (lang, q), g1) ->
  is_valid_question rt q = true ->
  working_answer rt q g1 = (Return bot, g2) ->
  no_answer rt bot = true ->
  outside_answer rt q g2 = (Return found, g3) ->
  mem found NON_ANSWERS = false ->
  json_dump rt (dict_set q found (questions_data g3)) = Raise e ->
  get_bot_response rt (Object (Some (JString s))) g =
  (Return {| response := MSG_SERVER_ERROR; status := 500 |},
   logged (DumpQuestions (dict_set q found (questions_data g3)))
     (learned q found g3)).
Proof.
  intros Hs Hn Hvalid Hw Hno Hout Hmem Hdump.
  rewrite (@get_bot_response_arrived rt s lang q g g1 Hs Hn), Hvalid; simpl.
  assert (E : resolve rt q bot g2 = look_outside rt q g2).
  { unfold resolve; destruct bot; [rewrite Hno|]; reflexivity. }
  unfold try_except, answer.
  unfold bind at 1; rewrite Hw.
  unfold bind at 1; rewrite E; unfold look_outside.
  unfold bind at 1; rewrite Hout.
  unfold bind at 1.
  rewrite (@save_question_stores rt q found g3 Hvalid Hmem), Hdump.
  reflexivity.
Qed.

Lemma C4_write_failure_gives_server_error_witness :
  get_bot_response (read_only (with_gemini A_MUSEUM runtime))
    (ask Q_MUSEUM) (started [] []) =
  (Return {| response := MSG_SERVER_ERROR; status := 500 |},
   {| questions_data := [(Q_MUSEUM, A_MUSEUM)];
      intents_data := [];
      last_user_tag := None;
      calls := [Detect Q_MUSEUM; WikipediaSummary Q_MUSEUM;
                GeminiGenerate (GEMINI_PROMPT ++ Q_MUSEUM);
                DumpQuestions [(Q_MUSEUM, A_MUSEUM)]] |}).
Proof.
  exact (@C4_write_failure_gives_server_error
           (read_only (with_gemini A_MUSEUM runtime)) Q_MUSEUM AR Q_MUSEUM
           (started [] [])
           (logged (Detect Q_MUSEUM) (started [] []))
           (logged (Detect Q_MUSEUM) (started [] []))
           (logged (GeminiGenerate (GEMINI_PROMPT ++ Q_MUSEUM))
              (logged (WikipediaSummary Q_MUSEUM)
                 (logged (Detect Q_MUSEUM) (started [] []))))
           None A_MUSEUM OSError
           eq_refl eq_refl eq_refl eq_refl eq_refl eq_refl eq_refl eq_refl).
Defined.

(** ** C5 *)

(** C5 (defect of the code).  The comparisons are not case-insensitive.
    [search_intents] lower-cases neither side: the pattern "hello" matches
    the query "hello" and not "HELLO".  [fuzzy_match_question] lower-cases
    the query only: the stored key "HELLO WORLD" is not found by the query
    "HELLO WORLD" itself, while the key "hello world" is. *)
Theorem C5_matching_depends_on_letter_case :
  lower runtime HELLO_UPPER = lower runtime HELLO /\
  search_intents HELLO (started [] [greeting_intent])
    = (Return (Some HI, Some GREETING), started [] [greeting_intent]) /\
  search_intents HELLO_UPPER (started [] [greeting_intent])
    = (Return (None, None), started [] [greeting_intent]) /\
  lower runtime HELLO_WORLD_UPPER = lower runtime HELLO_WORLD /\
  fuzzy_match_question runtime HELLO_WORLD_UPPER [(HELLO_WORLD, HI)]
    (started [] [])
    = (Return (Some HI), started [] []) /\
  fuzzy_match_question runtime HELLO_WORLD_UPPER [(HELLO_WORLD_UPPER, HI)]
    (started [] [])
    = (Return None, started [] []).
Proof. repeat split; vm_compute; reflexivity. Qed.

(** ** C6 *)

(** C6.  When the normalised text of a request has two characters or
    fewer, or is all digits, the request ends with the "unclear question"
    answer: [questions_data] is what it was, [questions.json] is not
    written, and [save_question] itself would store nothing for such a
    question. *)
Theorem C6_invalid_question_is_never_stored (rt : Runtime) (s lang q : str)
    (g g1 : Globals) :
  truthy (strip s) = true ->
  normalize rt (strip s) g = (Return (lang, q), g1) ->
  len q <= 2 \/ str_isdigit rt q = true ->
  get_bot_response rt (Object (Some (JString s))) g
    = (Return {| response := MSG_UNCLEAR; status := 200 |}, g1) /\
  questions_data g1 = questions_data g /\
  (forall d, In (DumpQuestions d) (calls g1) -> In (DumpQuestions d) (calls g)) /\
  (forall answer g', save_question rt q answer g' = (Return tt, g')).
Proof.
  intros Hs Hn Hq; apply is_valid_question_false in Hq.
  split; [|split; [|split]].
  - rewrite (@get_bot_response_arrived rt s lang q g g1 Hs Hn), Hq.
    reflexivity.
  - pose proof (proj1 (normalize_frame rt (strip s) g)) as H.
    rewrite Hn in H; exact H.
  - pose proof (proj2 (normalize_frame rt (strip s) g)) as H.
    rewrite Hn in H; exact H.
  - intros answer g'; apply save_question_invalid; exact Hq.
Qed.

Lemma C6_invalid_question_is_never_stored_witness :
  get_bot_response runtime (ask FORTY_TWO) (started [(HELLO, HI)] [])
    = (Return {| response := MSG_UNCLEAR; status := 200 |},
       logged (Translate AUTO AR FORTY_TWO)
         (logged (Detect FORTY_TWO) (started [(HELLO, HI)] []))) /\
  questions_data
    (logged (Translate AUTO AR FORTY_TWO)
       (logged (Detect FORTY_TWO) (started [(HELLO, HI)] [])))
    = [(HELLO, HI)] /\
  (forall d,
      In (DumpQuestions d)
        (calls (logged (Translate AUTO AR FORTY_TWO)
                  (logged (Detect FORTY_TWO) (started [(HELLO, HI)] [])))) ->
      In (DumpQuestions d) []) /\
  (forall answer g',
      save_question runtime FORTY_TWO answer g' = (Return tt, g')).
Proof.
  exact (@C6_invalid_question_is_never_stored runtime FORTY_TWO EN
           FORTY_TWO (started [(HELLO, HI)] [])
           (logged (Translate AUTO AR FORTY_TWO)
              (logged (Detect FORTY_TWO) (started [(HELLO, HI)] [])))
           eq_refl eq_refl (or_intror eq_refl)).
Defined.

(** ** C7 *)

(** C7 (defect of the code).  For a question that passes the keyword gate
    and has no working answer, with the generative model ready to give a
    relevant text.  When the encyclopedia gives an irrelevant summary, or
    raises one of the two exceptions [search_wikipedia] names, the cascade
    does what the claim says: it returns the text of the model after
    calling the encyclopedia and the model, in this order, the text is what
    is handed to [save_question] and returned, and the web search is not
    called.  When the encyclopedia fails with any other exception, the
    exception leaves [search_wikipedia] and the cascade: the model, which
    would have answered, is never called, and there is no working answer.
    The two sibling providers catch every exception. *)
Theorem C7_encyclopedia_failure_ends_the_cascade (rt : Runtime) (q : str)
    (bot : option str) (g : Globals) (text : str) :
  no_answer rt bot = true ->
  is_question_about_museum rt q = true ->
  gemini_text rt (GEMINI_PROMPT ++ q) = Return text ->
  truthy text = true ->
  contains (lower rt text) (lower rt q) = true ->
  (wikipedia_declines rt q = true ->
   fallback_cascade rt q g
     = (Return text,
        logged (GeminiGenerate (GEMINI_PROMPT ++ q))
          (logged (WikipediaSummary q) g)) /\
   resolve rt q bot g
     = bind (save_question rt q text) (fun _ => ret text)
         (logged (GeminiGenerate (GEMINI_PROMPT ++ q))
            (logged (WikipediaSummary q) g)) /\
   (forall x,
       In (DuckDuckGoText x) (calls (snd (resolve rt q bot g))) ->
       In (DuckDuckGoText x) (calls g))) /\
  (forall e,
      wikipedia_summary rt q = Raise e ->
      except_wikipedia e = false ->
      search_gemini rt q (logged (WikipediaSummary q) g)
        = (Return (Some text),
           logged (GeminiGenerate (GEMINI_PROMPT ++ q))
             (logged (WikipediaSummary q) g)) /\
      fallback_cascade rt q g = (Raise e, logged (WikipediaSummary q) g) /\
      resolve rt q bot g = (Raise e, logged (WikipediaSummary q) g)).
Proof.
  intros Hno Hgate Hgem Htext Hrel.
  assert (E : resolve rt q bot g = look_outside rt q g).
  { unfold resolve; destruct bot; [rewrite Hno|]; reflexivity. }
  split.
  - intros Hwiki.
    assert (Hc : fallback_cascade rt q g
                 = (Return text,
                    logged (GeminiGenerate (GEMINI_PROMPT ++ q))
                      (logged (WikipediaSummary q) g))).
    { unfold fallback_cascade, py_or_str.
      unfold bind at 1; rewrite (search_wikipedia_declined rt q g Hwiki).
      unfold bind at 1.
      rewrite (search_gemini_accepted rt q _ Hgem Htext Hrel), Htext.
      reflexivity. }
    assert (Hr : resolve rt q bot g
                 = bind (save_question rt q text) (fun _ => ret text)
                     (logged (GeminiGenerate (GEMINI_PROMPT ++ q))
                        (logged (WikipediaSummary q) g))).
    { rewrite E; unfold look_outside, outside_answer; rewrite Hgate.
      unfold bind at 1; rewrite Hc; reflexivity. }
    split; [exact Hc|]; split; [exact Hr|].
    intros x; rewrite Hr; unfold bind, ret.
    set (g2 := logged (GeminiGenerate (GEMINI_PROMPT ++ q))
                 (logged (WikipediaSummary q) g)).
    assert (Hcalls :
               In (DuckDuckGoText x)
                 (calls (snd (save_question rt q text g2)))
               -> In (DuckDuckGoText x) (calls g)).
    { intros H.
      destruct (save_question_calls rt q text g2) as [E'|[d E']];
        rewrite E' in H; simpl in H;
        repeat (apply in_app_or in H as [H|[H|[]]]; try discriminate H);
        exact H. }
    destruct (save_question rt q text g2) as [[u|e] g3]; simpl in *;
      exact Hcalls.
  - intros e Hwiki He.
    assert (Hc : fallback_cascade rt q g
                 = (Raise e, logged (WikipediaSummary q) g)).
    { unfold fallback_cascade, py_or_str, bind.
      unfold search_wikipedia, try_except, bind, external.
      rewrite Hwiki, He; reflexivity. }
    split; [exact (search_gemini_accepted rt q _ Hgem Htext Hrel)|].
    split; [exact Hc|].
    rewrite E; unfold look_outside, outside_answer; rewrite Hgate.
    unfold bind at 1; rewrite Hc; reflexivity.
Qed.

(** With the encyclopedia raising [PageError], the answer is the text of
    the model.  With the encyclopedia raising another exception, the
    cascade raises it after the one call, although the model had the same
    text ready, and the request ends with the 500 response. *)
Lemma C7_encyclopedia_failure_ends_the_cascade_witness :
  (fallback_cascade
     (with_gemini A_MUSEUM (with_duckduckgo A_SNIPPET runtime))
     Q_MUSEUM (started [] [])
     = (Return A_MUSEUM,
        logged (GeminiGenerate (GEMINI_PROMPT ++ Q_MUSEUM))
          (logged (WikipediaSummary Q_MUSEUM) (started [] []))) /\
   resolve (with_gemini A_MUSEUM (with_duckduckgo A_SNIPPET runtime))
     Q_MUSEUM None (started [] [])
     = bind (save_question
               (with_gemini A_MUSEUM (with_duckduckgo A_SNIPPET runtime))
               Q_MUSEUM A_MUSEUM)
         (fun _ => ret A_MUSEUM)
         (logged (GeminiGenerate (GEMINI_PROMPT ++ Q_MUSEUM))
            (logged (WikipediaSummary Q_MUSEUM) (started [] []))) /\
   (forall x,
       In (DuckDuckGoText x)
         (calls (snd (resolve
                        (with_gemini A_MUSEUM
                           (with_duckduckgo A_SNIPPET runtime))
                        Q_MUSEUM None (started [] [])))) ->
       In (DuckDuckGoText x) [])) /\
  (search_gemini
     (with_wikipedia (Raise ServiceError) (with_gemini A_MUSEUM runtime))
     Q_MUSEUM (logged (WikipediaSummary Q_MUSEUM) (started [] []))
     = (Return (Some A_MUSEUM),
        logged (GeminiGenerate (GEMINI_PROMPT ++ Q_MUSEUM))
          (logged (WikipediaSummary Q_MUSEUM) (started [] []))) /\
   fallback_cascade
     (with_wikipedia (Raise ServiceError) (with_gemini A_MUSEUM runtime))
     Q_MUSEUM (started [] [])
     = (Raise ServiceError,
        logged (WikipediaSummary Q_MUSEUM) (started [] [])) /\
   resolve
     (with_wikipedia (Raise ServiceError) (with_gemini A_MUSEUM runtime))
     Q_MUSEUM None (started [] [])
     = (Raise ServiceError,
        logged (WikipediaSummary Q_MUSEUM) (started [] []))) /\
  get_bot_response
    (with_wikipedia (Raise ServiceError) (with_gemini A_MUSEUM runtime))
    (ask Q_MUSEUM) (started [] [])
  = (Return {| response := MSG_SERVER_ERROR; status := 500 |},
     {| questions_data := [];
        intents_data := [];
        last_user_tag := None;
        calls := [Detect Q_MUSEUM; WikipediaSummary Q_MUSEUM] |}).
Proof.
  split; [|split; [|reflexivity]].
  - exact (proj1
             (@C7_encyclopedia_failure_ends_the_cascade
                (with_gemini A_MUSEUM (with_duckduckgo A_SNIPPET runtime))
                Q_MUSEUM None (started [] []) A_MUSEUM
                eq_refl eq_refl eq_refl eq_refl eq_refl)
             eq_refl).
  - exact (proj2
             (@C7_encyclopedia_failure_ends_the_cascade
                (with_wikipedia (Raise ServiceError)
                   (with_gemini A_MUSEUM runtime))
                Q_MUSEUM None (started [] []) A_MUSEUM
                eq_refl eq_refl eq_refl eq_refl eq_refl)
             ServiceError eq_refl eq_refl).
Defined.

(** ** C8 *)

(** C8 (defect of the code, the one of C1).  The elaboration of lines
    134-138 reads [last_user_tag], and nothing assigns it after line 56.
    A request handled with [last_user_tag] at [None] leaves it at [None],
    whatever intent it matched; so at the next request the test
    [and last_user_tag] of line 135 fails, whatever the query and the
    intents: the elaboration step returns the working answer as it is,
    and the working answer is the one of the intents and of the learned
    questions, not a detailed response. *)
Theorem C8_elaboration_is_never_reached (rt rt' : Runtime) (body : Body)
    (g : Globals) (q : str) (bot : option str) :
  last_user_tag g = None ->
  last_user_tag (snd (get_bot_response rt body g)) = None /\
  elaborate rt' q bot (snd (get_bot_response rt body g))
  = (Return bot, snd (get_bot_response rt body g)) /\
  working_answer rt' q (snd (get_bot_response rt body g))
  = local_answer rt' q (snd (get_bot_response rt body g)).
Proof.
  intros Hg.
  destruct (keeps_get_bot_response rt body g) as [_ Ht]; rewrite Hg in Ht.
  set (g' := snd (get_bot_response rt body g)) in *.
  assert (He : forall b g0,
             last_user_tag g0 = None ->
             elaborate rt' q b g0 = (Return b, g0)).
  { intros b g0 H0; unfold elaborate, bind, get_globals; rewrite H0; simpl.
    rewrite andb_false_r; reflexivity. }
  split; [exact Ht|]; split; [exact (He bot g' Ht)|].
  unfold working_answer, bind.
  destruct (local_answer rt' q g') as [[b|e] g1] eqn:E; [|reflexivity].
  apply He.
  assert (Hk : keeps (local_answer rt' q)).
  { unfold local_answer, search_local_questions.
    apply keeps_bind; [apply keeps_search_intents|]; intros found.
    apply keeps_py_or; [apply keeps_ret|].
    apply keeps_bind; [apply keeps_get_globals|]; intros g0.
    apply keeps_fuzzy_match_question. }
  destruct (Hk g') as [_ Hk2]; rewrite E in Hk2; simpl in Hk2; congruence.
Qed.

(** A conversation after start-up with one intent of tag [TUT], which has
    a detailed response.  The first message is a pattern of the intent: the
    resolver returns the tag [TUT] and the request is answered from the
    intent.  The second message is "tell me more": [last_user_tag] is
    still [None], nothing is elaborated, and the answer is the refusal, not
    the detailed response. *)
Lemma C8_elaboration_is_never_reached_witness :
  (last_user_tag
     (snd (get_bot_response runtime (ask TUTANKHAMUN)
             (started [] [tut_intent DETAIL_A])))
   = None /\
   elaborate runtime TELL_ME_MORE None
     (snd (get_bot_response runtime (ask TUTANKHAMUN)
             (started [] [tut_intent DETAIL_A])))
   = (Return None,
      snd (get_bot_response runtime (ask TUTANKHAMUN)
             (started [] [tut_intent DETAIL_A]))) /\
   working_answer runtime TELL_ME_MORE
     (snd (get_bot_response runtime (ask TUTANKHAMUN)
             (started [] [tut_intent DETAIL_A])))
   = local_answer runtime TELL_ME_MORE
       (snd (get_bot_response runtime (ask TUTANKHAMUN)
               (started [] [tut_intent DETAIL_A])))) /\
  fst (search_intents TUTANKHAMUN (started [] [tut_intent DETAIL_A]))
  = Return (Some BOY_KING, Some TUT) /\
  detailed_response (tut_intent DETAIL_A) = Some DETAIL_A /\
  existsb (fun word => contains (lower runtime TELL_ME_MORE) word)
    detail_keywords
  = true /\
  fst (serve [(runtime, ask TUTANKHAMUN); (runtime, ask TELL_ME_MORE)]
         (started [] [tut_intent DETAIL_A]))
  = [Return {| response := BOY_KING; status := 200 |};
     Return {| response := MSG_OUT_OF_SCOPE; status := 200 |}].
Proof.
  split; [|repeat split; reflexivity].
  exact (@C8_elaboration_is_never_reached runtime runtime
           (ask TUTANKHAMUN) (started [] [tut_intent DETAIL_A])
           TELL_ME_MORE None eq_refl).
Defined.

(** ** C9 *)

(** C9.  The two early exits answer in Arabic as written in the source and
    translate nothing back.  A missing, empty or blank message gets the
    "no valid message" answer with status 400 before any call is made.  A
    message detected as another language than Arabic, whose translation is
    not a valid question, gets the "unclear question" answer after the
    calls to the detector and to the translator into Arabic, and no other
    call. *)
Theorem C9_early_exits_are_not_translated_back (rt : Runtime)
    (g : Globals) :
  get_bot_response rt (Object None) g
    = (Return {| response := MSG_EMPTY; status := 400 |}, g) /\
  (forall s,
      truthy (strip s) = false ->
      get_bot_response rt (Object (Some (JString s))) g
      = (Return {| response := MSG_EMPTY; status := 400 |}, g)) /\
  (forall s lang q,
      truthy (strip s) = true ->
      langdetect_detect rt (strip s) = Return lang ->
      PyStr.eqb lang AR = false ->
      translator_translate rt AUTO AR (strip s) = Return q ->
      is_valid_question rt q = false ->
      get_bot_response rt (Object (Some (JString s))) g
      = (Return {| response := MSG_UNCLEAR; status := 200 |},
         logged (Translate AUTO AR (strip s)) (logged (Detect (strip s)) g))).
Proof.
  split; [reflexivity|]; split.
  - intros s; apply get_bot_response_empty.
  - intros s lang q Hs Hd Hl Ht Hq.
    rewrite (@get_bot_response_arrived rt s lang q g _ Hs
               (@normalize_translated rt (strip s) lang q g Hd Hl Ht)), Hq.
    reflexivity.
Qed.

Lemma C9_early_exits_are_not_translated_back_witness :
  get_bot_response runtime (ask (py "   ")) (started [] [greeting_intent])
    = (Return {| response := MSG_EMPTY; status := 400 |},
       started [] [greeting_intent]) /\
  get_bot_response runtime (ask FORTY_TWO) (started [] [greeting_intent])
    = (Return {| response := MSG_UNCLEAR; status := 200 |},
       logged (Translate AUTO AR FORTY_TWO)
         (logged (Detect FORTY_TWO) (started [] [greeting_intent]))).
Proof.
  split.
  - exact (proj1 (proj2 (C9_early_exits_are_not_translated_back runtime
                           (started [] [greeting_intent])))
             (py "   ") eq_refl).
  - exact (proj2 (proj2 (C9_early_exits_are_not_translated_back runtime
                           (started [] [greeting_intent])))
             FORTY_TWO EN FORTY_TWO eq_refl eq_refl eq_refl eq_refl eq_refl).
Defined.

(** ** C10 *)

(** C10, refuted as stated: "hello" is close to the pattern of an intent
    whose responses are empty, but an earlier intent matches it too; the
    resolver answers from the earlier one and the request succeeds. *)
Lemma C10_counterexample :
  matches HELLO silent_intent = true /\
  responses silent_intent = Some [] /\
  search_intents HELLO (started [] [greeting_intent; silent_intent])
  = (Return (Some HI, Some GREETING),
     started [] [greeting_intent; silent_intent]) /\
  fst (get_bot_response runtime (ask HELLO)
         (started [] [greeting_intent; silent_intent]))
  = Return {| response := HI; status := 200 |}.
Proof. repeat split; vm_compute; reflexivity. Qed.

(** C10 (as amended).  When the normalised, well-formed question of a
    request is close to a pattern of an intent, and the first such intent
    in configuration order has an empty or missing list of responses,
    [search_intents] raises [IndexError] at [responses[0]] and the request
    returns the generic server-error message with status 500; nothing is
    looked up further and nothing is stored. *)
Theorem C10_empty_responses_give_server_error (rt : Runtime)
    (s lang q : str) (g g1 : Globals) (intent : Intent) :
  truthy (strip s) = true ->
  normalize rt (strip s) g = (Return (lang, q), g1) ->
  is_valid_question rt q = true ->
  find (matches q) (intents_data g) = Some intent ->
  get_list (responses intent) = [] ->
  search_intents q g1 = (Raise IndexError, g1) /\
  get_bot_response rt (Object (Some (JString s))) g
  = (Return {| response := MSG_SERVER_ERROR; status := 500 |}, g1).
Proof.
  intros Hs Hn Hvalid Hfirst Hempty.
  assert (Hi : intents_data g1 = intents_data g).
  { pose proof (proj1 (keeps_normalize rt (strip s) g)) as H.
    rewrite Hn in H; exact H. }
  assert (Hr : search_intents q g1 = (Raise IndexError, g1)).
  { unfold search_intents.
    rewrite search_intents_in_first, Hi, Hfirst, Hempty; reflexivity. }
  split; [exact Hr|].
  rewrite (@get_bot_response_arrived rt s lang q g g1 Hs Hn), Hvalid; simpl.
  unfold try_except, answer, working_answer, local_answer.
  unfold bind at 1; unfold bind at 1; unfold bind at 1.
  rewrite Hr; reflexivity.
Qed.

Lemma C10_empty_responses_give_server_error_witness :
  search_intents HELLO
    (logged (Translate AUTO AR HELLO)
       (logged (Detect HELLO) (started [] [silent_intent; greeting_intent])))
  = (Raise IndexError,
     logged (Translate AUTO AR HELLO)
       (logged (Detect HELLO) (started [] [silent_intent; greeting_intent])))
  /\
  get_bot_response runtime (ask HELLO)
    (started [] [silent_intent; greeting_intent])
  = (Return {| response := MSG_SERVER_ERROR; status := 500 |},
     logged (Translate AUTO AR HELLO)
       (logged (Detect HELLO) (started [] [silent_intent; greeting_intent]))).
Proof.
  exact (@C10_empty_responses_give_server_error runtime HELLO EN HELLO
           (started [] [silent_intent; greeting_intent])
           (logged (Translate AUTO AR HELLO)
              (logged (Detect HELLO)
                 (started [] [silent_intent; greeting_intent])))
           silent_intent eq_refl eq_refl eq_refl eq_refl eq_refl).
Defined.

End AppFacts.

(* ===================================================================== *)
(** * A string against itself *)
(* ===================================================================== *)

Module SelfMatch.

Import Difflib Spec Terms DifflibFacts.

(** ** The index of a string *)

Lemma indices_from_bounds (elt : N) (s : str) :
  forall i j, In j (indices_from elt s i) -> i <= j < i + len s.
Proof.
  induction s as [|c s IH]; intros i j H; simpl in *; [contradiction|].
  destruct (c =? elt)%N.
  - destruct H as [H|H]; [subst; lia|]. apply IH in H; lia.
  - apply IH in H; lia.
Qed.

Lemma indices_from_sorted (elt : N) (s : str) :
  forall i, StronglySorted lt (indices_from elt s i).
Proof.
  induction s as [|c s IH]; intros i; simpl; [constructor|].
  destruct (c =? elt)%N; [|apply IH].
  constructor; [apply IH|].
  apply Forall_forall; intros j H; apply indices_from_bounds in H; lia.
Qed.

Lemma indices_from_In (s : str) :
  forall i p, p < len s -> In (i + p) (indices_from (item s p) s i).
Proof.
  induction s as [|c s IH]; intros i p Hp; simpl in *; [lia|].
  destruct p as [|p].
  - unfold item; simpl; rewrite N.eqb_refl; left; lia.
  - replace (item (c :: s) (S p)) with (item s p) by reflexivity.
    replace (i + S p) with (S i + p) by lia.
    destruct (c =? item s p)%N; [right|]; apply IH; lia.
Qed.

(** ** One row of the scan, over the whole of [b] *)

Lemma scan_row_fst (i bhi : nat) (j2len : list (nat * nat)) (js : list nat) :
  Forall (fun j => j < bhi) js ->
  forall newj2len best,
    fst (scan_row i 0 bhi j2len js newj2len best)
    = rev (map (fun j => (j, cell j2len j)) js) ++ newj2len.
Proof.
  induction js as [|j js IH]; intros Hjs newj2len best; simpl;
    [reflexivity|].
  inversion Hjs as [|? ? Hj Hjs']; subst.
  destruct (bhi <=? j) eqn:E; [apply Nat.leb_le in E; lia|].
  destruct best as [[bi bj] bs].
  rewrite (IH Hjs'); fold (cell j2len j).
  rewrite <- app_assoc; reflexivity.
Qed.

Lemma j2len_get_row (j2len : list (nat * nat)) (js : list nat) (j : nat) :
  (In j js ->
   j2len_get (rev (map (fun j => (j, cell j2len j)) js)) j = cell j2len j) /\
  (j2len_get (rev (map (fun j => (j, cell j2len j)) js)) j = cell j2len j \/
   j2len_get (rev (map (fun j => (j, cell j2len j)) js)) j = 0).
Proof.
  unfold j2len_get.
  destruct (find (fun entry => fst entry =? j)
              (rev (map (fun j => (j, cell j2len j)) js)))
    as [[j' k]|] eqn:E.
  - apply find_some in E as [Hin Hj]; simpl in Hj.
    apply Nat.eqb_eq in Hj; subst j'.
    apply in_rev, in_map_iff in Hin as [j0 [E0 _]].
    injection E0 as -> <-.
    split; [intros _|left]; reflexivity.
  - split; [|right; reflexivity].
    intros Hin; exfalso.
    assert (H : In (j, cell j2len j)
                  (rev (map (fun j => (j, cell j2len j)) js))).
    { apply in_rev; rewrite rev_involutive.
      apply in_map_iff; exists j; split; [reflexivity | exact Hin]. }
    apply (find_none _ _ E) in H; simpl in H.
    rewrite Nat.eqb_refl in H; discriminate.
Qed.

Lemma cell_bounds (rows : nat) (j2len : list (nat * nat)) (j : nat) :
  diagonal rows j2len -> cell j2len j <= rows + 1 /\ cell j2len j <= j + 1.
Proof.
  intros [Hb _]; unfold cell; destruct j as [|j1]; [lia|].
  destruct (Hb j1); lia.
Qed.

Lemma cell_diagonal (rows : nat) (j2len : list (nat * nat)) :
  diagonal rows j2len -> cell j2len rows = rows + 1.
Proof.
  intros [_ Hd]; unfold cell; destruct rows as [|r]; [reflexivity|].
  specialize (Hd ltac:(lia)); simpl in Hd.
  rewrite Nat.sub_0_r in Hd; lia.
Qed.

(** The best block after a row: the diagonal one, one longer. *)
Lemma scan_row_snd (i bhi : nat) (j2len : list (nat * nat)) :
  diagonal i j2len ->
  forall js newj2len best,
    StronglySorted lt js ->
    Forall (fun j => j < bhi) js ->
    (best = (0, 0, i) /\ In i js) \/ best = (0, 0, i + 1) ->
    snd (scan_row i 0 bhi j2len js newj2len best) = (0, 0, i + 1).
Proof.
  intros Hd.
  induction js as [|j js IH]; intros newj2len best Hsorted Hjs Hbest; simpl.
  - destruct Hbest as [[_ []]|Hbest]; exact Hbest.
  - inversion Hjs as [|? ? Hj Hjs']; subst.
    inversion Hsorted as [|? ? Hsorted' Hlt]; subst.
    destruct (bhi <=? j) eqn:E; [apply Nat.leb_le in E; lia|].
    fold (cell j2len j).
    destruct (cell_bounds j Hd) as [Hk1 Hk2].
    destruct Hbest as [[-> Hin] | ->].
    + destruct Hin as [-> | Hin].
      * rewrite (cell_diagonal Hd).
        replace (i <? i + 1) with true by (symmetry; apply Nat.ltb_lt; lia).
        apply IH; try assumption.
        right; rewrite Nat.sub_diag; reflexivity.
      * assert (Hji : j < i) by (rewrite Forall_forall in Hlt; auto).
        replace (i <? cell j2len j) with false
          by (symmetry; apply Nat.ltb_ge; lia).
        apply IH; try assumption; left; split; [reflexivity | exact Hin].
    + replace (i + 1 <? cell j2len j) with false
        by (symmetry; apply Nat.ltb_ge; lia).
      apply IH; try assumption; right; reflexivity.
Qed.

Lemma diagonal_next (i : nat) (j2len : list (nat * nat)) (js : list nat) :
  diagonal i j2len -> In i js ->
  diagonal (S i) (rev (map (fun j => (j, cell j2len j)) js) ++ []).
Proof.
  intros Hd Hin; rewrite app_nil_r; split.
  - intros j; destruct (cell_bounds j Hd) as [Hk1 Hk2].
    destruct (proj2 (j2len_get_row j2len js j)) as [-> | ->]; lia.
  - intros _; simpl; rewrite Nat.sub_0_r.
    rewrite (proj1 (j2len_get_row j2len js i) Hin), (cell_diagonal Hd); lia.
Qed.

(** ** A string against itself *)

Section Self.

Variable a : str.

Hypothesis short : len a < 200.

Lemma b2j_get_short (elt : N) : b2j_get a elt = indices_from elt a 0.
Proof.
  unfold b2j_get, bpopular.
  replace (200 <=? len a) with false
    by (symmetry; apply Nat.leb_gt; exact short).
  reflexivity.
Qed.

Lemma scan_rows_self (m : nat) :
  forall i j2len,
    i + m = len a -> diagonal i j2len ->
    scan_rows a a (seq i m) 0 (len a) j2len (0, 0, i) = (0, 0, len a).
Proof.
  induction m as [|m IH]; intros i j2len Hi Hd; simpl.
  - f_equal; lia.
  - rewrite b2j_get_short.
    set (js := indices_from (item a i) a 0).
    assert (Hin : In i js) by (apply (@indices_from_In a 0 i); lia).
    assert (Hjs : Forall (fun j => j < len a) js).
    { apply Forall_forall; intros j H.
      apply indices_from_bounds in H; lia. }
    pose proof (@scan_row_fst i (len a) j2len js Hjs [] (0, 0, i)) as Hfst.
    pose proof (@scan_row_snd i (len a) j2len Hd js [] (0, 0, i)
                  (indices_from_sorted _ _ _) Hjs
                  (or_introl (conj eq_refl Hin))) as Hsnd.
    destruct (scan_row i 0 (len a) j2len js [] (0, 0, i))
      as [newj2len best']; simpl in Hfst, Hsnd; subst.
    replace (i + 1) with (S i) by lia.
    apply IH; [lia | apply diagonal_next; assumption].
Qed.

(** The longest match of a string with itself is the whole string. *)
Lemma find_longest_match_self :
  find_longest_match a a 0 (len a) 0 (len a) = (0, 0, len a).
Proof.
  unfold find_longest_match.
  rewrite Nat.sub_0_r, (@scan_rows_self (len a) 0 [] eq_refl).
  - simpl; rewrite Nat.sub_diag; reflexivity.
  - split; [intros j; unfold j2len_get; simpl; lia | lia].
Qed.

Lemma matching_blocks_self :
  fold_left (fun total triple => total + snd triple)
    (get_matching_blocks a a) 0
  = len a.
Proof.
  unfold get_matching_blocks.
  replace (2 * len a + 1) with (S (2 * len a)) by lia.
  simpl matching_blocks_loop; rewrite find_longest_match_self.
  change (0 + len a) with (len a); rewrite Nat.ltb_irrefl.
  change ((0 <? 0) && (0 <? 0)) with false; cbv iota; simpl andb; cbv iota.
  destruct (len a) as [|n]; simpl Nat.eqb; cbv iota.
  - destruct (0 + (0 + 0)); reflexivity.
  - destruct (S n + (S n + 0)); simpl; lia.
Qed.

End Self.

(** ** The quick ratio of a string with itself *)

Lemma count_in_app (elt : N) (s t : str) :
  count_in elt (s ++ t) = count_in elt s + count_in elt t.
Proof. unfold count_in; rewrite filter_app, length_app; reflexivity. Qed.

Lemma count_in_cons (elt c : N) (s : str) :
  count_in elt (c :: s)
  = (if (c =? elt)%N then 1 else 0) + count_in elt s.
Proof. unfold count_in; simpl; destruct (c =? elt)%N; reflexivity. Qed.

Lemma quick_matches_self (b : str) :
  forall rest pre avail matches,
    b = pre ++ rest -> tracks b pre avail ->
    quick_matches b rest avail matches = matches + len rest.
Proof.
  induction rest as [|elt rest IH]; intros pre avail matches Hb Ht; simpl;
    [lia|].
  set (numb := match avail_get avail elt with
               | Some numb => numb
               | None => Z.of_nat (count_in elt b)
               end).
  assert (Hn : numb
               = (Z.of_nat (count_in elt b) - Z.of_nat (count_in elt pre))%Z).
  { subst numb; specialize (Ht elt).
    destruct (avail_get avail elt); [exact Ht | rewrite Ht; lia]. }
  assert (Hc : count_in elt b
               = count_in elt pre + 1 + count_in elt rest).
  { rewrite Hb, count_in_app, count_in_cons, N.eqb_refl; lia. }
  replace (0 <? numb)%Z with true by (symmetry; apply Z.ltb_lt; lia).
  rewrite (IH (pre ++ [elt]) ((elt, (numb - 1)%Z) :: avail) (matches + 1)).
  - lia.
  - rewrite <- app_assoc; exact Hb.
  - intros x; unfold avail_get; simpl.
    rewrite count_in_app, count_in_cons.
    destruct (elt =? x)%N eqn:E.
    + apply N.eqb_eq in E; subst x; change (count_in elt []) with 0; lia.
    + specialize (Ht x); unfold avail_get in Ht.
      change (count_in x []) with 0.
      destruct (find (fun entry => (fst entry =? x)%N) avail) as [[y k]|];
        lia.
Qed.

(** ** A string is close to itself *)

Lemma calculate_ratio_whole (n : nat) :
  (calculate_ratio n (n + n) == 1)%Q.
Proof.
  destruct n as [|n]; [reflexivity|].
  unfold calculate_ratio.
  change (S n + S n) with (S (n + S n)).
  unfold Qeq; cbn [Qnum Qden].
  assert (H : Z.pos (Pos.of_nat (S (n + S n))) = Z.of_nat (S (n + S n)))
    by lia.
  rewrite H; lia.
Qed.

Lemma close_enough_self (c : Q) (a : str) :
  (c <= 1)%Q -> len a < 200 -> close_enough c a a = true.
Proof.
  intros Hc Hshort; unfold close_enough, real_quick_ratio, quick_ratio, ratio.
  rewrite (@matching_blocks_self a Hshort), Nat.min_id.
  rewrite (@quick_matches_self a a [] [] 0 eq_refl)
    by (intros elt; reflexivity).
  simpl plus.
  assert (H : Qle_bool c (calculate_ratio (len a) (len a + len a)) = true).
  { apply Qle_bool_iff; rewrite calculate_ratio_whole; exact Hc. }
  rewrite H; reflexivity.
Qed.

End SelfMatch.

(* ===================================================================== *)
(** * Matching blocks are matches *)
(* ===================================================================== *)

Module BlockFacts.

Import Difflib Spec Terms DifflibFacts SelfMatch.

Lemma indices_from_item (elt : N) (s : str) :
  forall i j, In j (indices_from elt s i) -> item s (j - i) = elt.
Proof.
  induction s as [|c s IH]; intros i j H; simpl in *; [contradiction|].
  destruct (c =? elt)%N eqn:E.
  - destruct H as [H|H].
    + subst j; rewrite Nat.sub_diag; apply N.eqb_eq in E; exact E.
    + pose proof (indices_from_bounds _ _ _ _ H) as Hb.
      replace (j - i) with (S (j - S i)) by lia.
      exact (IH _ _ H).
  - pose proof (indices_from_bounds _ _ _ _ H) as Hb.
    replace (j - i) with (S (j - S i)) by lia.
    exact (IH _ _ H).
Qed.

Section Blocks.

Variables a b : str.

Lemma b2j_get_item (elt : N) (j : nat) :
  In j (b2j_get b elt) -> item b j = elt.
Proof.
  unfold b2j_get; destruct (bpopular b elt); [intros []|].
  intros H; apply indices_from_item in H.
  rewrite Nat.sub_0_r in H; exact H.
Qed.

Lemma j2len_get_ended (alo blo bhi i : nat) (j2len : list (nat * nat))
    (j : nat) :
  Forall (ended a b alo blo bhi i) j2len ->
  j2len_get j2len j = 0 \/ ended a b alo blo bhi i (j, j2len_get j2len j).
Proof.
  intros H; unfold j2len_get.
  destruct (find (fun entry => fst entry =? j) j2len) as [[j' k]|] eqn:E;
    [|left; reflexivity].
  apply find_some in E as [Hin Hj]; simpl in Hj; apply Nat.eqb_eq in Hj.
  subst j'; right; rewrite Forall_forall in H; exact (H _ Hin).
Qed.

Lemma scan_row_good (alo ahi blo bhi i : nat) (j2len : list (nat * nat))
    (js : list nat) :
  alo <= i -> i < ahi ->
  Forall (ended a b alo blo bhi i) j2len ->
  (forall j, In j js -> item b j = item a i) ->
  forall newj2len best,
    Forall (ended a b alo blo bhi (S i)) newj2len ->
    good a b alo ahi blo bhi best ->
    Forall (ended a b alo blo bhi (S i))
      (fst (scan_row i blo bhi j2len js newj2len best)) /\
    good a b alo ahi blo bhi
      (snd (scan_row i blo bhi j2len js newj2len best)).
Proof.
  intros Hlo Hhi Hold.
  induction js as [|j js IH]; intros Hjs newj2len best Hnew Hbest; simpl;
    [split; assumption|].
  assert (Hjs' : forall j', In j' js -> item b j' = item a i)
    by (intros j' Hj'; apply Hjs; right; exact Hj').
  destruct (j <? blo) eqn:E1; [apply IH; assumption|].
  destruct (bhi <=? j) eqn:E2; [split; assumption|].
  apply Nat.ltb_ge in E1; apply Nat.leb_gt in E2.
  set (prev := match j with O => 0 | S j1 => j2len_get j2len j1 end).
  assert (Hprev : prev <= i - alo /\ prev <= j - blo /\
                  agree a b (i - prev) (j - prev) prev).
  { subst prev; destruct j as [|j1].
    - repeat split; try lia; intros t Ht; lia.
    - destruct (@j2len_get_ended alo blo bhi i j2len j1 Hold) as [H|H].
      + rewrite H; repeat split; try lia; intros t Ht; lia.
      + destruct H as [H1 [H2 [H3 [H4 H5]]]].
        repeat split; try lia.
        replace (S j1 - j2len_get j2len j1)
          with (j1 + 1 - j2len_get j2len j1) by lia.
        exact H5. }
  destruct Hprev as [Hp1 [Hp2 Hp3]].
  assert (Hk : agree a b (i + 1 - (prev + 1)) (j + 1 - (prev + 1))
                 (prev + 1)).
  { intros t Ht.
    replace (i + 1 - (prev + 1)) with (i - prev) by lia.
    replace (j + 1 - (prev + 1)) with (j - prev) by lia.
    destruct (Nat.lt_ge_cases t prev) as [Hlt|Hge]; [exact (Hp3 t Hlt)|].
    replace t with prev by lia.
    replace (i - prev + prev) with i by lia.
    replace (j - prev + prev) with j by lia.
    symmetry; apply Hjs; left; reflexivity. }
  destruct best as [[bi bj] bs].
  apply IH; [exact Hjs'| |].
  - constructor; [|exact Hnew].
    unfold ended; repeat split; try lia.
    replace (S i - (prev + 1)) with (i + 1 - (prev + 1)) by lia.
    exact Hk.
  - destruct (bs <? prev + 1); [|exact Hbest].
    unfold good; repeat split; try lia; exact Hk.
Qed.

Lemma scan_rows_good (alo ahi blo bhi : nat) (n : nat) :
  forall (r : nat) (j2len : list (nat * nat)) (best : Match),
    alo <= r -> r + n <= ahi ->
    Forall (ended a b alo blo bhi r) j2len ->
    good a b alo ahi blo bhi best ->
    good a b alo ahi blo bhi (scan_rows a b (seq r n) blo bhi j2len best).
Proof.
  induction n as [|n IH]; intros r j2len best Hr Hn Hold Hbest; simpl;
    [exact Hbest|].
  pose proof (@scan_row_good alo ahi blo bhi r j2len
                (b2j_get b (item a r)) Hr ltac:(lia) Hold
                (fun j => @b2j_get_item (item a r) j)
                [] best (Forall_nil _) Hbest) as [H1 H2].
  destruct (scan_row r blo bhi j2len (b2j_get b (item a r)) [] best)
    as [newj2len best']; simpl in *.
  apply IH; try assumption; lia.
Qed.

Lemma extend_left_good (alo ahi blo bhi : nat) :
  forall besti bestj bestsize,
    good a b alo ahi blo bhi (besti, bestj, bestsize) ->
    good a b alo ahi blo bhi (extend_left a b alo blo besti bestj bestsize).
Proof.
  induction besti as [|i1 IH]; intros bestj bestsize H; simpl; [exact H|].
  destruct bestj as [|j1]; [exact H|].
  destruct ((alo <? S i1) && (blo <? S j1) && (item a i1 =? item b j1)%N)
    eqn:E; [|exact H].
  apply andb_true_iff in E as [E E3]; apply andb_true_iff in E as [E1 E2].
  apply Nat.ltb_lt in E1, E2; apply N.eqb_eq in E3.
  destruct H as [H1 [H2 [H3 [H4 H5]]]].
  apply IH; unfold good in *; repeat split; try lia.
  intros [|t] Ht.
  - rewrite !Nat.add_0_r; exact E3.
  - replace (i1 + S t) with (S i1 + t) by lia.
    replace (j1 + S t) with (S j1 + t) by lia.
    apply H5; lia.
Qed.

Lemma extend_right_good (alo ahi blo bhi besti bestj : nat) :
  forall steps bestsize,
    good a b alo ahi blo bhi (besti, bestj, bestsize) ->
    good a b alo ahi blo bhi
      (besti, bestj, extend_right a b steps ahi bhi besti bestj bestsize).
Proof.
  induction steps as [|steps IH]; intros bestsize H; simpl; [exact H|].
  destruct ((besti + bestsize <? ahi) && (bestj + bestsize <? bhi) &&
            (item a (besti + bestsize) =? item b (bestj + bestsize))%N)
    eqn:E; [|exact H].
  apply andb_true_iff in E as [E E3]; apply andb_true_iff in E as [E1 E2].
  apply Nat.ltb_lt in E1, E2; apply N.eqb_eq in E3.
  destruct H as [H1 [H2 [H3 [H4 H5]]]].
  apply IH; unfold good in *; repeat split; try lia.
  intros t Ht.
  destruct (Nat.lt_ge_cases t bestsize) as [Hlt|Hge]; [exact (H5 t Hlt)|].
  replace t with bestsize by lia; exact E3.
Qed.

Lemma find_longest_match_good (alo ahi blo bhi : nat) :
  alo <= ahi -> blo <= bhi ->
  good a b alo ahi blo bhi (find_longest_match a b alo ahi blo bhi).
Proof.
  intros Ha Hb; unfold find_longest_match.
  assert (H0 : good a b alo ahi blo bhi (alo, blo, 0)).
  { unfold good; repeat split; try lia; intros t Ht; lia. }
  pose proof (@scan_rows_good alo ahi blo bhi (ahi - alo) alo []
                (alo, blo, 0) (le_n _) ltac:(lia) (Forall_nil _) H0) as H1.
  destruct (scan_rows a b (seq alo (ahi - alo)) blo bhi [] (alo, blo, 0))
    as [[bi bj] bs].
  pose proof (@extend_left_good alo ahi blo bhi bi bj bs H1) as H2.
  destruct (extend_left a b alo blo bi bj bs) as [[bi' bj'] bs'].
  apply extend_right_good; exact H2.
Qed.

Lemma agree_join (i j k1 k2 : nat) :
  agree a b i j k1 -> agree a b (i + k1) (j + k1) k2 ->
  agree a b i j (k1 + k2).
Proof.
  intros H1 H2 t Ht.
  destruct (Nat.lt_ge_cases t k1) as [Hlt|Hge]; [exact (H1 t Hlt)|].
  replace (i + t) with (i + k1 + (t - k1)) by lia.
  replace (j + t) with (j + k1 + (t - k1)) by lia.
  apply H2; lia.
Qed.

Lemma agree_0 (i j : nat) : agree a b i j 0.
Proof. intros t Ht; lia. Qed.

Lemma capacity_le (queue : list (nat * nat * nat * nat)) :
  capacity queue <= width_a queue /\ capacity queue <= width_b queue.
Proof.
  induction queue as [|[[[alo ahi] blo] bhi] queue [IH1 IH2]]; simpl;
    lia.
Qed.

Lemma size_app (l1 l2 : list Match) : size (l1 ++ l2) = size l1 + size l2.
Proof. unfold size; rewrite map_app, list_sum_app; reflexivity. Qed.

Lemma matching_blocks_loop_size (fuel : nat) :
  forall queue acc blocks,
    Forall window_ok queue ->
    matching_blocks_loop a b fuel queue acc = Some blocks ->
    exists extra,
      size blocks = size acc + extra /\
      extra <= capacity queue /\
      (width_a queue <= extra -> width_b queue <= extra ->
       Forall (full a b) queue).
Proof.
  induction fuel as [|fuel IH]; intros queue acc blocks Hq Hloop.
  - destruct queue as [|[[[alo ahi] blo] bhi] queue']; simpl in Hloop;
      [|discriminate].
    injection Hloop as <-; exists 0; repeat split; auto; lia.
  - destruct queue as [|[[[alo ahi] blo] bhi] queue'].
    { simpl in Hloop; injection Hloop as <-; exists 0; repeat split; auto;
        lia. }
    inversion Hq as [|? ? Hw Hq']; subst.
    unfold window_ok in Hw; destruct Hw as [Hwa Hwb].
    pose proof (@find_longest_match_good alo ahi blo bhi Hwa Hwb) as Hgood.
    cbn [matching_blocks_loop] in Hloop.
    destruct (find_longest_match a b alo ahi blo bhi) as [[i j] k].
    destruct Hgood as [G1 [G2 [G3 [G4 G5]]]].
    destruct (capacity_le queue') as [Hc1 Hc2].
    destruct (k =? 0) eqn:Ek.
    + destruct (IH queue' acc blocks Hq' Hloop) as [extra [H1 [H2 H3]]].
      exists extra; split; [exact H1|]; split;
        [cbn [capacity]; lia|].
      cbn [width_a width_b]; intros Ha Hb.
      constructor; [|apply H3; lia].
      unfold full; split; [lia|].
      replace (ahi - alo) with 0 by lia; apply agree_0.
    + apply Nat.eqb_neq in Ek.
      set (lower_part := (alo <? i) && (blo <? j)) in *.
      set (upper_part := (i + k <? ahi) && (j + k <? bhi)) in *.
      set (queue1 := if lower_part then (alo, i, blo, j) :: queue' else queue')
        in *.
      set (queue2 := if upper_part then (i + k, ahi, j + k, bhi) :: queue1
                     else queue1) in *.
      assert (Hleft : lower_part = false -> i - alo = 0 \/ j - blo = 0).
      { subst lower_part; intros H; apply andb_false_iff in H as [H|H];
          apply Nat.ltb_ge in H; lia. }
      assert (Hright : upper_part = false ->
                       ahi - (i + k) = 0 \/ bhi - (j + k) = 0).
      { subst upper_part; intros H; apply andb_false_iff in H as [H|H];
          apply Nat.ltb_ge in H; lia. }
      assert (F1 : Forall window_ok queue2).
      { subst queue2 queue1; destruct upper_part, lower_part;
          repeat (constructor; [unfold window_ok; lia|]); exact Hq'. }
      assert (F2 : capacity queue2
                   = Nat.min (ahi - (i + k)) (bhi - (j + k)) +
                     Nat.min (i - alo) (j - blo) + capacity queue').
      { subst queue2 queue1; destruct upper_part, lower_part; cbn [capacity];
          try specialize (Hleft eq_refl);
          try specialize (Hright eq_refl); lia. }
      assert (F3 : width_a queue2
                   <= (ahi - (i + k)) + (i - alo) + width_a queue' /\
                   width_b queue2
                   <= (bhi - (j + k)) + (j - blo) + width_b queue').
      { subst queue2 queue1; destruct upper_part, lower_part;
          cbn [width_a width_b]; lia. }
      assert (F4 : Forall (full a b) queue2 ->
                   Forall (full a b) queue' /\
                   (lower_part = true -> full a b (alo, i, blo, j)) /\
                   (upper_part = true -> full a b (i + k, ahi, j + k, bhi))).
      { subst queue2 queue1; destruct upper_part, lower_part; intros H;
          repeat match goal with
                 | H : Forall _ (_ :: _) |- _ =>
                     let x := fresh "Hx" in
                     let y := fresh "Hy" in
                     inversion H as [|? ? x y]; subst; clear H
                 end;
          (split; [assumption|];
           split; intros E; first [discriminate E | assumption]). }
      destruct (IH queue2 (acc ++ [(i, j, k)]) blocks F1 Hloop)
        as [extra [H1 [H2 H3]]].
      exists (k + extra); split;
        [rewrite H1, size_app; unfold size; simpl; lia|].
      split; [cbn [capacity]; lia|].
      cbn [width_a width_b]; intros Ha Hb.
      destruct F3 as [F3a F3b].
      destruct (F4 (H3 ltac:(lia) ltac:(lia))) as [Hfq [Hfl Hfr]].
      constructor; [|exact Hfq].
      assert (El : i - alo = j - blo) by lia.
      assert (Er : ahi - (i + k) = bhi - (j + k)) by lia.
      unfold full; split; [lia|].
      replace (ahi - alo) with ((i - alo) + (k + (ahi - (i + k)))) by lia.
      apply agree_join; [|apply agree_join].
      * destruct lower_part eqn:E.
        -- exact (proj2 (Hfl eq_refl)).
        -- replace (i - alo) with 0 by (specialize (Hleft eq_refl); lia).
           apply agree_0.
      * replace (alo + (i - alo)) with i by lia.
        replace (blo + (i - alo)) with j by lia.
        exact G5.
      * replace (alo + (i - alo) + k) with (i + k) by lia.
        replace (blo + (i - alo) + k) with (j + k) by lia.
        destruct upper_part eqn:E.
        -- exact (proj2 (Hfr eq_refl)).
        -- replace (ahi - (i + k)) with 0
             by (specialize (Hright eq_refl); lia).
           apply agree_0.
Qed.

(** ** The sum of the sizes *)

Lemma fold_size (blocks : list Match) :
  forall total,
    fold_left (fun total triple => total + snd triple) blocks total
    = total + size blocks.
Proof.
  induction blocks as [|m blocks IH]; intros total; simpl;
    [unfold size; simpl; lia|].
  rewrite IH; unfold size; simpl; lia.
Qed.

Lemma size_insert_match (x : Match) (sorted : list Match) :
  size (insert_match x sorted) = snd x + size sorted.
Proof.
  induction sorted as [|y rest IH]; simpl; [reflexivity|].
  destruct (match_ltb x y); [reflexivity|].
  unfold size in *; simpl; rewrite IH; lia.
Qed.

Lemma size_sort_matches (l : list Match) : size (sort_matches l) = size l.
Proof.
  unfold sort_matches.
  assert (H : forall acc,
             size (fold_left (fun sorted x => insert_match x sorted) l acc)
             = size l + size acc).
  { induction l as [|x l IH]; intros acc; simpl; [reflexivity|].
    rewrite IH, size_insert_match; unfold size; simpl; lia. }
  rewrite H; unfold size; simpl; lia.
Qed.

Lemma size_merge_adjacent (blocks : list Match) :
  forall i1 j1 k1 non_adjacent,
    size (merge_adjacent blocks i1 j1 k1 non_adjacent)
    = size non_adjacent + k1 + size blocks.
Proof.
  induction blocks as [|[[i2 j2] k2] rest IH]; intros i1 j1 k1 na; simpl.
  - destruct (k1 =? 0) eqn:E.
    + apply Nat.eqb_eq in E; unfold size; simpl; lia.
    + rewrite size_app; unfold size; simpl; lia.
  - destruct ((i1 + k1 =? i2) && (j1 + k1 =? j2)).
    + rewrite IH; unfold size; simpl; lia.
    + rewrite IH; destruct (k1 =? 0) eqn:E.
      * apply Nat.eqb_eq in E; unfold size; simpl; lia.
      * rewrite size_app; unfold size; simpl; lia.
Qed.

(** Two strings whose ratio reaches 1 are the same string. *)
Lemma ratio_whole_eq : (1 <= ratio a b)%Q -> a = b.
Proof.
  unfold ratio; rewrite fold_size; simpl plus.
  set (matches := size (get_matching_blocks a b)).
  assert (Hm : matches <= Nat.min (len a) (len b) /\
               (len a <= matches -> len b <= matches ->
                full a b (0, len a, 0, len b))).
  { subst matches; unfold get_matching_blocks.
    destruct (matching_blocks_loop a b (2 * len a + 1)
                [(0, len a, 0, len b)] []) as [blocks|] eqn:E.
    - rewrite size_app, size_merge_adjacent, size_sort_matches.
      destruct (@matching_blocks_loop_size (2 * len a + 1)
                  [(0, len a, 0, len b)] [] blocks
                  ltac:(repeat constructor; unfold window_ok; lia) E)
        as [extra [H1 [H2 H3]]].
      cbn [capacity width_a width_b] in *.
      unfold size in *; simpl in *.
      split; [lia|].
      intros Ha Hb.
      assert (Hf : Forall (full a b) [(0, len a, 0, len b)])
        by (apply H3; lia).
      inversion Hf; assumption.
    - unfold size; simpl; split; [lia|].
      intros Ha Hb; unfold full.
      replace (len a - 0) with 0 by lia; split; [lia | apply agree_0]. }
  destruct Hm as [Hm1 Hm2].
  unfold calculate_ratio.
  destruct (len a + len b) as [|n] eqn:El.
  - intros _.
    destruct a, b; simpl in El; try discriminate; reflexivity.
  - unfold Qle; cbn [Qnum Qden]; intros H.
    assert (Hp : Z.pos (Pos.of_nat (S n)) = Z.of_nat (S n)) by lia.
    rewrite Hp in H.
    destruct (Hm2 ltac:(lia) ltac:(lia)) as [Hlen Hag].
    apply (nth_ext a b 0%N 0%N); [unfold len in *; lia|].
    intros t Ht.
    replace (len a - 0) with (len a) in Hag by lia.
    exact (Hag t Ht).
Qed.

End Blocks.

(** ** The best of the close matches *)

Lemma scored_ltb_true (p q : Q * str) :
  scored_ltb p q = true -> (fst p <= fst q)%Q.
Proof.
  unfold scored_ltb; intros H; apply Qle_alt; intros E; rewrite E in H.
  discriminate H.
Qed.

Lemma scored_ltb_false (p q : Q * str) :
  scored_ltb p q = false -> (fst q <= fst p)%Q.
Proof.
  unfold scored_ltb; intros H; apply Qle_alt.
  rewrite <- Qcompare_antisym; intros E.
  destruct (fst p ?= fst q)%Q; try discriminate.
Qed.

Lemma insert_scored_by_score (x : Q * str) (sorted : list (Q * str)) :
  by_score sorted -> by_score (insert_scored x sorted).
Proof.
  unfold by_score; induction sorted as [|y rest IH]; intros H; simpl.
  - constructor; [constructor | constructor].
  - inversion H as [|? ? Hrest Hy]; subst.
    destruct (scored_ltb y x) eqn:E.
    + constructor; [exact H|].
      apply scored_ltb_true in E.
      constructor; [exact E|].
      rewrite Forall_forall in *; intros z Hz.
      exact (Qle_trans _ _ _ (Hy z Hz) E).
    + constructor; [exact (IH Hrest)|].
      apply scored_ltb_false in E.
      rewrite Forall_forall in *; intros z Hz.
      apply insert_scored_In in Hz as [->|Hz]; [exact E | exact (Hy z Hz)].
Qed.

Lemma fold_insert_scored_by_score (result : list (Q * str)) :
  forall acc,
    by_score acc ->
    by_score (fold_left (fun sorted x => insert_scored x sorted) result acc).
Proof.
  induction result as [|x rest IH]; intros acc H; simpl; [exact H|].
  apply IH, insert_scored_by_score, H.
Qed.

(** With [n=1], a word that is among the possibilities is the one close
    match returned (words under 200 characters). *)
Lemma get_close_matches_exact (word : str) (possibilities : list str)
    (c : Q) :
  In word possibilities -> len word < 200 -> (c <= 1)%Q ->
  get_close_matches word possibilities 1 c = [word].
Proof.
  intros Hin Hlen Hc.
  pose proof (@close_enough_self c word Hc Hlen) as Hclose.
  unfold get_close_matches, nlargest.
  set (result := flat_map _ possibilities).
  assert (Hr : In (ratio word word, word) result).
  { apply in_flat_map; exists word; split; [exact Hin|].
    rewrite Hclose; left; reflexivity. }
  assert (Hall : forall y, In y result -> fst y = ratio (snd y) word).
  { intros [s x] Hy; apply in_flat_map in Hy as [z [Hz Hy]].
    destruct (close_enough c word z); [|destruct Hy].
    destruct Hy as [Hy|[]]; injection Hy as <- <-; reflexivity. }
  pose proof (@fold_insert_scored_by_score result []
                (SSorted_nil _)) as Hs.
  assert (Hi : forall y,
             In y (fold_left (fun sorted x => insert_scored x sorted)
                     result [])
             <-> In y result).
  { intros y; rewrite sorted_In; simpl; tauto. }
  destruct (fold_left (fun sorted x => insert_scored x sorted) result [])
    as [|[s x] rest] eqn:E.
  - exfalso; exact (proj2 (Hi _) Hr).
  - simpl; f_equal.
    assert (Hx : In (s, x) result) by (apply Hi; left; reflexivity).
    apply Hall in Hx; simpl in Hx; subst s.
    apply ratio_whole_eq.
    assert (Hone : (ratio word word == 1)%Q).
    { unfold ratio.
      rewrite (@matching_blocks_self word Hlen).
      apply calculate_ratio_whole. }
    rewrite <- Hone.
    destruct (proj2 (Hi _) Hr) as [H|H].
    + injection H as -> _; apply Qle_refl.
    + inversion Hs as [|? ? _ Hhead]; subst.
      rewrite Forall_forall in Hhead; exact (Hhead _ H).
Qed.

End BlockFacts.

(* ===================================================================== *)
(** * Stripping and dictionaries *)
(* ===================================================================== *)

Module DataFacts.

Import App PyStrFacts.

(** ** [strip] *)

Lemma lstrip_split (s : str) :
  exists spaces,
    s = spaces ++ lstrip s /\ Forall (fun c => isspace_cp c = true) spaces.
Proof.
  induction s as [|c s [spaces [E H]]]; [exists []; split; auto|].
  simpl; destruct (isspace_cp c) eqn:Ec.
  - exists (c :: spaces); split; [simpl; f_equal; exact E|].
    constructor; assumption.
  - exists []; split; [reflexivity | constructor].
Qed.

(** A string that does not start with a space is left as it is. *)
Lemma lstrip_fixed (s : str) :
  match s with [] => True | c :: _ => isspace_cp c = false end ->
  lstrip s = s.
Proof. destruct s as [|c s]; simpl; [reflexivity | intros ->; reflexivity]. Qed.

Lemma lstrip_head (s : str) :
  match lstrip s with [] => True | c :: _ => isspace_cp c = false end.
Proof.
  induction s as [|c s IH]; simpl; [exact I|].
  destruct (isspace_cp c) eqn:E; [exact IH | exact E].
Qed.

Lemma lstrip_idem (s : str) : lstrip (lstrip s) = lstrip s.
Proof. apply lstrip_fixed, lstrip_head. Qed.

Lemma rstrip_idem (s : str) : rstrip (rstrip s) = rstrip s.
Proof.
  unfold rstrip; rewrite rev_involutive, lstrip_idem; reflexivity.
Qed.

(** Removing trailing spaces keeps the first character. *)
Lemma rstrip_head (s : str) :
  match s with [] => True | c :: _ => isspace_cp c = false end ->
  match rstrip s with [] => True | c :: _ => isspace_cp c = false end.
Proof.
  intros Hs; unfold rstrip.
  destruct (lstrip_split (rev s)) as [spaces [E Hsp]].
  assert (Es : s = rev (lstrip (rev s)) ++ rev spaces).
  { rewrite <- rev_app_distr, <- E, rev_involutive; reflexivity. }
  destruct (rev (lstrip (rev s))) as [|c t]; [exact I|].
  rewrite Es in Hs; exact Hs.
Qed.

(** [strip] is idempotent. *)
Lemma strip_idem (s : str) : strip (strip s) = strip s.
Proof.
  unfold strip.
  rewrite (lstrip_fixed (rstrip (lstrip s)))
    by (apply rstrip_head, lstrip_head).
  apply rstrip_idem.
Qed.

(** ** Dictionaries *)

Lemma dict_get_set_same (key value : str) (d : dict) :
  dict_get key (dict_set key value d) = Some value.
Proof.
  induction d as [|[k v] rest IH]; simpl.
  - rewrite eqb_refl; reflexivity.
  - destruct (PyStr.eqb k key) eqn:E; simpl; rewrite E; [reflexivity | exact IH].
Qed.

Lemma dict_get_set_other (key other value : str) (d : dict) :
  key <> other ->
  dict_get other (dict_set key value d) = dict_get other d.
Proof.
  intros Hne; induction d as [|[k v] rest IH]; simpl.
  - replace (PyStr.eqb key other) with false
      by (symmetry; apply eqb_neq; exact Hne).
    reflexivity.
  - destruct (PyStr.eqb k key) eqn:E; simpl.
    + apply eqb_eq in E; subst k.
      replace (PyStr.eqb key other) with false
        by (symmetry; apply eqb_neq; exact Hne).
      reflexivity.
    + destruct (PyStr.eqb k other); [reflexivity | exact IH].
Qed.

Lemma dict_set_idem (key value : str) (d : dict) :
  dict_set key value (dict_set key value d) = dict_set key value d.
Proof.
  induction d as [|[k v] rest IH]; simpl.
  - rewrite eqb_refl; reflexivity.
  - destruct (PyStr.eqb k key) eqn:E; simpl; rewrite E;
      [reflexivity | rewrite IH; reflexivity].
Qed.

(** Setting a key keeps the keys in place, or adds the key at the end. *)
Lemma dict_keys_set (key value : str) (d : dict) :
  (In key (dict_keys d) ->
   dict_keys (dict_set key value d) = dict_keys d) /\
  (~ In key (dict_keys d) ->
   dict_keys (dict_set key value d) = dict_keys d ++ [key]).
Proof.
  induction d as [|[k v] rest [IH1 IH2]]; simpl.
  - split; [intros [] | reflexivity].
  - destruct (PyStr.eqb k key) eqn:E; simpl.
    + apply eqb_eq in E; subst k.
      split; [reflexivity | intros H; exfalso; apply H; left; reflexivity].
    + apply eqb_neq in E; split.
      * intros [H|H]; [contradiction | rewrite (IH1 H); reflexivity].
      * intros H; rewrite IH2; [reflexivity | intros H'; apply H; right; exact H'].
Qed.

Lemma dict_keys_set_NoDup (key value : str) (d : dict) :
  NoDup (dict_keys d) -> NoDup (dict_keys (dict_set key value d)).
Proof.
  intros Hd; destruct (dict_keys_set key value d) as [H1 H2].
  destruct (in_dec (list_eq_dec N.eq_dec) key (dict_keys d)) as [Hin|Hout].
  - rewrite (H1 Hin); exact Hd.
  - rewrite (H2 Hout).
    apply NoDup_rev in Hd; rewrite <- (rev_involutive (dict_keys d ++ [key])).
    apply NoDup_rev; rewrite rev_app_distr; simpl.
    constructor; [rewrite <- in_rev; exact Hout | exact Hd].
Qed.

End DataFacts.

(* ===================================================================== *)
(** * More facts about app.py *)
(* ===================================================================== *)

Module RequestFacts.

Import Difflib App Spec Terms Startup PyStrFacts DifflibFacts AppFacts
  SelfMatch BlockFacts DataFacts.

(** ** Relations that every step of a request respects *)

Section Frame.

Variable R : Globals -> Globals -> Prop.

Hypothesis R_refl : forall g, R g g.

Hypothesis R_trans : forall g1 g2 g3, R g1 g2 -> R g2 g3 -> R g1 g3.

Lemma respects_ret (A : Type) (a : A) : respects R (ret a).
Proof. intros g; apply R_refl. Qed.

Lemma respects_raise (A : Type) (e : Exception) : respects R (@raise A e).
Proof. intros g; apply R_refl. Qed.

Lemma respects_get_globals : respects R get_globals.
Proof. intros g; apply R_refl. Qed.

Lemma respects_bind (A B : Type) (m : M A) (k : A -> M B) :
  respects R m -> (forall a, respects R (k a)) -> respects R (bind m k).
Proof.
  intros Hm Hk g; unfold bind; specialize (Hm g).
  destruct (m g) as [[a|e] g']; simpl in *; [|exact Hm].
  exact (R_trans Hm (Hk a g')).
Qed.

Lemma respects_try_except (A : Type) (body handler : M A)
    (catches : Exception -> bool) :
  respects R body -> respects R handler ->
  respects R (try_except body catches handler).
Proof.
  intros Hb Hh g; unfold try_except; specialize (Hb g).
  destruct (body g) as [[a|e] g']; simpl in *; [exact Hb|].
  destruct (catches e); [exact (R_trans Hb (Hh g')) | exact Hb].
Qed.

Lemma respects_external (A : Type) (c : Call) (o : Outcome A) :
  allows R c -> respects R (external c o).
Proof. intros H g; exact (H g). Qed.

Lemma respects_py_or (x y : M (option str)) :
  respects R x -> respects R y -> respects R (py_or x y).
Proof.
  intros Hx Hy; unfold py_or; apply respects_bind; [exact Hx|].
  intros v; destruct (truthy_opt v); [apply respects_ret | exact Hy].
Qed.

Lemma respects_py_or_str (x : M (option str)) (y : M str) :
  respects R x -> respects R y -> respects R (py_or_str x y).
Proof.
  intros Hx Hy; unfold py_or_str; apply respects_bind; [exact Hx|].
  intros [s|]; [destruct (truthy s)|]; try exact Hy; apply respects_ret.
Qed.

(** The relation follows the shape of the computation. *)
Ltac respects_step :=
  match goal with
  | |- forall _, _ => intro
  | |- respects R (bind _ _) => apply respects_bind
  | |- respects R (try_except _ _ _) => apply respects_try_except
  | |- respects R (py_or _ _) => apply respects_py_or
  | |- respects R (py_or_str _ _) => apply respects_py_or_str
  | |- respects R (ret _) => apply respects_ret
  | |- respects R (raise _) => apply respects_raise
  | |- respects R get_globals => apply respects_get_globals
  | |- respects R (external _ _) => apply respects_external; assumption
  | |- respects R (match ?x with _ => _ end) => destruct x
  | |- respects R _ => assumption
  end.

Variable rt : Runtime.

Lemma respects_search_intents (q : str) : respects R (search_intents q).
Proof. intros g; apply R_refl. Qed.

Lemma respects_working_answer (q : str) :
  respects R (working_answer rt q).
Proof.
  unfold working_answer, local_answer, search_local_questions,
    fuzzy_match_question, elaborate.
  apply respects_bind; [|repeat respects_step].
  apply respects_bind; [apply respects_search_intents|].
  repeat respects_step.
Qed.

Lemma respects_normalize (user_message : str) :
  allows R (Detect user_message) ->
  allows R (Translate AUTO AR user_message) ->
  respects R (normalize rt user_message).
Proof. intros Hd Ht; unfold normalize; repeat respects_step. Qed.

Lemma respects_fallback_cascade (q : str) :
  allows R (WikipediaSummary q) ->
  allows R (GeminiGenerate (GEMINI_PROMPT ++ q)) ->
  allows R (DuckDuckGoText q) ->
  respects R (fallback_cascade rt q).
Proof.
  intros Hw Hg Hd.
  unfold fallback_cascade, search_wikipedia, search_gemini,
    search_duckduckgo; repeat respects_step.
Qed.

Lemma respects_denormalize (lang b : str) :
  PyStr.eqb lang AR = true \/ allows R (Translate AR lang b) ->
  respects R (denormalize rt lang b).
Proof.
  intros H; unfold denormalize.
  destruct (PyStr.eqb lang AR); [apply respects_ret|].
  destruct H as [H|H]; [discriminate H|].
  apply respects_external; exact H.
Qed.

Hypothesis R_set :
  forall d g,
    R g {| questions_data := d;
           intents_data := intents_data g;
           last_user_tag := last_user_tag g;
           calls := calls g |}.

Hypothesis R_dump : forall d, allows R (DumpQuestions d).

Lemma respects_save_question (q a : str) :
  respects R (save_question rt q a).
Proof.
  unfold save_question.
  destruct (is_valid_question rt q && negb (mem a NON_ANSWERS));
    [|apply respects_ret].
  apply respects_bind; [apply respects_get_globals|]; intros g0.
  apply respects_bind; [intros g; apply R_set|]; intros _.
  apply respects_external; apply R_dump.
Qed.

(** A whole answer (lines 130-149), when the cascade is either not run or
    allowed, and the translation back is either not needed or allowed. *)
Lemma respects_answer (lang q : str) :
  is_question_about_museum rt q = false \/
  (allows R (WikipediaSummary q) /\
   allows R (GeminiGenerate (GEMINI_PROMPT ++ q)) /\
   allows R (DuckDuckGoText q)) ->
  PyStr.eqb lang AR = true \/ (forall b, allows R (Translate AR lang b)) ->
  respects R (answer rt lang q).
Proof.
  intros Hout Hback; unfold answer.
  apply respects_bind; [apply respects_working_answer|]; intros bot.
  apply respects_bind.
  - assert (Hlook : respects R (look_outside rt q)).
    { unfold look_outside, outside_answer.
      apply respects_bind.
      - destruct (is_question_about_museum rt q);
          [|apply respects_ret].
        destruct Hout as [Hout|[Hw [Hg Hd]]]; [discriminate Hout|].
        apply respects_fallback_cascade; assumption.
      - intros found; apply respects_bind;
          [apply respects_save_question | intros _; apply respects_ret]. }
    unfold resolve; destruct bot as [a|]; [|exact Hlook].
    destruct (no_answer rt (Some a)); [exact Hlook | apply respects_ret].
  - intros b; apply respects_bind; [|intros r; apply respects_ret].
    apply respects_denormalize.
    destruct Hback as [H|H]; [left; exact H | right; apply H].
Qed.

End Frame.

(** ** The two relations *)

Lemma no_new_refl (kind : Call -> bool) (g : Globals) : no_new kind g g.
Proof. intros c _ H; exact H. Qed.

Lemma no_new_trans (kind : Call -> bool) (g1 g2 g3 : Globals) :
  no_new kind g1 g2 -> no_new kind g2 g3 -> no_new kind g1 g3.
Proof. intros H12 H23 c Hk H; exact (H12 c Hk (H23 c Hk H)). Qed.

Lemma no_new_allows (kind : Call -> bool) (c : Call) :
  kind c = false -> allows (no_new kind) c.
Proof.
  intros Hc g c' Hk H; simpl in H.
  apply in_app_or in H as [H|[H|[]]]; [exact H|].
  subst c'; rewrite Hc in Hk; discriminate Hk.
Qed.

Lemma no_new_set (kind : Call -> bool) (d : dict) (g : Globals) :
  no_new kind g
    {| questions_data := d;
       intents_data := intents_data g;
       last_user_tag := last_user_tag g;
       calls := calls g |}.
Proof. intros c _ H; exact H. Qed.

Lemma untouched_refl (g : Globals) : untouched g g.
Proof.
  split; [reflexivity|]; exists []; split;
    [symmetry; apply app_nil_r | reflexivity].
Qed.

Lemma untouched_trans (g1 g2 g3 : Globals) :
  untouched g1 g2 -> untouched g2 g3 -> untouched g1 g3.
Proof.
  intros [Hq1 [cs1 [Hc1 Hw1]]] [Hq2 [cs2 [Hc2 Hw2]]]; split;
    [congruence|].
  exists (cs1 ++ cs2); split.
  - rewrite Hc2, Hc1; symmetry; apply app_assoc.
  - rewrite forallb_app, Hw1, Hw2; reflexivity.
Qed.

Lemma untouched_allows (c : Call) :
  is_write c = false -> allows untouched c.
Proof.
  intros Hc g; split; [reflexivity|]; exists [c]; split; [reflexivity|].
  simpl; rewrite Hc; reflexivity.
Qed.

Lemma store_step_before (rt : Runtime) (g g1 g' : Globals) :
  untouched g g1 -> store_step rt g1 g' -> store_step rt g g'.
Proof.
  intros Hu [H|[q [a [Hv [Hm [Hq [before [after [Hc [Hb Ha]]]]]]]]]].
  - left; exact (untouched_trans Hu H).
  - destruct Hu as [Hq1 [cs [Hc1 Hw]]].
    right; exists q, a; repeat split; try assumption; [congruence|].
    exists (cs ++ before), after; repeat split; try assumption.
    + rewrite Hc, Hc1, <- !app_assoc; reflexivity.
    + rewrite forallb_app, Hw, Hb; reflexivity.
Qed.

Lemma store_step_after (rt : Runtime) (g g1 g' : Globals) :
  store_step rt g g1 -> untouched g1 g' -> store_step rt g g'.
Proof.
  intros [H|[q [a [Hv [Hm [Hq [before [after [Hc [Hb Ha]]]]]]]]]] Hu.
  - left; exact (untouched_trans H Hu).
  - destruct Hu as [Hq1 [cs [Hc1 Hw]]].
    right; exists q, a; repeat split; try assumption; [congruence|].
    exists before, (after ++ cs); repeat split; try assumption.
    + rewrite Hc1, Hc, Hq1, <- !app_assoc; reflexivity.
    + rewrite forallb_app, Ha, Hw; reflexivity.
Qed.

Lemma store_step_bind (rt : Runtime) (A B : Type) (m : M A)
    (k : A -> M B) :
  respects untouched m ->
  (forall a g1, store_step rt g1 (snd (k a g1))) ->
  forall g, store_step rt g (snd (bind m k g)).
Proof.
  intros Hm Hk g; unfold bind; specialize (Hm g).
  destruct (m g) as [[a|e] g1]; simpl in *.
  - exact (store_step_before Hm (Hk a g1)).
  - left; exact Hm.
Qed.

Lemma snd_try_except_ret (A : Type) (m : M A) (catches : Exception -> bool)
    (x : A) (g : Globals) :
  snd (try_except m catches (ret x) g) = snd (m g).
Proof.
  unfold try_except; destruct (m g) as [[a|e] g']; [reflexivity|].
  destruct (catches e); reflexivity.
Qed.

Section Requests.

Variable rt : Runtime.

Lemma untouched_read_message (body : Body) :
  respects untouched (read_message body).
Proof.
  intros g; destruct body as [| |[[s|]|]]; apply untouched_refl.
Qed.

Lemma untouched_normalize (user_message : str) :
  respects untouched (normalize rt user_message).
Proof.
  apply respects_normalize;
    first [exact untouched_refl | exact untouched_trans
          | apply untouched_allows; reflexivity].
Qed.

Lemma untouched_working_answer (q : str) :
  respects untouched (working_answer rt q).
Proof.
  apply respects_working_answer;
    first [exact untouched_refl | exact untouched_trans].
Qed.

Lemma untouched_outside_answer (q : str) :
  respects untouched (outside_answer rt q).
Proof.
  unfold outside_answer; destruct (is_question_about_museum rt q).
  - apply respects_fallback_cascade;
      first [exact untouched_refl | exact untouched_trans
            | apply untouched_allows; reflexivity].
  - intros g; apply untouched_refl.
Qed.

Lemma untouched_denormalize (lang b : str) :
  respects untouched (denormalize rt lang b).
Proof.
  apply respects_denormalize; [exact untouched_refl|].
  right; apply untouched_allows; reflexivity.
Qed.

Lemma save_question_skips (question answer : str) (g : Globals) :
  is_valid_question rt question && negb (mem answer NON_ANSWERS) = false ->
  save_question rt question answer g = (Return tt, g).
Proof. intros H; unfold save_question; rewrite H; reflexivity. Qed.

Lemma store_step_save_question (question answer : str) (g : Globals) :
  store_step rt g (snd (save_question rt question answer g)).
Proof.
  destruct (is_valid_question rt question && negb (mem answer NON_ANSWERS))
    eqn:E.
  - apply andb_true_iff in E as [Hv Hm]; apply negb_true_iff in Hm.
    rewrite (@save_question_stores rt question answer g Hv Hm); simpl.
    right; exists question, answer; repeat split; try assumption.
    exists [], []; repeat split; reflexivity.
  - rewrite (@save_question_skips question answer g E); left;
      apply untouched_refl.
Qed.

Lemma store_step_look_outside (A : Type) (q : str) (k : str -> M A) :
  (forall b, respects untouched (k b)) ->
  forall g, store_step rt g (snd (bind (look_outside rt q) k g)).
Proof.
  intros Hk g; unfold look_outside, bind.
  pose proof (untouched_outside_answer q g) as Ho.
  destruct (outside_answer rt q g) as [[found|e] g3]; simpl in Ho;
    [|left; exact Ho].
  apply (store_step_before Ho).
  pose proof (store_step_save_question q found g3) as Hs.
  destruct (save_question rt q found g3) as [[[]|e] g4]; simpl in Hs;
    [|exact Hs].
  unfold ret; exact (store_step_after Hs (Hk found g4)).
Qed.

Lemma store_step_answer (lang q : str) (g : Globals) :
  store_step rt g (snd (answer rt lang q g)).
Proof.
  unfold answer; apply store_step_bind; [apply untouched_working_answer|].
  intros bot g2.
  assert (Hk : forall b,
             respects untouched
               (bind (denormalize rt lang b)
                  (fun final => ret {| response := final; status := 200 |}))).
  { intros b; apply respects_bind;
      [exact untouched_trans | apply untouched_denormalize|].
    intros final g'; apply untouched_refl. }
  unfold resolve; destruct bot as [a|];
    [destruct (no_answer rt (Some a))|];
    try (apply store_step_look_outside; exact Hk).
  left; exact (Hk a g2).
Qed.

Lemma store_step_handle (body : Body) (g : Globals) :
  store_step rt g (snd (handle rt body g)).
Proof.
  unfold handle; apply store_step_bind; [apply untouched_read_message|].
  intros user_message g0.
  destruct (negb (truthy user_message)); [left; apply untouched_refl|].
  apply store_step_bind; [apply untouched_normalize|].
  intros langs g1.
  destruct (negb (is_valid_question rt (snd langs)));
    [left; apply untouched_refl | apply store_step_answer].
Qed.

(** X1.  A request leaves the store and the file as they are, or sets one
    entry, for a valid question and an answer that [save_question]
    accepts, and writes [questions.json] once, with the store as it is when
    the request ends; the other calls it makes are not writes. *)
Theorem request_stores_at_most_one_entry (body : Body) (g : Globals) :
  store_step rt g (snd (get_bot_response rt body g)).
Proof.
  unfold get_bot_response; rewrite snd_try_except_ret.
  apply store_step_handle.
Qed.

(** ** Classes of responses *)

Lemma answer_status (lang q : str) (g g' : Globals) (r : Response) :
  answer rt lang q g = (Return r, g') -> status r = 200.
Proof.
  unfold answer, bind.
  destruct (working_answer rt q g) as [[bot|e] g2]; [|discriminate].
  destruct (resolve rt q bot g2) as [[b|e] g3]; [|discriminate].
  destruct (denormalize rt lang b g3) as [[final|e] g4]; [|discriminate].
  unfold ret; intros H; injection H as <- _; reflexivity.
Qed.

Lemma handle_status (body : Body) (g g' : Globals) (r : Response) :
  handle rt body g = (Return r, g') ->
  (blank body = true /\ r = {| response := MSG_EMPTY; status := 400 |} /\
   g' = g) \/
  (blank body = false /\ status r = 200).
Proof.
  assert (Hrest : forall s,
    bind (ret (strip s))
      (fun user_message =>
         if negb (truthy user_message)
         then ret {| response := MSG_EMPTY; status := 400 |}
         else
           bind (normalize rt user_message)
             (fun langs =>
                if negb (is_valid_question rt (snd langs))
                then ret {| response := MSG_UNCLEAR; status := 200 |}
                else answer rt (fst langs) (snd langs))) g
    = (Return r, g') ->
    (negb (truthy (strip s)) = true /\
     r = {| response := MSG_EMPTY; status := 400 |} /\ g' = g) \/
    (negb (truthy (strip s)) = false /\ status r = 200)).
  { intros s; unfold bind at 1; unfold ret at 1.
    destruct (negb (truthy (strip s))).
    - unfold ret; intros H; injection H as <- <-; left; auto.
    - unfold bind.
      destruct (normalize rt (strip s) g) as [[langs|e] g1];
        [|discriminate].
      destruct (negb (is_valid_question rt (snd langs))).
      + unfold ret; intros H; injection H as <- _; right; auto.
      + intros H; right; split; [reflexivity|].
        exact (@answer_status (fst langs) (snd langs) g1 g' r H). }
  unfold handle; destruct body as [| |[[s|]|]]; simpl read_message;
    try (unfold bind, raise; discriminate).
  - intros H; exact (Hrest s H).
  - intros H; destruct (Hrest [] H) as [H1|[H1 _]];
      [left; tauto | discriminate H1].
Qed.

Lemma handle_malformed (body : Body) (g : Globals) :
  malformed body = true ->
  exists e, handle rt body g = (Raise e, g).
Proof.
  destruct body as [| |[[s|]|]]; try discriminate; intros _;
    unfold handle, bind; simpl; eexists; reflexivity.
Qed.

Lemma handle_blank (body : Body) (g : Globals) :
  blank body = true ->
  handle rt body g = (Return {| response := MSG_EMPTY; status := 400 |}, g).
Proof.
  destruct body as [| |[[s|]|]]; try discriminate; simpl; intros H;
    unfold handle, bind; simpl; unfold ret.
  - rewrite H; reflexivity.
  - reflexivity.
Qed.

(** X2.  [get_bot_response] always returns a response, of one of three classes:
    status 400 with the "no valid message" text, exactly when the message
    is missing, empty or blank, and then nothing was called or changed;
    status 500 with the generic error text, in particular for every body
    that is not a JSON object with a string message; or status 200. *)
Theorem responses_are_of_three_classes (body : Body) (g : Globals) :
  exists r,
    fst (get_bot_response rt body g) = Return r /\
    (status r = 400 <-> blank body = true) /\
    (status r = 400 ->
     response r = MSG_EMPTY /\ snd (get_bot_response rt body g) = g) /\
    (status r = 500 -> response r = MSG_SERVER_ERROR) /\
    (malformed body = true ->
     status r = 500 /\ snd (get_bot_response rt body g) = g) /\
    (status r = 200 \/ status r = 400 \/ status r = 500).
Proof.
  unfold get_bot_response, try_except.
  destruct (handle rt body g) as [[r|e] g'] eqn:E.
  - exists r; split; [reflexivity|].
    destruct (@handle_status body g g' r E) as [[Hb [-> ->]]|[Hb Hs]];
      simpl.
    + split; [split; [intros _; exact Hb | reflexivity]|].
      split; [intros _; split; reflexivity|].
      split; [discriminate|].
      split; [|right; left; reflexivity].
      intros Hm; destruct body as [| |[[s|]|]]; discriminate.
    + rewrite Hs, Hb.
      split; [split; discriminate|].
      split; [discriminate|].
      split; [discriminate|].
      split; [|left; reflexivity].
      intros Hm; destruct (@handle_malformed body g Hm) as [e He].
      rewrite He in E; discriminate E.
  - simpl; eexists; split; [reflexivity|]; simpl.
    split; [split; [discriminate|]|].
    { intros Hb; rewrite (@handle_blank body g Hb) in E; discriminate E. }
    split; [discriminate|].
    split; [reflexivity|].
    split; [|right; right; reflexivity].
    intros Hm; split; [reflexivity|].
    destruct (@handle_malformed body g Hm) as [e' He].
    rewrite He in E; injection E as _ <-; reflexivity.
Qed.

(** X3.  Leading and trailing white space of the message changes nothing: the
    request with the stripped message has the same response and the same
    effects. *)
Theorem surrounding_space_is_ignored (s : str) (g : Globals) :
  get_bot_response rt (Object (Some (JString s))) g =
  get_bot_response rt (Object (Some (JString (strip s)))) g.
Proof.
  unfold get_bot_response, handle, read_message.
  rewrite strip_idem; reflexivity.
Qed.

(** ** Calls a request does not make *)

(** X4.  A request whose question, once normalised, names none of the museum
    keywords calls none of the three providers, whether it is answered
    from the intents, from the learned questions, or refused. *)
Theorem other_topics_reach_no_provider (s lang q : str) (g g1 : Globals) :
  truthy (strip s) = true ->
  normalize rt (strip s) g = (Return (lang, q), g1) ->
  is_question_about_museum rt q = false ->
  no_new is_provider g
    (snd (get_bot_response rt (Object (Some (JString s))) g)).
Proof.
  intros Hs Hn Hgate.
  rewrite (@get_bot_response_arrived rt s lang q g g1 Hs Hn).
  rewrite snd_try_except_ret.
  apply (@no_new_trans is_provider g g1).
  - pose proof (@respects_normalize (no_new is_provider)
                  (@no_new_refl is_provider) (@no_new_trans is_provider)
                  rt (strip s)
                  (@no_new_allows is_provider (Detect (strip s)) eq_refl)
                  (@no_new_allows is_provider
                     (Translate AUTO AR (strip s)) eq_refl) g) as H.
    rewrite Hn in H; exact H.
  - destruct (negb (is_valid_question rt q)); [apply no_new_refl|].
    apply respects_answer.
    + exact (@no_new_refl is_provider).
    + exact (@no_new_trans is_provider).
    + exact (@no_new_set is_provider).
    + intros d; apply no_new_allows; reflexivity.
    + left; exact Hgate.
    + right; intros b; apply no_new_allows; reflexivity.
Qed.

(** X5.  A request whose message is detected as Arabic never calls the
    translator, neither for the question nor for the answer. *)
Theorem arabic_is_never_translated (s : str) (g : Globals) :
  langdetect_detect rt (strip s) = Return AR ->
  no_new is_translation g
    (snd (get_bot_response rt (Object (Some (JString s))) g)).
Proof.
  intros Hd.
  destruct (truthy (strip s)) eqn:Hs;
    [|rewrite (@get_bot_response_empty rt s g Hs); apply no_new_refl].
  assert (Hn : normalize rt (strip s) g
               = (Return (AR, strip s), logged (Detect (strip s)) g)).
  { unfold normalize, bind, external; rewrite Hd; reflexivity. }
  rewrite (@get_bot_response_arrived rt s AR (strip s) g _ Hs Hn).
  rewrite snd_try_except_ret.
  apply (@no_new_trans is_translation g (logged (Detect (strip s)) g)).
  - apply no_new_allows; reflexivity.
  - destruct (negb (is_valid_question rt (strip s))); [apply no_new_refl|].
    apply respects_answer.
    + exact (@no_new_refl is_translation).
    + exact (@no_new_trans is_translation).
    + exact (@no_new_set is_translation).
    + intros d; apply no_new_allows; reflexivity.
    + right; repeat split; apply no_new_allows; reflexivity.
    + left; reflexivity.
Qed.

End Requests.

(** ** The providers and the cascade *)

Section Providers.

Variable rt : Runtime.

Lemma search_wikipedia_calls (q : str) (g : Globals) :
  snd (search_wikipedia rt q g) = logged (WikipediaSummary q) g.
Proof.
  unfold search_wikipedia, try_except, bind, external, ret.
  destruct (wikipedia_summary rt q) as [summary|e]; [reflexivity|].
  destruct (except_wikipedia e); reflexivity.
Qed.

Lemma search_gemini_calls (q : str) (g : Globals) :
  exists v,
    search_gemini rt q g
    = (Return v, logged (GeminiGenerate (GEMINI_PROMPT ++ q)) g).
Proof.
  unfold search_gemini, try_except, bind, external, ret.
  destruct (gemini_text rt (GEMINI_PROMPT ++ q)) as [text|e];
    eexists; reflexivity.
Qed.

Lemma search_duckduckgo_calls (q : str) (g : Globals) :
  exists v,
    search_duckduckgo rt q g = (Return v, logged (DuckDuckGoText q) g).
Proof.
  unfold search_duckduckgo, try_except, bind, external, ret, raise.
  destruct (ddgs_text rt q) as [[|[body|] rest]|e]; eexists; reflexivity.
Qed.

Lemma search_gemini_declined (q : str) (g : Globals) :
  gemini_declines rt q = true ->
  search_gemini rt q g
  = (Return None, logged (GeminiGenerate (GEMINI_PROMPT ++ q)) g).
Proof.
  unfold gemini_declines, search_gemini, try_except, bind, external, ret,
    lower.
  destruct (gemini_text rt (GEMINI_PROMPT ++ q)) as [text|e];
    [|reflexivity].
  intros H; apply negb_true_iff in H; rewrite H; reflexivity.
Qed.

Lemma search_duckduckgo_declined (q : str) (g : Globals) :
  duckduckgo_declines rt q = true ->
  (search_duckduckgo rt q g = (Return None, logged (DuckDuckGoText q) g) \/
   search_duckduckgo rt q g = (Return (Some []), logged (DuckDuckGoText q) g)).
Proof.
  unfold duckduckgo_declines, search_duckduckgo, try_except, bind, external,
    ret, raise.
  destruct (ddgs_text rt q) as [[|[body|] rest]|e]; auto.
  destruct body; [auto | discriminate].
Qed.


Lemma py_or_str_calls (x : M (option str)) (y : M str) (g : Globals) :
  snd (py_or_str x y g) = snd (x g) \/
  snd (py_or_str x y g) = snd (y (snd (x g))).
Proof.
  unfold py_or_str, bind.
  destruct (x g) as [[[s|]|e] g1]; simpl; [destruct (truthy s)|..]; auto.
Qed.

(** X7.  The cascade calls the providers in the order encyclopedia, generative
    model, web search, each at most once, a later one only after the
    earlier ones, and always starts with the encyclopedia. *)
Theorem cascade_calls_in_order (q : str) (g : Globals) :
  exists n,
    1 <= n /\
    calls (snd (fallback_cascade rt q g))
    = calls g ++ firstn n (cascade_calls q).
Proof.
  unfold fallback_cascade.
  destruct (py_or_str_calls (search_wikipedia rt q)
              (py_or_str (search_gemini rt q)
                 (py_or_str (search_duckduckgo rt q) (ret MSG_NOT_FOUND)))
              g) as [H|H];
    rewrite H, search_wikipedia_calls; clear H;
    [exists 1; split; [lia | reflexivity]|].
  destruct (search_gemini_calls q (logged (WikipediaSummary q) g))
    as [v2 H2].
  destruct (py_or_str_calls (search_gemini rt q)
              (py_or_str (search_duckduckgo rt q) (ret MSG_NOT_FOUND))
              (logged (WikipediaSummary q) g)) as [H|H];
    rewrite H, H2; clear H; cbn [snd];
    [exists 2; split; [lia|]; simpl; rewrite <- app_assoc; reflexivity|].
  destruct (search_duckduckgo_calls q
              (logged (GeminiGenerate (GEMINI_PROMPT ++ q))
                 (logged (WikipediaSummary q) g))) as [v3 H3].
  exists 3; split; [lia|].
  destruct (py_or_str_calls (search_duckduckgo rt q) (ret MSG_NOT_FOUND)
              (logged (GeminiGenerate (GEMINI_PROMPT ++ q))
                 (logged (WikipediaSummary q) g))) as [H|H];
    rewrite H, H3; simpl; rewrite <- !app_assoc; reflexivity.
Qed.

(** X8.  A relevant, non-empty summary of the encyclopedia is the answer of the
    cascade, and no other provider is called. *)
Theorem cascade_stops_at_the_encyclopedia (q summary : str) (g : Globals) :
  wikipedia_summary rt q = Return summary ->
  contains (lower rt summary) (lower rt q) = true ->
  truthy summary = true ->
  fallback_cascade rt q g = (Return summary, logged (WikipediaSummary q) g).
Proof.
  intros Hw Hc Ht.
  unfold fallback_cascade, py_or_str, bind at 1.
  unfold search_wikipedia, try_except, bind, external, ret.
  rewrite Hw, Hc, Ht; reflexivity.
Qed.

Lemma fallback_cascade_declined (q : str) (g : Globals) (y : M str) :
  wikipedia_declines rt q = true ->
  gemini_declines rt q = true ->
  py_or_str (search_wikipedia rt q)
    (py_or_str (search_gemini rt q) y) g
  = y (logged (GeminiGenerate (GEMINI_PROMPT ++ q))
         (logged (WikipediaSummary q) g)).
Proof.
  intros Hw Hg; unfold py_or_str, bind.
  rewrite (@search_wikipedia_declined rt q g Hw).
  rewrite (@search_gemini_declined q _ Hg); reflexivity.
Qed.

(** X9.  When the encyclopedia gives an irrelevant summary or raises one of
    the two exceptions [search_wikipedia] names, and the generative model
    raises or gives an empty or irrelevant text, the body of the first
    result of the web search, when it is not empty, is the answer of the
    cascade, after the three calls.  (Any other exception of the
    encyclopedia ends the cascade before the web search.) *)
Theorem cascade_ends_with_the_web_search (q body : str)
    (rest : list (option str)) (g : Globals) :
  wikipedia_declines rt q = true ->
  gemini_declines rt q = true ->
  ddgs_text rt q = Return (Some body :: rest) ->
  truthy body = true ->
  fallback_cascade rt q g = (Return body, logged_all (cascade_calls q) g).
Proof.
  intros Hw Hg Hd Ht; unfold fallback_cascade.
  rewrite (@fallback_cascade_declined q g _ Hw Hg).
  unfold py_or_str, bind.
  rewrite (@search_duckduckgo_first rt q body rest _ Hd), Ht; reflexivity.
Qed.

Lemma fallback_cascade_nothing (q : str) (g : Globals) :
  wikipedia_declines rt q = true ->
  gemini_declines rt q = true ->
  duckduckgo_declines rt q = true ->
  fallback_cascade rt q g
  = (Return MSG_NOT_FOUND, logged_all (cascade_calls q) g).
Proof.
  intros Hw Hg Hd; unfold fallback_cascade.
  rewrite (@fallback_cascade_declined q g _ Hw Hg).
  unfold py_or_str, bind.
  destruct (@search_duckduckgo_declined q
              (logged (GeminiGenerate (GEMINI_PROMPT ++ q))
                 (logged (WikipediaSummary q) g)) Hd) as [-> | ->];
    reflexivity.
Qed.

Lemma resolve_outside (q : str) (bot : option str) :
  no_answer rt bot = true -> resolve rt q bot = look_outside rt q.
Proof.
  intros H; unfold resolve; destruct bot as [a|]; [|reflexivity].
  rewrite H; reflexivity.
Qed.

(** X10.  When the three providers give nothing, the answer is the "not found"
    message, after the three calls; it is not entered in the store and
    [questions.json] is not written. *)
Theorem nothing_found_is_not_stored (q : str) (bot : option str)
    (g : Globals) :
  no_answer rt bot = true ->
  is_question_about_museum rt q = true ->
  wikipedia_declines rt q = true ->
  gemini_declines rt q = true ->
  duckduckgo_declines rt q = true ->
  resolve rt q bot g
  = (Return MSG_NOT_FOUND, logged_all (cascade_calls q) g).
Proof.
  intros Hn Hgate Hw Hg Hd.
  rewrite (@resolve_outside q bot Hn).
  unfold look_outside, outside_answer; rewrite Hgate.
  unfold bind at 1.
  rewrite (@fallback_cascade_nothing q g Hw Hg Hd).
  unfold save_question.
  replace (mem MSG_NOT_FOUND NON_ANSWERS) with true by reflexivity.
  rewrite andb_false_r; reflexivity.
Qed.

(** X11.  An exception of the encyclopedia other than [PageError] and
    [DisambiguationError] is not caught by [search_wikipedia]: it ends the
    request with the 500 response, before the generative model and the web
    search are tried and before anything is stored. *)
Theorem encyclopedia_failure_ends_the_request (s lang q : str)
    (g g1 g2 : Globals) (bot : option str) (e : Exception) :
  truthy (strip s) = true ->
  normalize rt (strip s) g = (Return (lang, q), g1) ->
  is_valid_question rt q = true ->
  working_answer rt q g1 = (Return bot, g2) ->
  no_answer rt bot = true ->
  is_question_about_museum rt q = true ->
  wikipedia_summary rt q = Raise e ->
  except_wikipedia e = false ->
  get_bot_response rt (Object (Some (JString s))) g
  = (Return {| response := MSG_SERVER_ERROR; status := 500 |},
     logged (WikipediaSummary q) g2).
Proof.
  intros Hs Hn Hv Hwork Hno Hgate Hw He.
  rewrite (@get_bot_response_arrived rt s lang q g g1 Hs Hn), Hv; simpl.
  unfold try_except, answer.
  rewrite (@bind_Return _ _ _ _ _ _ _ Hwork).
  rewrite (@resolve_outside q bot Hno).
  unfold look_outside, outside_answer; rewrite Hgate.
  unfold fallback_cascade, py_or_str, bind.
  unfold search_wikipedia, try_except, bind, external.
  rewrite Hw, He; reflexivity.
Qed.

Lemma answer_local (lang q a : str) (g1 g2 : Globals) :
  working_answer rt q g1 = (Return (Some a), g2) ->
  no_answer rt (Some a) = false ->
  answer rt lang q g1
  = bind (denormalize rt lang a)
      (fun final => ret {| response := final; status := 200 |}) g2.
Proof.
  intros Hwork Hno; unfold answer.
  rewrite (@bind_Return _ _ _ _ _ _ _ Hwork).
  unfold resolve; rewrite Hno; reflexivity.
Qed.

Lemma answer_outside (lang q found : str) (bot : option str)
    (g1 g2 g3 : Globals) :
  working_answer rt q g1 = (Return bot, g2) ->
  no_answer rt bot = true ->
  outside_answer rt q g2 = (Return found, g3) ->
  answer rt lang q g1
  = bind (save_question rt q found)
      (fun _ =>
         bind (denormalize rt lang found)
           (fun final => ret {| response := final; status := 200 |})) g3.
Proof.
  intros Hwork Hno Hout; unfold answer.
  rewrite (@bind_Return _ _ _ _ _ _ _ Hwork).
  rewrite (@resolve_outside q bot Hno).
  unfold look_outside, bind; rewrite Hout.
  destruct (save_question rt q found g3) as [[[]|e] g4]; reflexivity.
Qed.

(** X12.  An answer found in the intents or in the learned questions is final:
    no provider is asked and nothing is stored; it is returned as it is to
    an Arabic message, and translated back otherwise, where a failure of
    the translator gives the 500 response. *)
Theorem local_answer_is_final (s lang q a : str) (g g1 g2 : Globals) :
  truthy (strip s) = true ->
  normalize rt (strip s) g = (Return (lang, q), g1) ->
  is_valid_question rt q = true ->
  working_answer rt q g1 = (Return (Some a), g2) ->
  no_answer rt (Some a) = false ->
  get_bot_response rt (Object (Some (JString s))) g
  = if PyStr.eqb lang AR
    then (Return {| response := a; status := 200 |}, g2)
    else (match translator_translate rt AR lang a with
          | Return final => Return {| response := final; status := 200 |}
          | Raise _ =>
              Return {| response := MSG_SERVER_ERROR; status := 500 |}
          end,
          logged (Translate AR lang a) g2).
Proof.
  intros Hs Hn Hv Hwork Hno.
  rewrite (@get_bot_response_arrived rt s lang q g g1 Hs Hn), Hv; simpl.
  unfold try_except.
  rewrite (@answer_local lang q a g1 g2 Hwork Hno).
  unfold bind, ret, denormalize.
  destruct (PyStr.eqb lang AR); [reflexivity|].
  unfold external, ret.
  destruct (translator_translate rt AR lang a); reflexivity.
Qed.

(** X13.  An answer found outside is stored before it is translated back: the
    store gets the answer as the provider gave it, under the question in
    Arabic, and the file is written; then the answer is returned as it is
    to an Arabic message and translated otherwise, where a failure of the
    translator gives the 500 response and leaves the entry stored. *)
Theorem outside_answer_is_stored_as_found (s lang q found : str)
    (bot : option str) (g g1 g2 g3 : Globals) :
  truthy (strip s) = true ->
  normalize rt (strip s) g = (Return (lang, q), g1) ->
  is_valid_question rt q = true ->
  working_answer rt q g1 = (Return bot, g2) ->
  no_answer rt bot = true ->
  outside_answer rt q g2 = (Return found, g3) ->
  mem found NON_ANSWERS = false ->
  json_dump rt (dict_set q found (questions_data g3)) = Return tt ->
  get_bot_response rt (Object (Some (JString s))) g
  = if PyStr.eqb lang AR
    then (Return {| response := found; status := 200 |},
          logged (DumpQuestions (dict_set q found (questions_data g3)))
            (learned q found g3))
    else (match translator_translate rt AR lang found with
          | Return final => Return {| response := final; status := 200 |}
          | Raise _ =>
              Return {| response := MSG_SERVER_ERROR; status := 500 |}
          end,
          logged (Translate AR lang found)
            (logged (DumpQuestions (dict_set q found (questions_data g3)))
               (learned q found g3))).
Proof.
  intros Hs Hn Hv Hwork Hno Hout Hm Hdump.
  rewrite (@get_bot_response_arrived rt s lang q g g1 Hs Hn), Hv; simpl.
  unfold try_except.
  rewrite (@answer_outside lang q found bot g1 g2 g3 Hwork Hno Hout).
  unfold bind at 1.
  rewrite (@save_question_stores rt q found g3 Hv Hm), Hdump.
  unfold bind, ret, denormalize.
  destruct (PyStr.eqb lang AR); [reflexivity|].
  unfold external, ret.
  destruct (translator_translate rt AR lang found); reflexivity.
Qed.

End Providers.

(** ** The intents and the learned questions *)

Lemma cutoff_le_1 : (cutoff <= 1)%Q.
Proof. unfold cutoff, Qle; simpl; lia. Qed.

Lemma find_skips (A : Type) (f : A -> bool) (x : A) (before after : list A) :
  forallb (fun y => negb (f y)) before = true ->
  f x = true ->
  find f (before ++ x :: after) = Some x.
Proof.
  intros Hb Hx; induction before as [|y before IH]; simpl in *.
  - rewrite Hx; reflexivity.
  - apply andb_true_iff in Hb as [Hy Hb]; apply negb_true_iff in Hy.
    rewrite Hy; exact (IH Hb).
Qed.

(** X14.  A question that is, letter for letter, a pattern of an intent is
    answered by the first response of that intent, with its tag, unless an
    earlier intent matches it (questions under 200 characters, for which
    [difflib] sets no character aside). *)
Theorem exact_pattern_is_matched (q first : str) (rest : list str)
    (intent : Intent) (before after : list Intent) (g : Globals) :
  intents_data g = before ++ intent :: after ->
  forallb (fun i => negb (matches q i)) before = true ->
  In q (get_list (patterns intent)) ->
  len q < 200 ->
  responses intent = Some (first :: rest) ->
  search_intents q g = (Return (Some first, tag intent), g).
Proof.
  intros Hi Hb Hin Hlen Hr.
  apply (@search_intents_first_match q first rest intent g); [|exact Hr].
  rewrite Hi; apply find_skips; [exact Hb|].
  apply matches_iff; exists q; split; [exact Hin|].
  apply close_enough_self; [exact cutoff_le_1 | exact Hlen].
Qed.

(** X15.  [search_intents] returns [(None, None)] exactly when no pattern of any
    intent is close to the question. *)
Theorem search_intents_finds_nothing_iff (q : str) (g : Globals) :
  search_intents q g = (Return (None, None), g) <->
  forall intent pattern,
    In intent (intents_data g) ->
    In pattern (get_list (patterns intent)) ->
    close_enough cutoff q pattern = false.
Proof.
  unfold search_intents; rewrite search_intents_in_first.
  destruct (find (matches q) (intents_data g)) as [intent|] eqn:E.
  - apply find_some in E as [Hin Hm].
    apply matches_iff in Hm as [pattern [Hp Hc]].
    split.
    + destruct (get_list (responses intent)); discriminate.
    + intros H; rewrite (H intent pattern Hin Hp) in Hc; discriminate Hc.
  - split; [|reflexivity].
    intros _ intent pattern Hin Hp.
    destruct (close_enough cutoff q pattern) eqn:Hc; [|reflexivity].
    pose proof (find_none _ _ E intent Hin) as Hm.
    assert (Ht : matches q intent = true)
      by (apply matches_iff; exists pattern; auto).
    rewrite Ht in Hm; discriminate Hm.
Qed.

Section Store.

Variable rt : Runtime.

(** X16.  [fuzzy_match_question] never raises and changes nothing; what it
    returns is the answer stored under a key that is close to the
    lower-cased question, and it returns [None] exactly when no key is
    close. *)
Theorem fuzzy_match_question_answers_from_the_store (question : str)
    (data : dict) (g : Globals) :
  match fuzzy_match_question rt question data g with
  | (Return (Some answer), g') =>
      g' = g /\
      exists key,
        dict_get key data = Some answer /\
        close_enough cutoff (lower rt question) key = true
  | (Return None, g') =>
      g' = g /\
      forall key,
        In key (dict_keys data) ->
        close_enough cutoff (lower rt question) key = false
  | (Raise _, _) => False
  end.
Proof.
  unfold fuzzy_match_question.
  destruct (get_close_matches (lower rt question) (dict_keys data) 1 cutoff)
    as [|key rest] eqn:E.
  - split; [reflexivity|]; intros key Hin.
    destruct (close_enough cutoff (lower rt question) key) eqn:Hc;
      [|reflexivity].
    exfalso;
      exact (@get_close_matches_some (lower rt question) key
               (dict_keys data) 0 cutoff Hin Hc E).
  - assert (Hk : In key (get_close_matches (lower rt question)
                           (dict_keys data) 1 cutoff))
      by (rewrite E; left; reflexivity).
    apply get_close_matches_In in Hk as [Hin Hc].
    destruct (@dict_get_keys key data Hin) as [v Hv]; rewrite Hv.
    split; [reflexivity|]; exists key; auto.
Qed.

Lemma dict_get_In (key value : str) (d : dict) :
  dict_get key d = Some value -> In key (dict_keys d).
Proof.
  induction d as [|[k v] rest IH]; simpl; [discriminate|].
  destruct (PyStr.eqb k key) eqn:E.
  - intros _; left; apply eqb_eq; exact E.
  - intros H; right; exact (IH H).
Qed.

Lemma close_match_of_a_key (key answer : str) (data : dict) :
  dict_get key data = Some answer ->
  len key < 200 ->
  get_close_matches key (dict_keys data) 1 cutoff = [key].
Proof.
  intros Hget Hlen.
  exact (@get_close_matches_exact key (dict_keys data) cutoff
           (@dict_get_In _ _ _ Hget) Hlen cutoff_le_1).
Qed.

Lemma search_local_questions_exact (question answer : str) (g : Globals) :
  dict_get (lower rt question) (questions_data g) = Some answer ->
  len (lower rt question) < 200 ->
  search_local_questions rt question g = (Return (Some answer), g).
Proof.
  intros Hget Hlen.
  unfold search_local_questions, bind, get_globals, fuzzy_match_question.
  rewrite (@close_match_of_a_key _ _ _ Hget Hlen), Hget; reflexivity.
Qed.

(** X17.  A question whose lower-cased form is a key of the store (under 200
    characters) gets the answer stored under that key, whatever the other
    keys are: no other key scores as high as the key itself. *)
Theorem stored_question_is_found (question answer : str) (data : dict)
    (g : Globals) :
  dict_get (lower rt question) data = Some answer ->
  len (lower rt question) < 200 ->
  fuzzy_match_question rt question data g = (Return (Some answer), g).
Proof.
  intros Hget Hlen; unfold fuzzy_match_question.
  rewrite (@close_match_of_a_key _ _ _ Hget Hlen).
  rewrite Hget; reflexivity.
Qed.

(** X18.  What [save_question] stores can be read back under the question, the
    other entries are as before, an existing key keeps its place and a new
    one comes last, and the file is written with the new store, whether
    the write succeeds or not. *)
Theorem saved_answer_is_read_back (question answer : str) (g : Globals) :
  is_valid_question rt question = true ->
  mem answer NON_ANSWERS = false ->
  dict_get question
    (questions_data (snd (save_question rt question answer g)))
  = Some answer /\
  (forall key,
      key <> question ->
      dict_get key
        (questions_data (snd (save_question rt question answer g)))
      = dict_get key (questions_data g)) /\
  dict_keys (questions_data (snd (save_question rt question answer g)))
  = (if mem question (dict_keys (questions_data g))
     then dict_keys (questions_data g)
     else dict_keys (questions_data g) ++ [question]) /\
  calls (snd (save_question rt question answer g))
  = calls g ++
    [DumpQuestions
       (questions_data (snd (save_question rt question answer g)))].
Proof.
  intros Hv Hm.
  rewrite (@save_question_stores rt question answer g Hv Hm); simpl.
  split; [apply dict_get_set_same|].
  split; [intros key Hne; apply dict_get_set_other; congruence|].
  split; [|reflexivity].
  destruct (dict_keys_set question answer (questions_data g)) as [H1 H2].
  destruct (mem question (dict_keys (questions_data g))) eqn:E.
  - apply H1, mem_In, E.
  - apply H2; intros Hin; apply mem_In in Hin; congruence.
Qed.

(** X19.  Saving the same question and answer again leaves the store as it is
    after the first save, and keeps the keys of the store distinct. *)
Theorem saving_twice_is_saving_once (question answer : str) (g : Globals) :
  questions_data
    (snd (save_question rt question answer
            (snd (save_question rt question answer g))))
  = questions_data (snd (save_question rt question answer g)) /\
  (NoDup (dict_keys (questions_data g)) ->
   NoDup (dict_keys
            (questions_data (snd (save_question rt question answer g))))).
Proof.
  destruct (is_valid_question rt question && negb (mem answer NON_ANSWERS))
    eqn:E.
  - apply andb_true_iff in E as [Hv Hm]; apply negb_true_iff in Hm.
    rewrite !(@save_question_stores rt question answer _ Hv Hm); simpl.
    split; [apply dict_set_idem | apply dict_keys_set_NoDup].
  - rewrite !(@save_question_skips rt question answer _ E); simpl; auto.
Qed.

(** X20.  What [save_question] has stored is what [search_local_questions]
    finds for any question with the same lower-cased form (under 200
    characters), whether the write of the file succeeded or not. *)
Theorem learned_answer_is_found_again (question again answer : str)
    (g : Globals) :
  is_valid_question rt question = true ->
  mem answer NON_ANSWERS = false ->
  lower rt again = question ->
  len question < 200 ->
  search_local_questions rt again
    (snd (save_question rt question answer g))
  = (Return (Some answer), snd (save_question rt question answer g)).
Proof.
  intros Hv Hm Hl Hlen.
  rewrite (@save_question_stores rt question answer g Hv Hm).
  apply search_local_questions_exact; rewrite Hl;
    [apply dict_get_set_same | exact Hlen].
Qed.

Lemma find_none_forallb (A : Type) (f : A -> bool) (l : list A) :
  forallb (fun x => negb (f x)) l = true -> find f l = None.
Proof.
  induction l as [|x l IH]; simpl; [reflexivity|].
  intros H; apply andb_true_iff in H as [Hx Hl].
  apply negb_true_iff in Hx; rewrite Hx; exact (IH Hl).
Qed.

(** X21.  A question that no intent matches and whose lower-cased form is a key
    of the store is answered with the stored answer: no provider is
    called and nothing is stored again (the stored answer not being one of
    the two "no answer" texts). *)
Theorem known_question_is_answered_from_the_store (s lang q a : str)
    (g g1 : Globals) :
  truthy (strip s) = true ->
  normalize rt (strip s) g = (Return (lang, q), g1) ->
  is_valid_question rt q = true ->
  last_user_tag g = None ->
  forallb (fun i => negb (matches q i)) (intents_data g) = true ->
  dict_get (lower rt q) (questions_data g) = Some a ->
  len (lower rt q) < 200 ->
  no_answer rt (Some a) = false ->
  get_bot_response rt (Object (Some (JString s))) g
  = if PyStr.eqb lang AR
    then (Return {| response := a; status := 200 |}, g1)
    else (match translator_translate rt AR lang a with
          | Return final => Return {| response := final; status := 200 |}
          | Raise _ =>
              Return {| response := MSG_SERVER_ERROR; status := 500 |}
          end,
          logged (Translate AR lang a) g1).
Proof.
  intros Hs Hn Hv Ht Hi Hget Hlen Hno.
  destruct (normalize_frame rt (strip s) g) as [Hq _].
  destruct (keeps_normalize rt (strip s) g) as [Hk1 Hk2].
  rewrite Hn in Hq, Hk1, Hk2; simpl in Hq, Hk1, Hk2.
  assert (H1 : search_intents q g1 = (Return (None, None), g1)).
  { unfold search_intents.
    rewrite search_intents_in_first, Hk1, (@find_none_forallb _ _ _ Hi).
    reflexivity. }
  assert (H2 : search_local_questions rt q g1 = (Return (Some a), g1)).
  { apply search_local_questions_exact; [rewrite Hq; exact Hget|].
    exact Hlen. }
  assert (H3 : local_answer rt q g1 = (Return (Some a), g1)).
  { unfold local_answer.
    rewrite (@bind_Return _ _ _ _ _ _ _ H1).
    unfold py_or, bind, ret; cbn [fst truthy_opt].
    exact H2. }
  assert (H4 : working_answer rt q g1 = (Return (Some a), g1)).
  { unfold working_answer.
    rewrite (@bind_Return _ _ _ _ _ _ _ H3).
    unfold elaborate, bind, get_globals.
    rewrite Hk2, Ht; cbn [truthy_opt]; rewrite andb_false_r; reflexivity. }
  rewrite (@get_bot_response_arrived rt s lang q g g1 Hs Hn), Hv; simpl.
  unfold try_except.
  rewrite (@answer_local rt lang q a g1 g1 H4 Hno).
  unfold bind, ret, denormalize.
  destruct (PyStr.eqb lang AR); [reflexivity|].
  unfold external, ret.
  destruct (translator_translate rt AR lang a); reflexivity.
Qed.

End Store.

(** ** Start-up and the life of the process *)

Lemma serve_keeps (requests : list (Runtime * Body)) :
  forall g,
    intents_data (snd (serve requests g)) = intents_data g /\
    last_user_tag (snd (serve requests g)) = last_user_tag g.
Proof.
  induction requests as [|[rt body] rest IH]; intros g; simpl; [auto|].
  destruct (keeps_get_bot_response rt body g) as [H1 H2].
  destruct (get_bot_response rt body g) as [o g1]; simpl in *.
  destruct (IH g1) as [H3 H4].
  destruct (serve rest g1) as [os g2]; simpl in *.
  split; congruence.
Qed.

(** X22.  Every request of a run is answered, no exception leaves the handler,
    and the intents are never changed. *)
Theorem every_request_is_answered (requests : list (Runtime * Body))
    (g : Globals) :
  List.length (fst (serve requests g)) = List.length requests /\
  Forall (fun o => exists r, o = Return r) (fst (serve requests g)) /\
  intents_data (snd (serve requests g)) = intents_data g.
Proof.
  split; [|split; [|apply serve_keeps]].
  - revert g; induction requests as [|[rt body] rest IH]; intros g; simpl;
      [reflexivity|].
    destruct (get_bot_response rt body g) as [o g1].
    specialize (IH g1); destruct (serve rest g1) as [os g2]; simpl in *.
    rewrite IH; reflexivity.
  - revert g; induction requests as [|[rt body] rest IH]; intros g; simpl;
      [constructor|].
    destruct (get_bot_response_returns rt body g) as [r Hr].
    destruct (get_bot_response rt body g) as [o g1]; simpl in Hr.
    specialize (IH g1); destruct (serve rest g1) as [os g2]; simpl in *.
    constructor; [exists r; exact Hr | exact IH].
Qed.

Lemma import_app_last_tag (env : Environment) (g0 : Globals) :
  import_app env = Some g0 -> last_user_tag g0 = None /\ calls g0 = [].
Proof.
  unfold import_app.
  destruct (truthy_opt (GEMINI_API_KEY env)); [|discriminate].
  destruct (load_or (QUESTIONS_FILE env) []); [|discriminate].
  destruct (load_or (INTENTS_FILE env) (Some [])); [|discriminate].
  intros H; injection H as <-; auto.
Qed.

(** X23.  In every state the process reaches after start-up, whatever the
    requests served, [last_user_tag] is [None]: the elaboration of lines
    135-138 never replaces an answer, and the working answer is the local
    one. *)
Theorem elaboration_never_applies (env : Environment) (g0 : Globals)
    (requests : list (Runtime * Body)) (rt : Runtime) (q : str)
    (bot : option str) :
  import_app env = Some g0 ->
  last_user_tag (snd (serve requests g0)) = None /\
  elaborate rt q bot (snd (serve requests g0))
  = (Return bot, snd (serve requests g0)) /\
  working_answer rt q (snd (serve requests g0))
  = local_answer rt q (snd (serve requests g0)).
Proof.
  intros H; apply import_app_last_tag in H as [H _].
  destruct (serve_keeps requests g0) as [_ Ht]; rewrite H in Ht.
  assert (He : forall b g,
             last_user_tag g = None -> elaborate rt q b g = (Return b, g)).
  { intros b g Hg; unfold elaborate, bind, get_globals; rewrite Hg; simpl.
    rewrite andb_false_r; reflexivity. }
  split; [exact Ht|]; split; [exact (He bot _ Ht)|].
  unfold working_answer, bind.
  destruct (local_answer rt q (snd (serve requests g0))) as [[b|e] g1] eqn:E;
    [|reflexivity].
  assert (Hg : last_user_tag g1 = None).
  { assert (Hk : keeps (local_answer rt q)).
    { unfold local_answer, search_local_questions.
      apply keeps_bind; [apply keeps_search_intents|]; intros found.
      apply keeps_py_or; [apply keeps_ret|].
      apply keeps_bind; [apply keeps_get_globals|]; intros g'.
      apply keeps_fuzzy_match_question. }
    destruct (Hk (snd (serve requests g0))) as [_ Hk2].
    rewrite E in Hk2; simpl in Hk2; congruence. }
  exact (He b g1 Hg).
Qed.

(** X25.  After a start-up where both files are missing or are not valid JSON,
    the store and the intents are empty and no question has a local
    answer. *)
Theorem fresh_start_knows_nothing (env : Environment) (g0 : Globals)
    (rt : Runtime) (q : str) :
  import_app env = Some g0 ->
  QUESTIONS_FILE env = FileNotFoundError \/
  QUESTIONS_FILE env = JSONDecodeError ->
  INTENTS_FILE env = FileNotFoundError \/
  INTENTS_FILE env = JSONDecodeError ->
  questions_data g0 = [] /\ intents_data g0 = [] /\
  working_answer rt q g0 = (Return None, g0).
Proof.
  unfold import_app; intros H Hq Hi.
  destruct (truthy_opt (GEMINI_API_KEY env)); [|discriminate].
  assert (g0 = {| questions_data := []; intents_data := [];
                  last_user_tag := None; calls := [] |}) as ->.
  { destruct Hq as [Hq|Hq], Hi as [Hi|Hi]; rewrite Hq, Hi in H;
      simpl in H; injection H as <-; reflexivity. }
  split; [reflexivity|]; split; [reflexivity|].
  unfold working_answer, local_answer, search_local_questions,
    fuzzy_match_question, search_intents, py_or, elaborate, bind,
    get_globals, ret.
  cbn [questions_data intents_data search_intents_in fst truthy_opt
       dict_keys map].
  rewrite get_close_matches_nil; cbn [last_user_tag truthy_opt].
  rewrite andb_false_r; reflexivity.
Qed.

Import Sample Cases.

(** ** The theorems at work *)

Lemma other_topics_reach_no_provider_witness :
  no_new is_provider (started [] [greeting_intent])
    (snd (get_bot_response runtime (ask Q_WEATHER_EN)
            (started [] [greeting_intent]))).
Proof.
  exact (@other_topics_reach_no_provider runtime Q_WEATHER_EN EN Q_WEATHER
           (started [] [greeting_intent])
           (logged (Translate AUTO AR Q_WEATHER_EN)
              (logged (Detect Q_WEATHER_EN) (started [] [greeting_intent])))
           eq_refl eq_refl eq_refl).
Defined.

Lemma arabic_is_never_translated_witness :
  no_new is_translation (started [] [])
    (snd (get_bot_response runtime (ask Q_MUSEUM) (started [] []))).
Proof.
  exact (@arabic_is_never_translated runtime Q_MUSEUM (started [] [])
           eq_refl).
Defined.

Lemma cascade_stops_at_the_encyclopedia_witness :
  fallback_cascade (with_wikipedia (Return A_MUSEUM) runtime) Q_MUSEUM
    (started [] [])
  = (Return A_MUSEUM, logged (WikipediaSummary Q_MUSEUM) (started [] [])).
Proof.
  exact (@cascade_stops_at_the_encyclopedia
           (with_wikipedia (Return A_MUSEUM) runtime) Q_MUSEUM A_MUSEUM
           (started [] []) eq_refl eq_refl eq_refl).
Defined.

Lemma cascade_ends_with_the_web_search_witness :
  fallback_cascade (with_duckduckgo A_SNIPPET runtime) Q_MUSEUM
    (started [] [])
  = (Return A_SNIPPET, logged_all (cascade_calls Q_MUSEUM) (started [] [])).
Proof.
  exact (@cascade_ends_with_the_web_search
           (with_duckduckgo A_SNIPPET runtime) Q_MUSEUM A_SNIPPET []
           (started [] []) eq_refl eq_refl eq_refl eq_refl).
Defined.

Lemma nothing_found_is_not_stored_witness :
  resolve runtime Q_MUSEUM None (started [] [])
  = (Return MSG_NOT_FOUND,
     logged_all (cascade_calls Q_MUSEUM) (started [] [])).
Proof.
  exact (@nothing_found_is_not_stored runtime Q_MUSEUM None (started [] [])
           eq_refl eq_refl eq_refl eq_refl eq_refl).
Defined.

Lemma encyclopedia_failure_ends_the_request_witness :
  get_bot_response (with_wikipedia (Raise ServiceError) runtime)
    (ask Q_MUSEUM) (started [] [])
  = (Return {| response := MSG_SERVER_ERROR; status := 500 |},
     logged (WikipediaSummary Q_MUSEUM)
       (logged (Detect Q_MUSEUM) (started [] []))).
Proof.
  exact (@encyclopedia_failure_ends_the_request
           (with_wikipedia (Raise ServiceError) runtime)
           Q_MUSEUM AR Q_MUSEUM (started [] [])
           (logged (Detect Q_MUSEUM) (started [] []))
           (logged (Detect Q_MUSEUM) (started [] []))
           None ServiceError
           eq_refl eq_refl eq_refl eq_refl eq_refl eq_refl eq_refl eq_refl).
Defined.

Lemma local_answer_is_final_witness :
  get_bot_response runtime (ask HELLO) (started [] [greeting_intent])
  = (Return {| response := HI; status := 200 |},
     logged (Translate AR EN HI)
       (logged (Translate AUTO AR HELLO)
          (logged (Detect HELLO) (started [] [greeting_intent])))).
Proof.
  exact (@local_answer_is_final runtime HELLO EN HELLO HI
           (started [] [greeting_intent])
           (logged (Translate AUTO AR HELLO)
              (logged (Detect HELLO) (started [] [greeting_intent])))
           (logged (Translate AUTO AR HELLO)
              (logged (Detect HELLO) (started [] [greeting_intent])))
           eq_refl eq_refl eq_refl eq_refl eq_refl).
Defined.

Lemma outside_answer_is_stored_as_found_witness :
  get_bot_response (with_gemini A_MUSEUM runtime) (ask Q_MUSEUM)
    (started [(HELLO, HI)] [greeting_intent])
  = (Return {| response := A_MUSEUM; status := 200 |},
     {| questions_data := [(HELLO, HI); (Q_MUSEUM, A_MUSEUM)];
        intents_data := [greeting_intent];
        last_user_tag := None;
        calls := [Detect Q_MUSEUM; WikipediaSummary Q_MUSEUM;
                  GeminiGenerate (GEMINI_PROMPT ++ Q_MUSEUM);
                  DumpQuestions [(HELLO, HI); (Q_MUSEUM, A_MUSEUM)]] |}).
Proof.
  exact (@outside_answer_is_stored_as_found (with_gemini A_MUSEUM runtime)
           Q_MUSEUM AR Q_MUSEUM A_MUSEUM None
           (started [(HELLO, HI)] [greeting_intent])
           (logged (Detect Q_MUSEUM)
              (started [(HELLO, HI)] [greeting_intent]))
           (logged (Detect Q_MUSEUM)
              (started [(HELLO, HI)] [greeting_intent]))
           (logged (GeminiGenerate (GEMINI_PROMPT ++ Q_MUSEUM))
              (logged (WikipediaSummary Q_MUSEUM)
                 (logged (Detect Q_MUSEUM)
                    (started [(HELLO, HI)] [greeting_intent]))))
           eq_refl eq_refl eq_refl eq_refl eq_refl eq_refl eq_refl eq_refl).
Defined.

Lemma exact_pattern_is_matched_witness :
  search_intents TUTANKHAMUN
    (started [] [greeting_intent; tut_intent DETAIL_A; silent_intent])
  = (Return (Some BOY_KING, Some TUT),
     started [] [greeting_intent; tut_intent DETAIL_A; silent_intent]).
Proof.
  apply (@exact_pattern_is_matched TUTANKHAMUN BOY_KING []
           (tut_intent DETAIL_A) [greeting_intent] [silent_intent]
           (started [] [greeting_intent; tut_intent DETAIL_A; silent_intent])).
  - reflexivity.
  - reflexivity.
  - left; reflexivity.
  - apply Nat.ltb_lt; reflexivity.
  - reflexivity.
Defined.

Lemma stored_question_is_found_witness :
  fuzzy_match_question runtime HELLO_WORLD_UPPER
    [(HELLO, HI); (HELLO_WORLD, A_SNIPPET)] (started [] [])
  = (Return (Some A_SNIPPET), started [] []).
Proof.
  apply (@stored_question_is_found runtime HELLO_WORLD_UPPER A_SNIPPET
           [(HELLO, HI); (HELLO_WORLD, A_SNIPPET)] (started [] [])).
  - reflexivity.
  - apply Nat.ltb_lt; reflexivity.
Defined.

Lemma learned_answer_is_found_again_witness :
  search_local_questions runtime HELLO_WORLD_UPPER
    (snd (save_question (read_only runtime) HELLO_WORLD HI
            (started [(HELLO, A_SNIPPET)] [])))
  = (Return (Some HI),
     snd (save_question (read_only runtime) HELLO_WORLD HI
            (started [(HELLO, A_SNIPPET)] []))).
Proof.
  apply (@learned_answer_is_found_again (read_only runtime) HELLO_WORLD
           HELLO_WORLD_UPPER HI (started [(HELLO, A_SNIPPET)] [])).
  - reflexivity.
  - reflexivity.
  - reflexivity.
  - apply Nat.ltb_lt; reflexivity.
Defined.

Lemma known_question_is_answered_from_the_store_witness :
  get_bot_response runtime (ask Q_MUSEUM)
    (started [(Q_HALL, A_SNIPPET); (Q_MUSEUM, A_MUSEUM)] [greeting_intent])
  = (Return {| response := A_MUSEUM; status := 200 |},
     logged (Detect Q_MUSEUM)
       (started [(Q_HALL, A_SNIPPET); (Q_MUSEUM, A_MUSEUM)]
          [greeting_intent])).
Proof.
  apply (@known_question_is_answered_from_the_store runtime Q_MUSEUM AR
           Q_MUSEUM A_MUSEUM
           (started [(Q_HALL, A_SNIPPET); (Q_MUSEUM, A_MUSEUM)]
              [greeting_intent])
           (logged (Detect Q_MUSEUM)
              (started [(Q_HALL, A_SNIPPET); (Q_MUSEUM, A_MUSEUM)]
                 [greeting_intent]))).
  - reflexivity.
  - reflexivity.
  - reflexivity.
  - reflexivity.
  - reflexivity.
  - reflexivity.
  - apply Nat.ltb_lt; reflexivity.
  - reflexivity.
Defined.

Lemma saved_answer_is_read_back_witness :
  dict_get Q_MUSEUM
    (questions_data
       (snd (save_question (read_only runtime) Q_MUSEUM A_MUSEUM
               (started [(HELLO, HI)] []))))
  = Some A_MUSEUM /\
  (forall key,
      key <> Q_MUSEUM ->
      dict_get key
        (questions_data
           (snd (save_question (read_only runtime) Q_MUSEUM A_MUSEUM
                   (started [(HELLO, HI)] []))))
      = dict_get key [(HELLO, HI)]) /\
  dict_keys
    (questions_data
       (snd (save_question (read_only runtime) Q_MUSEUM A_MUSEUM
               (started [(HELLO, HI)] []))))
  = [HELLO; Q_MUSEUM] /\
  calls (snd (save_question (read_only runtime) Q_MUSEUM A_MUSEUM
                (started [(HELLO, HI)] [])))
  = [DumpQuestions [(HELLO, HI); (Q_MUSEUM, A_MUSEUM)]].
Proof.
  exact (@saved_answer_is_read_back (read_only runtime) Q_MUSEUM A_MUSEUM
           (started [(HELLO, HI)] []) eq_refl eq_refl).
Defined.

Lemma elaboration_never_applies_witness :
  last_user_tag
    (snd (serve [(runtime, ask HELLO); (runtime, ask TELL_ME_MORE)]
            (started [] [greeting_intent; tut_intent DETAIL_A])))
  = None /\
  elaborate runtime TELL_ME_MORE None
    (snd (serve [(runtime, ask HELLO); (runtime, ask TELL_ME_MORE)]
            (started [] [greeting_intent; tut_intent DETAIL_A])))
  = (Return None,
     snd (serve [(runtime, ask HELLO); (runtime, ask TELL_ME_MORE)]
            (started [] [greeting_intent; tut_intent DETAIL_A]))) /\
  working_answer runtime TELL_ME_MORE
    (snd (serve [(runtime, ask HELLO); (runtime, ask TELL_ME_MORE)]
            (started [] [greeting_intent; tut_intent DETAIL_A])))
  = local_answer runtime TELL_ME_MORE
      (snd (serve [(runtime, ask HELLO); (runtime, ask TELL_ME_MORE)]
              (started [] [greeting_intent; tut_intent DETAIL_A]))).
Proof.
  exact (@elaboration_never_applies
           (configured [] [greeting_intent; tut_intent DETAIL_A])
           (started [] [greeting_intent; tut_intent DETAIL_A])
           [(runtime, ask HELLO); (runtime, ask TELL_ME_MORE)]
           runtime TELL_ME_MORE None eq_refl).
Defined.

Lemma fresh_start_knows_nothing_witness :
  questions_data (started [] []) = [] /\
  intents_data (started [] []) = [] /\
  working_answer runtime Q_MUSEUM (started [] [])
  = (Return None, started [] []).
Proof.
  exact (@fresh_start_knows_nothing fresh (started [] []) runtime Q_MUSEUM
           eq_refl (or_introl eq_refl) (or_intror eq_refl)).
Defined.

End RequestFacts.
